(** * Streaming talking-avatar pipeline: a shallow embedding of the Python sources

    The development follows the layout of the repository:
    - [Py]          the fragments of Python/NumPy semantics the code relies on
                    (exceptions, slicing, binary64 floats, [int()] truncation);
    - [AudDataset], [MelSpectrogramProcessor]   utils.py / audio_pipeline/mel_processor.py;
    - [Mel]         the mel-spectrogram extractor (utils.py);
    - [Features]    utils.get_audio_features and AudioEncoder.get_audio_features_for_frame;
    - [ImageProcessor], [FaceRegion]   frame_generation_pipeline/image_processor.py;
    - [FrameGenerator]   frame_generation_pipeline/frame_generator.py;
    - [AudioEncoderWrapper], [AudioPipeline]   audio_pipeline/audio_encoder.py and
                    audio_pipeline/pipeline.py;
    - [HeadMotion], [Generator], [DynamicAvatar]   services/generator.py. *)

From Stdlib Require Import ZArith List Bool Lia.
From Stdlib Require Import Floats.SpecFloat.
Import ListNotations.
Open Scope Z_scope.

(** ** Python semantics used by the sources *)
Module Py.

(** The exceptions that the modelled code can raise.  [UnboundLocalError] is a
    subclass of [NameError] in CPython; [External] stands for whatever an
    external collaborator (a network, OpenCV) raises. *)
Inductive exn : Type :=
| ZeroDivisionError
| OverflowError
| ValueError
| IndexError
| TypeError
| AttributeError
| NameError
| UnboundLocalError
| RuntimeError
| External (tag : Z).

(** [isinstance(e, NameError)]. *)
Definition is_NameError (e : exn) : bool :=
  match e with
  | NameError | UnboundLocalError => true
  | _ => false
  end.

Inductive res (A : Type) : Type :=
| Ok (a : A)
| Raise (e : exn).
Arguments Ok {A} a.
Arguments Raise {A} e.

Definition bind {A B} (m : res A) (k : A -> res B) : res B :=
  match m with
  | Ok a => k a
  | Raise e => Raise e
  end.

Definition len {A} (l : list A) : Z := Z.of_nat (length l).

(** Normalisation of one bound of a slice [a[lo:hi]] over a sequence of
    length [n]: a negative bound counts from the end, and both are clipped. *)
Definition slice_bound (n i : Z) : Z :=
  if i <? 0 then Z.max 0 (i + n) else Z.min i n.

(** [a[lo:hi]] (step 1).  Slicing never raises. *)
Definition slice {A} (l : list A) (lo hi : Z) : list A :=
  let s := slice_bound (len l) lo in
  let e := slice_bound (len l) hi in
  firstn (Z.to_nat (e - s)) (skipn (Z.to_nat s) l).

(** [a[:k]]. *)
Definition prefix {A} (l : list A) (k : Z) : list A := slice l 0 k.

(** *** binary64 floats, as CPython's [float] *)
Definition prec : Z := 53.
Definition emax : Z := 1024.

(** [float(n)] for an [int]: round to nearest even; an [int] too large for a
    double raises [OverflowError]. *)
Definition float_of_int (n : Z) : res spec_float :=
  match binary_normalize prec emax n 0 false with
  | S754_infinity _ | S754_nan => Raise OverflowError
  | x => Ok x
  end.

Definition is_zero (x : spec_float) : bool :=
  match x with S754_zero _ => true | _ => false end.

(** [x / y] on floats: a zero divisor raises. *)
Definition fdiv (x y : spec_float) : res spec_float :=
  if is_zero y then Raise ZeroDivisionError else Ok (SFdiv prec emax x y).

Definition fmul (x y : spec_float) : spec_float := SFmul prec emax x y.

(** [int(x)] on a float: truncation toward zero; infinities and NaN raise. *)
Definition int_of_float (x : spec_float) : res Z :=
  match x with
  | S754_zero _ => Ok 0
  | S754_finite s m e =>
      let a := match e with
               | Zneg p => Z.shiftr (Zpos m) (Zpos p)
               | _ => Z.shiftl (Zpos m) e
               end in
      Ok (if s then - a else a)
  | S754_infinity _ => Raise OverflowError
  | S754_nan => Raise ValueError
  end.

End Py.

Import Py.
Notation "x <- m ;; k" := (Py.bind m (fun x => k))
  (at level 61, m at next level, right associativity).

(** The literal [80.] / [80.0]. *)
Definition f80 : spec_float := Eval vm_compute in binary_normalize prec emax 80 0 false.

(** ** Two-dimensional arrays as lists of rows *)
Module Array2.

(** The [j]-th column of a list of rows. *)
Definition column {A} (m : list (list A)) (j : nat) : list A :=
  flat_map (fun r => match nth_error r j with Some x => [x] | None => [] end) m.

(** [m.T] for an array with [ncols] columns. *)
Definition transpose {A} (ncols : nat) (m : list (list A)) : list (list A) :=
  map (column m) (seq 0 ncols).

(** [m.shape[1]]. *)
Definition ncols {A} (m : list (list A)) : Z := len (hd [] m).

(** [m.shape == (r, c)] for a list of rows that all have [c] entries. *)
Definition has_shape {A} (m : list (list A)) (r c : Z) : Prop :=
  len m = r /\ Forall (fun row => len row = c) m.

End Array2.

(** ** utils.py, [AudDataset] *)
Module AudDataset.

(** [self.data_len = int((self.orig_mel.shape[0] - 16) / 80. * float(25)) + 2],
    as a function of [orig_mel.shape[0]]. *)
Definition data_len (n_mel_frames : Z) : res Z :=
  a <- float_of_int (n_mel_frames - 16) ;;
  q <- fdiv a f80 ;;
  f <- float_of_int 25 ;;
  t <- int_of_float (fmul q f) ;;
  Ok (t + 2).

(** [crop_audio_window(spec, start_frame)] for an [int] frame number; [spec]
    is the transposed spectrogram, one row per mel frame. *)
Definition crop_audio_window {row} (spec : list row) (start_frame_num : Z) : res (list row) :=
  f <- float_of_int 25 ;;
  k <- float_of_int start_frame_num ;;
  q <- fdiv k f ;;
  start_idx <- int_of_float (fmul f80 q) ;;
  let end_idx := start_idx + 16 in
  let '(start_idx, end_idx) :=
    if end_idx >? len spec then (len spec - 16, len spec) else (start_idx, end_idx) in
  Ok (slice spec start_idx end_idx).

End AudDataset.

(** ** audio_pipeline/mel_processor.py, [MelSpectrogramProcessor] *)
Module MelSpectrogramProcessor.

(** [int((n_mel_frames - 16) / 80.0 * float(fps)) + 2], on [n_mel_frames = mel_spec.shape[1]]. *)
Definition get_frame_count (n_mel_frames fps : Z) : res Z :=
  a <- float_of_int (n_mel_frames - 16) ;;
  q <- fdiv a f80 ;;
  f <- float_of_int fps ;;
  t <- int_of_float (fmul q f) ;;
  Ok (t + 2).

(** [int(80.0 * (frame_idx / float(fps)))]. *)
Definition start_index (frame_idx fps : Z) : res Z :=
  f <- float_of_int fps ;;
  k <- float_of_int frame_idx ;;
  q <- fdiv k f ;;
  int_of_float (fmul f80 q).

(** [crop_audio_window(mel_spec, frame_idx, fps)]; [mel_spec] has one row per
    mel band and one column per mel frame. *)
Definition crop_audio_window {A} (mel_spec : list (list A)) (frame_idx fps : Z)
  : res (list (list A)) :=
  start_idx <- start_index frame_idx fps ;;
  let end_idx := start_idx + 16 in
  let n := Array2.ncols mel_spec in
  let '(start_idx, end_idx) :=
    if end_idx >? n then (n - 16, n) else (start_idx, end_idx) in
  let cols := map (fun r => slice r start_idx end_idx) mel_spec in
  let window := Array2.transpose (length (hd [] cols)) cols in
  if negb (len window =? 16) then Raise ValueError else Ok window.

End MelSpectrogramProcessor.

(** The frame count as the specification words it:
    [floor((n_mel_frames - 16) / 80 * fps) + 2] over the rationals. *)
Definition frame_count_spec (n_mel_frames fps : Z) : Z :=
  (n_mel_frames - 16) * fps / 80 + 2.

(** ** Context windows: utils.get_audio_features and
    AudioEncoder.get_audio_features_for_frame *)
Module Features.
Section Rows.

(** One row of a feature matrix (512 floats), and the all-zero row. *)
Variable row : Type.
Variable zero_row : row.

(** [left] and [right] are constructors here, so the source's variables of
    that name carry an underscore. *)

(** [torch.zeros_like(a)]: as many zero rows as [a] has rows. *)
Definition zeros_like (a : list row) : list row := map (fun _ => zero_row) a.

(** [np.zeros((k, width))]. *)
Definition np_zeros (k : Z) : list row := repeat zero_row (Z.to_nat k).

(** utils.py, [get_audio_features(features, index)]. *)
Definition get_audio_features (features : list row) (index : Z) : list row :=
  let left_ := index - 8 in
  let right_ := index + 8 in
  let pad_left := 0 in
  let pad_right := 0 in
  let '(pad_left, left_) := if left_ <? 0 then (- left_, 0) else (pad_left, left_) in
  let '(pad_right, right_) :=
    if right_ >? len features then (right_ - len features, len features)
    else (pad_right, right_) in
  let auds := slice features left_ right_ in
  let auds :=
    if pad_left >? 0 then zeros_like (prefix auds pad_left) ++ auds else auds in
  let auds :=
    if pad_right >? 0 then auds ++ zeros_like (prefix auds pad_right) else auds in
  auds.

(** audio_encoder.py, [AudioEncoder.get_audio_features_for_frame]. *)
Definition get_audio_features_for_frame
  (all_features : list row) (frame_idx context_size : Z) : list row :=
  let left_ := frame_idx - context_size in
  let right_ := frame_idx + context_size in
  let pad_left := 0 in
  let pad_right := 0 in
  let '(pad_left, left_) := if left_ <? 0 then (- left_, 0) else (pad_left, left_) in
  let '(pad_right, right_) :=
    if right_ >? len all_features then (right_ - len all_features, len all_features)
    else (pad_right, right_) in
  let window := slice all_features left_ right_ in
  let window := if pad_left >? 0 then np_zeros pad_left ++ window else window in
  let window := if pad_right >? 0 then window ++ np_zeros pad_right else window in
  window.

(** The embedding of frame [i], or the zero row outside the array. *)
Definition feature_at (features : list row) (i : Z) : row :=
  if (0 <=? i) && (i <? len features)
  then nth (Z.to_nat i) features zero_row else zero_row.

(** The window of 16 rows centred on [idx]: frames [idx - 8 .. idx + 7],
    zero rows where the array has no frame. *)
Definition centred_window (features : list row) (idx : Z) : list row :=
  map (fun j => feature_at features (idx - 8 + Z.of_nat j)) (seq 0 16).

(** The window that lies behind [idx] in an array whose first eight rows
    are copies of [first_frame], put in front of [features]: sixteen rows,
    the one at position [j] being frame [idx - 16 + j] of [features]
    ([first_frame] before its start), and a zero row where even the copies
    are not reached. *)
Definition window_behind (first_frame : row) (features : list row) (idx : Z) : list row :=
  map (fun j =>
         let i := idx - 16 + Z.of_nat j in
         if i + 8 <? 0 then zero_row
         else if i <? 0 then first_frame
         else nth (Z.to_nat i) features zero_row)
      (seq 0 16).

End Rows.

Arguments zeros_like {row} zero_row a.
Arguments np_zeros {row} zero_row k.
Arguments get_audio_features {row} zero_row features index.
Arguments get_audio_features_for_frame {row} zero_row all_features frame_idx context_size.
Arguments feature_at {row} zero_row features i.
Arguments centred_window {row} zero_row features idx.
Arguments window_behind {row} zero_row first_frame features idx.

End Features.

(** ** NumPy images: rows of pixels, and assignment to a rectangular slice *)
Module Image.
Section Pixels.

(** One pixel (three [uint8] channels). *)
Variable pixel : Type.

Definition image : Type := list (list pixel).

Fixpoint mapi_from {A B} (f : nat -> A -> B) (i : nat) (l : list A) : list B :=
  match l with
  | [] => []
  | x :: t => f i x :: mapi_from f (S i) t
  end.

Definition mapi {A B} (f : nat -> A -> B) (l : list A) : list B := mapi_from f 0 l.

(** [a[y, x]] for indices inside the array. *)
Definition pixel_at (a : image) (y x : nat) : option pixel :=
  match nth_error a y with
  | Some r => nth_error r x
  | None => None
  end.

(** [v[i, j]] when [v] is broadcast: an axis of size 1 is repeated. *)
Definition broadcast_at (v : image) (i j : nat) : option pixel :=
  match nth_error v (if len v =? 1 then 0%nat else i) with
  | Some r => nth_error r (if len r =? 1 then 0%nat else j)
  | None => None
  end.

(** The rows [sy, ey) and columns [sx, ex) that [a[y0:y1, x0:x1]] selects. *)
Definition region (a : image) (y0 y1 x0 x1 : Z) : Z * Z * Z * Z :=
  (slice_bound (len a) y0, slice_bound (len a) y1,
   slice_bound (Array2.ncols a) x0, slice_bound (Array2.ncols a) x1).

Definition in_region (rg : Z * Z * Z * Z) (y x : nat) : bool :=
  let '(sy, ey, sx, ex) := rg in
  (sy <=? Z.of_nat y) && (Z.of_nat y <? ey) && (sx <=? Z.of_nat x) && (Z.of_nat x <? ex).

(** [a[y0:y1, x0:x1] = v] on a copy of [a]: NumPy raises [ValueError] when
    [v] cannot be broadcast to the shape of the selected region. *)
Definition set_region (a : image) (y0 y1 x0 x1 : Z) (v : image) : res image :=
  let '(sy, ey, sx, ex) := region a y0 y1 x0 x1 in
  let nrows := Z.max 0 (ey - sy) in
  let ncols := Z.max 0 (ex - sx) in
  if ((len v =? nrows) || (len v =? 1)) &&
     ((Array2.ncols v =? ncols) || (Array2.ncols v =? 1))
  then
    Ok (mapi (fun y r =>
          mapi (fun x p =>
            if in_region (sy, ey, sx, ex) y x then
              match broadcast_at v (y - Z.to_nat sy) (x - Z.to_nat sx) with
              | Some q => q
              | None => p
              end
            else p) r) a)
  else Raise ValueError.

(** [out] has the shape of [a] and agrees with it at every pixel that
    [a[y0:y1, x0:x1]] does not select. *)
Definition unchanged_outside (a out : image) (y0 y1 x0 x1 : Z) : Prop :=
  length out = length a /\
  (forall y, option_map (@length pixel) (nth_error out y)
             = option_map (@length pixel) (nth_error a y)) /\
  (forall y x, in_region (region a y0 y1 x0 x1) y x = false ->
               pixel_at out y x = pixel_at a y x).

End Pixels.

Arguments mapi_from {A B} f i l.
Arguments mapi {A B} f l.
Arguments pixel_at {pixel} a y x.
Arguments broadcast_at {pixel} v i j.
Arguments region {pixel} a y0 y1 x0 x1.
Arguments set_region {pixel} a y0 y1 x0 x1 v.
Arguments unchanged_outside {pixel} a out y0 y1 x0 x1.

End Image.

(** ** frame_generation_pipeline/image_processor.py, [ImageProcessor] *)
Module ImageProcessor.
Section Paste.

Variable pixel : Type.
(** The pixel of [np.zeros(..., dtype=np.uint8)]. *)
Variable black : pixel.
(** [cv2.resize(image, (w, h), interpolation=cv2.INTER_CUBIC)], an external
    collaborator: it returns an image or raises. *)
Variable cv2_resize : Image.image pixel -> Z -> Z -> res (Image.image pixel).

(** [paste_generated_region(full_frame, generated_region, crop_coords,
    original_crop_size)]. *)
Definition paste_generated_region
  (full_frame generated_region : Image.image pixel)
  (crop_coords : Z * Z * Z * Z) (original_crop_size : Z * Z)
  : res (Image.image pixel) :=
  let '(xmin, ymin, xmax, ymax) := crop_coords in
  let '(h, w) := original_crop_size in
  let canvas := repeat (repeat black 328) 328 in
  canvas <- Image.set_region canvas 4 324 4 324 generated_region ;;
  resized <- cv2_resize canvas w h ;;
  let output_frame := full_frame in
  Image.set_region output_frame ymin ymax xmin xmax resized.

(** The compositing step of services/generator.py (lines 309-319): the
    generated region goes into a copy of the resized crop [crop_img_r], which
    is resized back and pasted into a copy of the template image. *)
Definition composite
  (img crop_img_r pred : Image.image pixel)
  (crop_coords : Z * Z * Z * Z) (original_crop_size : Z * Z)
  : res (Image.image pixel) :=
  let '(h, w) := original_crop_size in
  let final_frame := img in
  crop_img_out <- Image.set_region crop_img_r 4 324 4 324 pred ;;
  crop_img_out <- cv2_resize crop_img_out w h ;;
  let '(c0, c1, c2, c3) := crop_coords in
  Image.set_region final_frame c1 c3 c0 c2 crop_img_out.

End Paste.

Arguments paste_generated_region {pixel} black cv2_resize
  full_frame generated_region crop_coords original_crop_size.
Arguments composite {pixel} cv2_resize img crop_img_r pred crop_coords original_crop_size.

End ImageProcessor.

(** ** Head motion: the ping-pong cursor of services/generator.py *)
Module HeadMotion.

(** One pass of the "head motion logic":
    [if img_idx > len_img - 1: step_stride = -1],
    [if img_idx < 1: step_stride = 1], [img_idx += step_stride]. *)
Definition step (len_img img_idx step_stride : Z) : Z * Z :=
  let step_stride := if img_idx >? len_img - 1 then -1 else step_stride in
  let step_stride := if img_idx <? 1 then 1 else step_stride in
  let img_idx := img_idx + step_stride in
  (img_idx, step_stride).

(** The indices [img_idx] at which [self._source_frames] is read by the next
    [n] frames, from the cursor [(img_idx, step_stride)]. *)
Fixpoint indices (len_img : Z) (n : nat) (img_idx step_stride : Z) : list Z :=
  match n with
  | O => []
  | S n' =>
      let '(i, s) := step len_img img_idx step_stride in
      i :: indices len_img n' i s
  end.

(** [generate_dynamic_avatar] with [N] source frames: [step_stride = 0],
    [img_idx = 0], [len_img = len(self._source_frames) - 1]; the indices of
    its first [n] frames. *)
Definition dynamic_avatar_indices (N : Z) (n : nat) : list Z :=
  indices (N - 1) n 0 0.

(** The ping-pong walk [0, 1, ..., N-1, N-2, ..., 1, 0, 1, ...] at time [t]. *)
Definition pingpong (N t : Z) : Z :=
  let p := 2 * (N - 1) in
  let r := t mod p in
  if r <=? N - 1 then r else p - r.

(** The cursor after [t] passes over [N] frames: where it is, and which way
    it last moved. *)
Definition cursor_at (N t img_idx step_stride : Z) : Prop :=
  img_idx = pingpong N t /\
  ((t = 0 /\ step_stride = 0) \/
   (step_stride = 1 /\ 1 <= t mod (2 * (N - 1)) <= N - 1) \/
   (step_stride = -1 /\ (t mod (2 * (N - 1)) = 0 \/ N <= t mod (2 * (N - 1))))).

End HeadMotion.

(** ** The mel-spectrogram pipeline of utils.py and audio_pipeline/mel_processor.py *)
Module Mel.
Section Pipeline.

(** Waveform samples, real spectrogram values and complex STFT coefficients;
    the arithmetic on them is that of NumPy, SciPy and librosa. *)
Variable sample amp bin : Type.

(** [signal.lfilter([1, -k], [1], wav)] at one position: the sample and its
    predecessor, if any. *)
Variable fir : sample -> option sample -> sample.
(** The value that [np.pad] puts at distance [i] before ([true]) or after
    ([false]) the signal. *)
Variable pad_value : list sample -> bool -> nat -> sample.
(** The windowed DFT of one frame of [n_fft] samples at one frequency. *)
Variable fft_bin : list sample -> nat -> bin.
Variable np_abs : bin -> amp.
(** [librosa.filters.mel(sr=16000, n_fft=800, n_mels=80, fmin=55, fmax=7600)[m, k]]. *)
Variable mel_weight : nat -> nat -> amp.
Variable dot : list amp -> list amp -> amp.
(** [20 * np.log10(np.maximum(min_level, x))], [x - 20] and
    [np.clip(8 * ((S + 100) / 100) - 4, -4, 4)] on one value. *)
Variable amp_to_db : amp -> amp.
Variable sub_ref_level : amp -> amp.
Variable normalize : amp -> amp.

Definition n_fft : Z := 800.
Definition hop_length : Z := 200.
Definition n_mels : nat := 80.

(** The recurrence of the filter [[1, -k] / [1]]: every sample with its
    predecessor. *)
Fixpoint fir_filter (prev : option sample) (wav : list sample) : list sample :=
  match wav with
  | [] => []
  | x :: t => fir x prev :: fir_filter (Some x) t
  end.

(** [signal.lfilter([1, -k], [1], wav)]: SciPy refuses a signal without
    samples with a [ValueError]. *)
Definition lfilter (wav : list sample) : res (list sample) :=
  match wav with
  | [] => Raise ValueError
  | _ => Ok (fir_filter None wav)
  end.

Definition preemphasis (wav : list sample) : res (list sample) := lfilter wav.

(** [np.pad(y, width)]. *)
Definition np_pad (y : list sample) (width : nat) : list sample :=
  map (pad_value y true) (seq 0 width) ++ y ++ map (pad_value y false) (seq 0 width).

(** [librosa.stft(y, n_fft=800, hop_length=200, win_length=800, center=center)]:
    with [center] the signal is padded by [n_fft // 2] on both sides, so that
    frame [t] is centred on sample [t * hop_length]; the result has
    [1 + n_fft // 2] rows and [1 + (len(y) - n_fft) // hop_length] columns,
    [y] being the padded signal.  A signal shorter than one window is
    refused ([librosa.ParameterError]). *)
Definition librosa_stft (y : list sample) (center : bool) : res (list (list bin)) :=
  let y := if center then np_pad y (Z.to_nat (n_fft / 2)) else y in
  if len y <? n_fft then Raise (External 0)
  else
    let n_frames := Z.to_nat (1 + (len y - n_fft) / hop_length) in
    Ok (map (fun k =>
          map (fun t =>
            fft_bin (slice y (Z.of_nat t * hop_length) (Z.of_nat t * hop_length + n_fft)) k)
            (seq 0 n_frames))
          (seq 0 (Z.to_nat (1 + n_fft / 2)))).

(** [_stft]: [center] is not passed, and its default is [True]. *)
Definition _stft (y : list sample) : res (list (list bin)) := librosa_stft y true.

Definition mel_basis : list (list amp) :=
  map (fun m => map (mel_weight m) (seq 0 (Z.to_nat (1 + n_fft / 2)))) (seq 0 n_mels).

(** [np.dot(a, b)] of two matrices. *)
Definition np_dot (a b : list (list amp)) : res (list (list amp)) :=
  if Array2.ncols a =? len b then
    Ok (map (fun r => map (fun t => dot r (Array2.column b t))
                          (seq 0 (Z.to_nat (Array2.ncols b)))) a)
  else Raise ValueError.

Definition _linear_to_mel (spectrogram : list (list amp)) : res (list (list amp)) :=
  np_dot mel_basis spectrogram.

(** [utils.melspectrogram(wav)]. *)
Definition melspectrogram (wav : list sample) : res (list (list amp)) :=
  emphasized <- preemphasis wav ;;
  D <- _stft emphasized ;;
  S <- _linear_to_mel (map (map np_abs) D) ;;
  let S := map (map (fun x => sub_ref_level (amp_to_db x))) S in
  Ok (map (map normalize) S).

(** [MelSpectrogramProcessor.process_audio(wav)]. *)
Definition process_audio (wav : list sample) : res (list (list amp)) :=
  wav_preemph <- preemphasis wav ;;
  D <- _stft wav_preemph ;;
  mel_spec <- _linear_to_mel (map (map np_abs) D) ;;
  let mel_db := map (map amp_to_db) mel_spec in
  let mel_db := map (map sub_ref_level) mel_db in
  let mel_normalized := map (map normalize) mel_db in
  Ok mel_normalized.

End Pipeline.

Arguments preemphasis {sample} fir wav.
Arguments librosa_stft {sample bin} pad_value fft_bin y center.
Arguments _stft {sample bin} pad_value fft_bin y.
Arguments np_dot {amp} dot a b.
Arguments melspectrogram {sample amp bin}.
Arguments process_audio {sample amp bin}.

End Mel.

(** ** services/generator.py: the streaming generators *)
Module Generator.

Inductive cls : Type := FrameGenerationService | EnhancedFrameGenerationService.

(** The methods that the generators look up on [self]. *)
Inductive method : Type :=
| generate_static_frame
| _preprocess_image
| _calculate_adjusted_fps
| _encode_high_quality_jpeg.

(** Where a method is defined: the last two only in the enhanced class. *)
Definition defines (c : cls) (m : method) : bool :=
  match c, m with
  | _, generate_static_frame => true
  | _, _preprocess_image => true
  | EnhancedFrameGenerationService, _ => true
  | FrameGenerationService, _ => false
  end.

Definition getattr (c : cls) (m : method) : res unit :=
  if defines c m then Ok tt else Raise AttributeError.

(** The receiver: its class, and for the enhanced class the number of loaded
    source frames ([None] when the attribute is [None]). *)
Record service : Type := {
  class_of : cls;
  _source_frames : option Z
}.

(** [not self._source_frames]. *)
Definition no_source_frames (self : service) : bool :=
  match _source_frames self with
  | None => true
  | Some n => n =? 0
  end.

(** [self._source_frames[img_idx]]: the position read in the list. *)
Definition source_frame (self : service) (img_idx : Z) : res Z :=
  match class_of self with
  | FrameGenerationService => Raise AttributeError
  | EnhancedFrameGenerationService =>
      match _source_frames self with
      | None => Raise TypeError
      | Some n =>
          if (0 <=? img_idx) && (img_idx <? n) then Ok img_idx
          else if (- n <=? img_idx) && (img_idx <? 0) then Ok (img_idx + n)
          else Raise IndexError
      end
  end.

(** [num_frames = max(1, (mel_tensor.shape[0] - context_size) // step_size + 1)]. *)
Definition num_frames (n_mel : Z) : Z := Z.max 1 ((n_mel - 16) / 4 + 1).

(** A local variable that may not have been assigned yet, and a global name
    that may not exist. *)
Definition local (x : option Z) : res Z :=
  match x with Some v => Ok v | None => Raise UnboundLocalError end.

Definition global (x : option Z) : res Z :=
  match x with Some v => Ok v | None => Raise NameError end.

(** The head motion statements on the variables of the running frame. *)
Definition head_motion (len_img img_idx step_stride : option Z) : res (Z * Z) :=
  i <- local img_idx ;;
  l <- global len_img ;;
  let step_stride := if i >? l - 1 then Some (-1) else step_stride in
  let step_stride := if i <? 1 then Some 1 else step_stride in
  s <- local step_stride ;;
  Ok (i + s, s).

(** [range(lo, hi)]. *)
Definition range (lo hi : Z) : list Z :=
  map (fun i => lo + Z.of_nat i) (seq 0 (Z.to_nat (hi - lo))).

Fixpoint mapM {A B} (f : A -> res B) (l : list A) : res (list B) :=
  match l with
  | [] => Ok []
  | x :: t => y <- f x ;; ys <- mapM f t ;; Ok (y :: ys)
  end.

(** What a generator does that its consumer can observe: a frame, or the
    50 ms pause of a retry.  (The pacing pauses between frames depend on the
    clock only and are left out.) *)
Inductive event (frame : Type) : Type :=
| Yield (f : frame)
| Sleep (ms : Z).
Arguments Yield {frame} f.
Arguments Sleep {frame} ms.

(** How the iteration ends for the consumer. *)
Inductive ending : Type :=
| Returned
| Raised (e : exn).

Section Streaming.

Variables mel_row emb frame : Type.
(** The row of [torch.zeros_like]. *)
Variable zero_emb : emb.
(** [self.models.audio_encoder] on one window of 16 mel rows. *)
Variable audio_encoder : list mel_row -> res emb.
(** The JPEG of the template image, once [_encode_high_quality_jpeg] is found. *)
Variable static_jpeg : res frame.
(** [self._preprocess_image()]. *)
Variable preprocess : res unit.
(** [self.models.net], the compositing and [cv2.imencode]: from the source
    frame read (none for the template image) and the audio context, the JPEG. *)
Variable net : option Z -> list emb -> res frame.

Definition run : Type := list (event frame) * ending.

Definition prepend (evs : list (event frame)) (r : run) : run :=
  (evs ++ fst r, snd r).

(** The variables of the streaming loop. *)
Record state : Type := {
  frame_idx : Z;
  audio_features_cache : list emb;
  retry_count : Z;
  img_idx : option Z;
  step_stride : option Z
}.

(** The encoder on the windows [i] of [range(lo, hi)]. *)
Definition encode_range (mel_tensor : list mel_row) (lo hi : Z) : res (list emb) :=
  mapM (fun i =>
          let mel_idx := i * 4 in
          let mel_idx := if mel_idx + 16 >? len mel_tensor
                         then len mel_tensor - 16 else mel_idx in
          audio_encoder (slice mel_tensor mel_idx (mel_idx + 16)))
       (range lo hi).

(** One pass of [while frame_idx < num_frames]. *)
Inductive pass_result : Type :=
| Break
| Next (evs : list (event frame)) (s : state)
| Error (e : exn).

(** The frame of one pass: head motion when the method has it, the context
    window, the reshape to (1, 32, 16, 16) and the network. *)
Definition render (self : service) (motion : bool) (len_img : option Z) (s : state)
  : res (frame * option Z * option Z) :=
  cursor <- (if motion then
               c <- head_motion len_img (img_idx s) (step_stride s) ;;
               src <- source_frame self (fst c) ;;
               Ok (Some src, Some (fst c), Some (snd c))
             else Ok (None, img_idx s, step_stride s)) ;;
  let '(src, i, st) := cursor in
  let audio_feat :=
    Features.get_audio_features zero_emb (audio_features_cache s) (frame_idx s) in
  if len audio_feat =? 16 then
    f <- net src audio_feat ;;
    Ok (f, i, st)
  else Raise RuntimeError.

Definition pass (self : service) (motion : bool) (len_img : option Z)
  (mel_tensor : list mel_row) (s : state) : pass_result :=
  let n := num_frames (len mel_tensor) in
  let next_chunk_start := len (audio_features_cache s) - 8 in
  let need_more_features := next_chunk_start + 8 <? Z.min (frame_idx s + 10) n in
  let refill :=
    if need_more_features then
      let chunk_start := next_chunk_start + 8 in
      let chunk_end := Z.min (chunk_start + 50) n in
      chunk <- encode_range mel_tensor chunk_start chunk_end ;;
      Ok (audio_features_cache s ++ chunk)
    else Ok (audio_features_cache s) in
  match refill with
  | Raise e => Error e
  | Ok cache =>
      if frame_idx s >=? len cache - 8 then
        let retry_count := retry_count s + 1 in
        if retry_count >=? 10 then Break
        else Next [Sleep 50]
               {| frame_idx := frame_idx s; audio_features_cache := cache;
                  retry_count := retry_count;
                  img_idx := img_idx s; step_stride := step_stride s |}
      else
        let s0 := {| frame_idx := frame_idx s; audio_features_cache := cache;
                     retry_count := 0;
                     img_idx := img_idx s; step_stride := step_stride s |} in
        match render self motion len_img s0 with
        | Raise e => Error e
        | Ok (f, i, st) =>
            Next [Yield f]
              {| frame_idx := frame_idx s + 1; audio_features_cache := cache;
                 retry_count := 0; img_idx := i; step_stride := st |}
        end
  end.

(** The loop, for at most [fuel] passes ([None] when they do not suffice). *)
Fixpoint loop (fuel : nat) (self : service) (motion : bool) (len_img : option Z)
  (mel_tensor : list mel_row) (s : state) : option run :=
  match fuel with
  | O => None
  | S fuel =>
      if frame_idx s <? num_frames (len mel_tensor) then
        match pass self motion len_img mel_tensor s with
        | Break => Some ([], Returned)
        | Error e => Some ([], Raised e)
        | Next evs s' =>
            option_map (prepend evs) (loop fuel self motion len_img mel_tensor s')
        end
      else Some ([], Returned)
  end.

(** The first chunk, the eight copies of its first embedding put in front,
    and the loop. *)
Definition stream (fuel : nat) (self : service) (motion : bool)
  (cursor : option Z * option Z * option Z) (mel_tensor : list mel_row)
  : option run :=
  let '(img_idx0, step_stride0, len_img) := cursor in
  let n := num_frames (len mel_tensor) in
  match encode_range mel_tensor 0 (Z.min 50 n) with
  | Raise e => Some ([], Raised e)
  | Ok cache =>
      let cache := match cache with
                   | [] => cache
                   | first_frame :: _ => repeat first_frame 8 ++ cache
                   end in
      loop fuel self motion len_img mel_tensor
        {| frame_idx := 0; audio_features_cache := cache; retry_count := 0;
           img_idx := img_idx0; step_stride := step_stride0 |}
  end.

(** [try: body / except Exception as e: logging.error(...); raise]. *)
Definition log_and_raise (body : option run) : option run :=
  match body with
  | Some (evs, Raised e) => Some (evs, Raised e)
  | r => r
  end.

(** [await self.generate_static_frame()]. *)
Definition static_frame (self : service) : res frame :=
  _ <- getattr (class_of self) _encode_high_quality_jpeg ;;
  static_jpeg.

(** [yield await self.generate_static_frame()], then the rest. *)
Definition after_static_frame (self : service) (rest : option run) : option run :=
  match static_frame self with
  | Raise e => Some ([], Raised e)
  | Ok f => option_map (prepend [Yield f]) rest
  end.

(** [FrameGenerationService.generate_frames_from_audio]: [mel] is the outcome
    of decoding the audio and of [melspectrogram(...).T].  The loop has the
    head motion statements, but [img_idx] and [step_stride] are never
    assigned before it and [len_img] is defined nowhere. *)
Definition generate_frames_from_audio (fuel : nat) (self : service)
  (mel : res (list mel_row)) : option run :=
  after_static_frame self
    (log_and_raise
       match preprocess with
       | Raise e => Some ([], Raised e)
       | Ok _ =>
           match mel with
           | Raise e => Some ([], Raised e)
           | Ok mel_tensor => stream fuel self true (None, None, None) mel_tensor
           end
       end).

(** [FrameGenerationService.generate_frames]: [synth] tells whether the TTS
    service returned any audio; the frames are made from the template image. *)
Definition generate_frames (fuel : nat) (self : service)
  (synth : res bool) (mel : res (list mel_row)) : option run :=
  after_static_frame self
    (log_and_raise
       match synth with
       | Raise e => Some ([], Raised e)
       | Ok false => Some ([], Returned)
       | Ok true =>
           match preprocess with
           | Raise e => Some ([], Raised e)
           | Ok _ =>
               match mel with
               | Raise e => Some ([], Raised e)
               | Ok mel_tensor =>
                   match getattr (class_of self) _calculate_adjusted_fps with
                   | Raise e => Some ([], Raised e)
                   | Ok _ => stream fuel self false (None, None, None) mel_tensor
                   end
               end
           end
       end).

(** [EnhancedFrameGenerationService.generate_frames_from_audio]: without
    source frames it is the base method, run on the same receiver. *)
Definition enhanced_generate_frames_from_audio (fuel : nat) (self : service)
  (mel : res (list mel_row)) : option run :=
  if no_source_frames self then generate_frames_from_audio fuel self mel
  else
    after_static_frame self
      (log_and_raise
         match mel with
         | Raise e => Some ([], Raised e)
         | Ok mel_tensor => stream fuel self true (None, None, None) mel_tensor
         end).

(** [k] passes in a row that each go on to the next: what they emit and the
    state they reach ([None] if the loop stops earlier). *)
Fixpoint run_passes (k : nat) (self : service) (motion : bool) (len_img : option Z)
  (mel_tensor : list mel_row) (s : state) : option (list (event frame) * state) :=
  match k with
  | O => Some ([], s)
  | S k =>
      if frame_idx s <? num_frames (len mel_tensor) then
        match pass self motion len_img mel_tensor s with
        | Next evs s' =>
            match run_passes k self motion len_img mel_tensor s' with
            | Some (evs', s'') => Some (evs ++ evs', s'')
            | None => None
            end
        | _ => None
        end
      else None
  end.

(** The state in which the loop starts once the first chunk is encoded. *)
Definition initial_state (chunk : list emb) : state :=
  {| frame_idx := 0;
     audio_features_cache := match chunk with
                             | [] => chunk
                             | first_frame :: _ => repeat first_frame 8 ++ chunk
                             end;
     retry_count := 0; img_idx := None; step_stride := None |}.

(** The loop has a frame to make, asks for no more features, and the cache
    does not reach the frame. *)
Definition context_unavailable (mel_tensor : list mel_row) (s : state) : bool :=
  let n := num_frames (len mel_tensor) in
  (frame_idx s <? n) &&
  negb (len (audio_features_cache s) <? Z.min (frame_idx s + 10) n) &&
  (frame_idx s >=? len (audio_features_cache s) - 8).

End Streaming.

Arguments frame_idx {emb} s.
Arguments audio_features_cache {emb} s.
Arguments retry_count {emb} s.
Arguments img_idx {emb} s.
Arguments step_stride {emb} s.
Arguments Build_state {emb} _ _ _ _ _.
Arguments Break {emb frame}.
Arguments Next {emb frame} evs s.
Arguments Error {emb frame} e.
Arguments prepend {frame} evs r.
Arguments encode_range {mel_row emb} audio_encoder mel_tensor lo hi.
Arguments render {emb frame} zero_emb net self motion len_img s.
Arguments pass {mel_row emb frame} zero_emb audio_encoder net self motion len_img mel_tensor s.
Arguments loop {mel_row emb frame} zero_emb audio_encoder net fuel self motion len_img mel_tensor s.
Arguments run_passes {mel_row emb frame} zero_emb audio_encoder net k self motion len_img mel_tensor s.
Arguments initial_state {emb} chunk.
Arguments context_unavailable {mel_row emb} mel_tensor s.
Arguments stream {mel_row emb frame} zero_emb audio_encoder net fuel self motion cursor mel_tensor.
Arguments log_and_raise {frame} body.
Arguments static_frame {frame} static_jpeg self.
Arguments after_static_frame {frame} static_jpeg self rest.
Arguments generate_frames_from_audio {mel_row emb frame}
  zero_emb audio_encoder static_jpeg preprocess net fuel self mel.
Arguments generate_frames {mel_row emb frame}
  zero_emb audio_encoder static_jpeg preprocess net fuel self synth mel.
Arguments enhanced_generate_frames_from_audio {mel_row emb frame}
  zero_emb audio_encoder static_jpeg preprocess net fuel self mel.

End Generator.

(** ** services/generator.py, [EnhancedFrameGenerationService.generate_dynamic_avatar] *)
Module DynamicAvatar.
Section Avatar.

Variable frame : Type.
(** The JPEG of the template image, and the JPEG of the source frame read at
    a position of [self._source_frames]. *)
Variable static_jpeg : res frame.
Variable encode : Z -> res frame.

(** The first [n] passes of [while True]: the frames yielded, and the
    exception that stopped the loop, if any. *)
Fixpoint passes (n : nat) (self : Generator.service) (len_img img_idx step_stride : Z)
  : list (Generator.event frame) * option exn :=
  match n with
  | O => ([], None)
  | S n' =>
      let '(img_idx, step_stride) := HeadMotion.step len_img img_idx step_stride in
      match (src <- Generator.source_frame self img_idx ;;
             _ <- Generator.getattr (Generator.class_of self)
                    Generator._encode_high_quality_jpeg ;;
             encode src) with
      | Raise e => ([], Some e)
      | Ok jpeg =>
          let '(evs, stop) := passes n' self len_img img_idx step_stride in
          (Generator.Yield jpeg :: evs, stop)
      end
  end.

(** The generator observed for [n] passes of its loop: what it yielded, and
    how it ended ([None] while it is still running).  Without source frames it
    yields the static frame and returns; an exception in the loop is answered
    by the static frame, after which the generator returns. *)
Definition generate_dynamic_avatar (n : nat) (self : Generator.service)
  : list (Generator.event frame) * option Generator.ending :=
  match Generator.class_of self with
  | Generator.FrameGenerationService => ([], Some (Generator.Raised AttributeError))
  | Generator.EnhancedFrameGenerationService =>
      if Generator.no_source_frames self then
        match Generator.static_frame static_jpeg self with
        | Ok f => ([Generator.Yield f], Some Generator.Returned)
        | Raise e => ([], Some (Generator.Raised e))
        end
      else
        let step_stride := 0 in
        let img_idx := 0 in
        let len_img :=
          match Generator._source_frames self with Some k => k | None => 0 end - 1 in
        match passes n self len_img img_idx step_stride with
        | (evs, None) => (evs, None)
        | (evs, Some _) =>
            match Generator.static_frame static_jpeg self with
            | Ok f => (evs ++ [Generator.Yield f], Some Generator.Returned)
            | Raise e => (evs, Some (Generator.Raised e))
            end
        end
  end.

End Avatar.

Arguments passes {frame} encode n self len_img img_idx step_stride.
Arguments generate_dynamic_avatar {frame} static_jpeg encode n self.

End DynamicAvatar.

(** ** audio_pipeline/audio_encoder.py, [AudioEncoderWrapper];
    audio_pipeline/pipeline.py, [AudioPipeline.get_frame_features];
    frame_generation_pipeline/frame_generator.py,
    [FrameGenerator._get_audio_features_for_frame] *)
Module AudioEncoderWrapper.

(** [self.mode]: one of the three known strings, or any other string. *)
Inductive mode : Type := ave | hubert | wenet | other.

(** [range(start, stop, step)]. *)
Definition range_step (start stop step : Z) : res (list Z) :=
  if step =? 0 then Raise ValueError
  else
    let count :=
      if step >? 0 then Z.max 0 ((stop - start + step - 1) / step)
      else Z.max 0 ((start - stop - step - 1) / (- step)) in
    Ok (map (fun k => start + Z.of_nat k * step) (seq 0 (Z.to_nat count))).

(** [np.concatenate(arrays, axis=0)]: an empty list of arrays is refused. *)
Definition np_concatenate {X} (arrays : list (list X)) : res (list X) :=
  match arrays with
  | [] => Raise ValueError
  | _ => Ok (concat arrays)
  end.

(** The first [k] pieces of [size] entries of a flat array. *)
Fixpoint chunks {X} (k size : nat) (l : list X) : list (list X) :=
  match k with
  | O => []
  | S k' => firstn size l :: chunks k' size (skipn size l)
  end.

(** [flat.reshape(d0, d1, d2)]; [err] is what a wrong size raises
    ([ValueError] in NumPy, [RuntimeError] in PyTorch). *)
Definition reshape3 {X} (err : exn) (d0 d1 d2 : nat) (flat : list X)
  : res (list (list (list X))) :=
  if (length flat =? d0 * d1 * d2)%nat
  then Ok (map (chunks d1 d2) (chunks d0 (d1 * d2) flat))
  else Raise err.

Section Wrapper.

(** A float, and zero. *)
Variable A : Type.
Variable zero : A.
(** One mel window, and [self.model] on a batch of windows. *)
Variable window : Type.
Variable model : list window -> res (list (list A)).

(** [process_mel_windows(mel_windows, batch_size)]. *)
Definition process_mel_windows (mel_windows : list window) (batch_size : Z)
  : res (list (list A)) :=
  let n_frames := len mel_windows in
  starts <- range_step 0 n_frames batch_size ;;
  all_features <-
    Generator.mapM (fun i => model (slice mel_windows i (i + batch_size))) starts ;;
  np_concatenate all_features.

(** [add_temporal_padding(features)]. *)
Definition add_temporal_padding (features : list (list A)) : list (list A) :=
  let first_frame := slice features 0 1 in
  let last_frame := slice features (-1) (len features) in
  first_frame ++ features ++ last_frame.

(** [padded = np.zeros(target_size); padded[:flat.shape[0]] = flat], for a
    positive [target_size]. *)
Definition zero_padded (target_size : nat) (flat : list A) : res (list A) :=
  let padded := repeat zero target_size in
  if (length flat <=? target_size)%nat
  then Ok (flat ++ skipn (length flat) padded)
  else Raise ValueError.

(** [reshape_for_model(features)]. *)
Definition reshape_for_model (m : mode) (features : list (list A))
  : res (list (list (list A))) :=
  let flat := concat features in
  match m with
  | ave => reshape3 ValueError 32 16 16 flat
  | hubert =>
      padded <- zero_padded (32 * 32 * 32) flat ;;
      reshape3 ValueError 32 32 32 padded
  | wenet =>
      padded <- zero_padded (256 * 16 * 32) flat ;;
      reshape3 ValueError 256 16 32 padded
  | other => Raise ValueError
  end.

(** [AudioPipeline.get_frame_features(audio_features, frame_idx, reshape)];
    [width] is [audio_features.shape[1]].  The result is the window, or the
    reshaped window. *)
Definition get_frame_features (m : mode) (width : nat)
  (audio_features : list (list A)) (frame_idx : Z) (reshape : bool)
  : res (list (list A) + list (list (list A))) :=
  let features :=
    Features.get_audio_features_for_frame (repeat zero width) audio_features frame_idx 8 in
  if reshape then
    r <- reshape_for_model m features ;;
    Ok (inr r)
  else Ok (inl features).

(** [FrameGenerator._get_audio_features_for_frame(audio_features, frame_idx)]:
    the statements of [utils.get_audio_features], then the reshape of the
    mode and a leading batch dimension. *)
Definition _get_audio_features_for_frame (m : mode) (width : nat)
  (audio_features : list (list A)) (frame_idx : Z)
  : res (list (list (list (list A)))) :=
  let auds :=
    Features.get_audio_features (repeat zero width) audio_features frame_idx in
  audio_feat <-
    match m with
    | hubert => reshape3 RuntimeError 32 32 32 (concat auds)
    | wenet => reshape3 RuntimeError 256 16 32 (concat auds)
    | ave => reshape3 RuntimeError 32 16 16 (concat auds)
    | other => Raise ValueError
    end ;;
  Ok [audio_feat].

End Wrapper.

Arguments process_mel_windows {A window} model mel_windows batch_size.
Arguments add_temporal_padding {A} features.
Arguments zero_padded {A} zero target_size flat.
Arguments reshape_for_model {A} zero m features.
Arguments get_frame_features {A} zero m width audio_features frame_idx reshape.
Arguments _get_audio_features_for_frame {A} zero m width audio_features frame_idx.

End AudioEncoderWrapper.

(** ** utils.py, [AudDataset.__len__] and [AudDataset.__getitem__] *)
Module AudDatasetItems.

(** What [__getitem__] does: it returns a tensor, lets an error of the
    cropping through, or raises [Exception('mel.shape[0] != 16')]. *)
Inductive outcome (T : Type) : Type :=
| Item (mel : T)
| Failed (e : exn)
| Exception_mel_shape.
Arguments Item {T} mel.
Arguments Failed {T} e.
Arguments Exception_mel_shape {T}.

(** [__len__]: [self.data_len]. *)
Definition __len__ {A} (orig_mel : list (list A)) : res Z :=
  AudDataset.data_len (len orig_mel).

(** [__getitem__(idx)]: the window of 16 mel frames, transposed, with a
    leading dimension of size 1. *)
Definition __getitem__ {A} (orig_mel : list (list A)) (idx : Z)
  : outcome (list (list (list A))) :=
  match AudDataset.crop_audio_window orig_mel idx with
  | Raise e => Failed e
  | Ok mel =>
      if negb (len mel =? 16) then Exception_mel_shape
      else Item [Array2.transpose (Z.to_nat (Array2.ncols mel)) mel]
  end.

End AudDatasetItems.

(** ** audio_pipeline/pipeline.py, [AudioPipeline.process_audio_file] *)
Module AudioPipeline.
Section Pipeline.

Variable A : Type.
(** [self.audio_encoder.model] on a batch of mel windows. *)
Variable model : list (list (list A)) -> res (list (list A)).

(** [a.min()] and [a.max()] of the metadata: an array without values is
    refused. *)
Definition value_range {X} (a : list (list X)) : res unit :=
  match concat a with
  | [] => Raise ValueError
  | _ => Ok tt
  end.

(** [process_audio_file], from the mel spectrogram that [process_file]
    returned to the padded features; of the metadata only the value ranges
    can fail. *)
Definition process_audio_file (mel_spec : list (list A)) (fps : Z)
  : res (list (list A)) :=
  n_frames <- MelSpectrogramProcessor.get_frame_count (Array2.ncols mel_spec) fps ;;
  mel_windows <-
    Generator.mapM (fun i => MelSpectrogramProcessor.crop_audio_window mel_spec i fps)
      (Generator.range 0 n_frames) ;;
  audio_features <- AudioEncoderWrapper.process_mel_windows model mel_windows 64 ;;
  let audio_features_padded := AudioEncoderWrapper.add_temporal_padding audio_features in
  _ <- value_range mel_spec ;;
  _ <- value_range audio_features_padded ;;
  Ok audio_features_padded.

End Pipeline.

Arguments process_audio_file {A} model mel_spec fps.

End AudioPipeline.

(** ** frame_generation_pipeline/image_processor.py: the face crop and the
    parsing mask *)
Module FaceRegion.

(** Arithmetic on [np.int32] scalars wraps around. *)
Definition wrap32 (z : Z) : Z := (z + 2 ^ 31) mod 2 ^ 32 - 2 ^ 31.

(** [landmarks[i][j]] on the array of [np.int32] that [load_landmarks]
    returns. *)
Definition landmark (landmarks : list (list Z)) (i j : nat) : res Z :=
  match nth_error landmarks i with
  | Some point =>
      match nth_error point j with
      | Some v => Ok v
      | None => Raise IndexError
      end
  | None => Raise IndexError
  end.

(** [get_crop_region(landmarks)]. *)
Definition get_crop_region (landmarks : list (list Z)) : res (Z * Z * Z * Z) :=
  xmin <- landmark landmarks 1 0 ;;
  ymin <- landmark landmarks 52 1 ;;
  xmax <- landmark landmarks 31 0 ;;
  let width := wrap32 (xmax - xmin) in
  let ymax := wrap32 (ymin + width) in
  Ok (xmin, ymin, xmax, ymax).

(** [a[y0:y1, x0:x1]]. *)
Definition crop {X} (a : list (list X)) (y0 y1 x0 x1 : Z) : list (list X) :=
  map (fun row => slice row x0 x1) (slice a y0 y1).

(** [a.shape[:2]]; the width of an array without rows is not kept by a list
    of rows and reads as 0. *)
Definition shape {X} (a : list (list X)) : Z * Z := (len a, Array2.ncols a).

(** [a[y0:y1, x0:x1].shape[:2]], from the shape of [a]: a crop without rows
    keeps the width of its slice of the columns.  The images are those that
    [cv2.imread] returns, which have at least one row. *)
Definition cropped_shape {X} (a : list (list X)) (y0 y1 x0 x1 : Z) : Z * Z :=
  let '(H, W) := shape a in
  (Z.max 0 (slice_bound H y1 - slice_bound H y0),
   Z.max 0 (slice_bound W x1 - slice_bound W x0)).

(** A boolean index of shape [m] on the first two axes of an array of shape
    [a]: NumPy compares the two lengths axis by axis and raises [IndexError]
    where they differ, but an axis of the mask of length 0 is not compared. *)
Definition mask_fits (m a : Z * Z) : bool :=
  ((fst m =? 0) || (fst m =? fst a)) && ((snd m =? 0) || (snd m =? snd a)).

(** One row of [resized[mask] = original[mask]]. *)
Fixpoint masked_row {X} (mask : list bool) (resized original : list X) : list X :=
  match mask, resized, original with
  | keep :: mask', p :: resized', q :: original' =>
      (if keep then q else p) :: masked_row mask' resized' original'
  | _, _, _ => resized
  end.

Fixpoint masked_rows {X} (mask : list (list bool)) (resized original : list (list X))
  : list (list X) :=
  match mask, resized, original with
  | m :: mask', r :: resized', o :: original' =>
      masked_row m r o :: masked_rows mask' resized' original'
  | _, _, _ => resized
  end.

(** [resized[mask] = original[mask]] for a boolean [mask] of shape
    [mask_shape], [original] having the shape [original_shape]: either
    indexing raises [IndexError] when the mask does not fit the array.  A mask
    that fits and has an axis of length 0 selects nothing. *)
Definition assign_masked {X} (resized original : list (list X))
  (mask : list (list bool)) (mask_shape original_shape : Z * Z)
  : res (list (list X)) :=
  if negb (mask_fits mask_shape original_shape) then Raise IndexError
  else if negb (mask_fits mask_shape (shape resized)) then Raise IndexError
  else Ok (masked_rows mask resized original).

Section Crop.

Variable pixel : Type.
Variable black : pixel.
Variable cv2_resize : Image.image pixel -> Z -> Z -> res (Image.image pixel).
(** [(p == [0, 0, 255]).all() | (p == [255, 255, 255]).all()] on a pixel [p]
    of the parsing image. *)
Variable kept : pixel -> bool.

(** [crop_face_region(image, landmarks)]. *)
Definition crop_face_region (image : Image.image pixel) (landmarks : list (list Z))
  : res (Image.image pixel * (Z * Z * Z * Z)) :=
  coords <- get_crop_region landmarks ;;
  let '(xmin, ymin, xmax, ymax) := coords in
  let crop_img := crop image ymin ymax xmin xmax in
  Ok (crop_img, (xmin, ymin, xmax, ymax)).

(** [process_frame_with_parsing(full_frame, generated_region, crop_coords,
    original_crop_size, parsing_image)]. *)
Definition process_frame_with_parsing
  (full_frame generated_region : Image.image pixel)
  (crop_coords : Z * Z * Z * Z) (original_crop_size : Z * Z)
  (parsing_image : option (Image.image pixel))
  : res (Image.image pixel) :=
  let '(xmin, ymin, xmax, ymax) := crop_coords in
  let '(h, w) := original_crop_size in
  let canvas := repeat (repeat black 328) 328 in
  canvas <- Image.set_region canvas 4 324 4 324 generated_region ;;
  resized <- cv2_resize canvas w h ;;
  resized <-
    match parsing_image with
    | Some parsing_image =>
        let crop_parsing := crop parsing_image ymin ymax xmin xmax in
        let parsing_mask := map (map kept) crop_parsing in
        let original_crop := crop full_frame ymin ymax xmin xmax in
        assign_masked resized original_crop parsing_mask
          (cropped_shape parsing_image ymin ymax xmin xmax)
          (cropped_shape full_frame ymin ymax xmin xmax)
    | None => Ok resized
    end ;;
  let output_frame := full_frame in
  Image.set_region output_frame ymin ymax xmin xmax resized.

End Crop.

Arguments crop_face_region {pixel} image landmarks.
Arguments process_frame_with_parsing {pixel} black cv2_resize kept
  full_frame generated_region crop_coords original_crop_size parsing_image.

End FaceRegion.

(** ** frame_generation_pipeline/frame_generator.py, [FrameGenerator] *)
Module FrameGenerator.
Section Frames.

Variable pixel : Type.
Variable black : pixel.
Variable cv2_resize : Image.image pixel -> Z -> Z -> res (Image.image pixel).
Variable kept : pixel -> bool.
(** A float of the audio features, and zero. *)
Variable A : Type.
Variable zero : A.
(** [prepare_input_tensors(inner_crop)], then
    [self.unet_model.predict(concat_tensor, audio_features)]. *)
Variable unet :
  Image.image pixel -> list (list (list (list A))) -> res (Image.image pixel).
(** [self.mode], and [audio_features.shape[1]]. *)
Variable mode : AudioEncoderWrapper.mode.
Variable width : nat.
(** [load_image] and [load_landmarks] on the files of a number, and the
    parsing image of that number ([None] without [parsing_dir], or when the
    file is not there). *)
Variable load_image : Z -> res (Image.image pixel).
Variable load_landmarks : Z -> res (list (list Z)).
Variable load_parsing : Z -> option (Image.image pixel).

(** [generate_frame(template_image, landmarks, audio_features,
    parsing_image)]. *)
Definition generate_frame (template_image : Image.image pixel)
  (landmarks : list (list Z)) (audio_features : list (list (list (list A))))
  (parsing_image : option (Image.image pixel)) : res (Image.image pixel) :=
  cropped <- FaceRegion.crop_face_region template_image landmarks ;;
  let '(crop_img, crop_coords) := cropped in
  let '(h, w) := FaceRegion.shape crop_img in
  let original_crop_size := (h, w) in
  crop_328 <- cv2_resize crop_img 328 328 ;;
  let inner_crop := FaceRegion.crop crop_328 4 324 4 324 in
  generated_region <- unet inner_crop audio_features ;;
  match parsing_image with
  | Some _ =>
      FaceRegion.process_frame_with_parsing black cv2_resize kept
        template_image generated_region crop_coords original_crop_size parsing_image
  | None =>
      ImageProcessor.paste_generated_region black cv2_resize
        template_image generated_region crop_coords original_crop_size
  end.

(** The body of the loop of [generate_frames_from_template_sequence], after
    the ping-pong step: frame [i] from the template files of [number]. *)
Definition template_frame (audio_features : list (list A)) (number i : Z)
  : res (Image.image pixel) :=
  template_img <- load_image number ;;
  landmarks <- load_landmarks number ;;
  let parsing_img := load_parsing number in
  audio_feat <-
    AudioEncoderWrapper._get_audio_features_for_frame zero mode width audio_features i ;;
  generate_frame template_img landmarks audio_feat parsing_img.

Fixpoint frames_loop (len_img start_frame : Z) (audio_features : list (list A))
  (frames : list Z) (img_idx step_stride : Z) : res (list (Image.image pixel)) :=
  match frames with
  | [] => Ok []
  | i :: rest =>
      let '(img_idx, step_stride) := HeadMotion.step len_img img_idx step_stride in
      frame <- template_frame audio_features (img_idx + start_frame) i ;;
      generated_frames <-
        frames_loop len_img start_frame audio_features rest img_idx step_stride ;;
      Ok (frame :: generated_frames)
  end.

(** [generate_frames_from_template_sequence(img_dir, lms_dir, audio_features,
    start_frame, parsing_dir)], for a directory with [n_jpg] files that end in
    .jpg. *)
Definition generate_frames_from_template_sequence (n_jpg : Z)
  (audio_features : list (list A)) (start_frame : Z)
  : res (list (Image.image pixel)) :=
  let num_frames := len audio_features in
  let len_img := n_jpg - 1 in
  let step_stride := 0 in
  let img_idx := 0 in
  frames_loop len_img start_frame audio_features (Generator.range 0 num_frames)
    img_idx step_stride.

End Frames.

Arguments generate_frame {pixel} black cv2_resize kept {A} unet
  template_image landmarks audio_features parsing_image.
Arguments template_frame {pixel} black cv2_resize kept {A} zero unet mode width
  load_image load_landmarks load_parsing audio_features number i.
Arguments frames_loop {pixel} black cv2_resize kept {A} zero unet mode width
  load_image load_landmarks load_parsing len_img start_frame audio_features frames
  img_idx step_stride.
Arguments generate_frames_from_template_sequence {pixel} black cv2_resize kept {A} zero
  unet mode width load_image load_landmarks load_parsing n_jpg audio_features start_frame.

End FrameGenerator.

(* ================================================================== *)
(** * Properties *)

(** ** Slicing *)
Section SliceFacts.
Context {A : Type}.

Lemma slice_in_range (l : list A) lo hi :
  0 <= lo <= hi -> hi <= len l ->
  slice l lo hi = firstn (Z.to_nat (hi - lo)) (skipn (Z.to_nat lo) l).
Proof.
  intros H1 H2. unfold slice, slice_bound.
  destruct (Z.ltb_spec lo 0); [lia|]. destruct (Z.ltb_spec hi 0); [lia|].
  rewrite !Z.min_l by lia. reflexivity.
Qed.

Lemma slice_length (l : list A) lo hi :
  0 <= lo <= hi -> hi <= len l -> length (slice l lo hi) = Z.to_nat (hi - lo).
Proof.
  intros H1 H2. rewrite slice_in_range by assumption.
  rewrite length_firstn, length_skipn. unfold len in H2. lia.
Qed.

End SliceFacts.

(** ** Magnitude of the binary64 operations *)
Section FloatMagnitude.
Import Py.

(** [SpecFloat] is stated over the core library's integer operations; they
    are convertible with the ones [lia] knows. *)
Ltac std_ops :=
  change IntDef.Z.max with Z.max in *;
  change IntDef.Z.min with Z.min in *;
  change IntDef.Z.add with Z.add in *;
  change IntDef.Z.sub with Z.sub in *;
  change IntDef.Z.mul with Z.mul in *;
  change IntDef.Z.opp with Z.opp in *.

Lemma digits2_size p : digits2_pos p = Pos.size p.
Proof. induction p; simpl; congruence. Qed.

Lemma Zdigits2_log2 m : 0 < m -> Zdigits2 m = Z.log2 m + 1.
Proof.
  destruct m as [|p|p]; try lia. intros _. simpl. rewrite digits2_size.
  destruct p; simpl; lia.
Qed.

Lemma Zdigits2_nonneg m : 0 <= Zdigits2 m.
Proof. destruct m; simpl; lia. Qed.


Lemma Zdigits2_lt_pow2 m : 0 <= m -> m < 2 ^ Zdigits2 m.
Proof.
  intros H. assert (m = 0 \/ 0 < m) as [->|Hm] by lia; [reflexivity|].
  rewrite Zdigits2_log2 by assumption.
  pose proof (Z.log2_spec m Hm). lia.
Qed.

Lemma Zdigits2_ge_pow2 m : 0 < m -> 2 ^ (Zdigits2 m - 1) <= m.
Proof.
  intros Hm. rewrite Zdigits2_log2 by assumption.
  replace (Z.log2 m + 1 - 1) with (Z.log2 m) by lia.
  apply (Z.log2_spec m Hm).
Qed.

Lemma Zdigits2_le m k : 0 <= m -> 0 <= k -> m < 2 ^ k -> Zdigits2 m <= k.
Proof.
  intros H Hk Hlt. assert (m = 0 \/ 0 < m) as [->|Hm] by lia; [simpl; lia|].
  rewrite Zdigits2_log2 by assumption.
  apply Z.log2_lt_pow2 in Hlt; lia.
Qed.

Lemma Zdigits2_mono a b : 0 <= a <= b -> Zdigits2 a <= Zdigits2 b.
Proof.
  intros [Ha Hab]. apply Zdigits2_le; [assumption|apply Zdigits2_nonneg|].
  pose proof (Zdigits2_lt_pow2 b). lia.
Qed.

Lemma Zdigits2_succ m : 0 <= m -> Zdigits2 (m + 1) <= Zdigits2 m + 1.
Proof.
  intros H. apply Zdigits2_le; [lia|pose proof (Zdigits2_nonneg m); lia|].
  pose proof (Zdigits2_lt_pow2 m H). pose proof (Zdigits2_nonneg m).
  rewrite Z.pow_add_r by lia. lia.
Qed.

Lemma Zdigits2_mul a b : 0 <= a -> 0 <= b -> Zdigits2 (a * b) <= Zdigits2 a + Zdigits2 b.
Proof.
  intros Ha Hb. pose proof (Zdigits2_nonneg a). pose proof (Zdigits2_nonneg b).
  apply Zdigits2_le; [nia|lia|].
  rewrite Z.pow_add_r by lia.
  pose proof (Zdigits2_lt_pow2 a Ha). pose proof (Zdigits2_lt_pow2 b Hb). nia.
Qed.

Lemma Zdigits2_shiftl a s : 0 < a -> 0 <= s -> Zdigits2 (a * 2 ^ s) = Zdigits2 a + s.
Proof.
  intros Ha Hs. assert (0 < 2 ^ s) by (apply Z.pow_pos_nonneg; lia).
  rewrite !Zdigits2_log2 by nia. rewrite Z.log2_mul_pow2 by lia. lia.
Qed.

(** one right shift of the rounding record *)
Lemma shr_1_m mrs : 0 <= shr_m mrs ->
  0 <= shr_m (shr_1 mrs) /\ Zdigits2 (shr_m (shr_1 mrs)) = Z.max 0 (Zdigits2 (shr_m mrs) - 1).
Proof.
  destruct mrs as [m r s]. simpl. intros H.
  destruct m as [|p|p]; try lia; [simpl; lia|].
  destruct p; cbn [shr_m shr_1 Zdigits2 digits2_pos];
    rewrite ?Pos2Z.inj_succ; lia.
Qed.

Lemma iter_shr_1_m p : forall mrs, 0 <= shr_m mrs ->
  0 <= shr_m (iter_pos shr_1 p mrs) /\
  Zdigits2 (shr_m (iter_pos shr_1 p mrs)) = Z.max 0 (Zdigits2 (shr_m mrs) - Zpos p).
Proof.
  induction p as [p IH|p IH|]; intros mrs H; simpl.
  - destruct (shr_1_m mrs H) as [H1 E1].
    destruct (IH _ H1) as [H2 E2]. destruct (IH _ H2) as [H3 E3].
    split; [assumption|]. rewrite E3, E2, E1. lia.
  - destruct (IH _ H) as [H2 E2]. destruct (IH _ H2) as [H3 E3].
    split; [assumption|]. rewrite E3, E2. lia.
  - apply shr_1_m; assumption.
Qed.

Lemma shr_record_of_loc_m m l : shr_m (shr_record_of_loc m l) = m.
Proof. destruct l as [|[]]; reflexivity. Qed.

Lemma shr_fexp_m m e l : 0 <= m ->
  let '(mrs, e') := shr_fexp prec emax m e l in
  0 <= shr_m mrs /\
  e' = Z.max e (fexp prec emax (Zdigits2 m + e)) /\
  Zdigits2 (shr_m mrs) = Z.max 0 (Zdigits2 m - (e' - e)).
Proof.
  intros H. unfold shr_fexp, shr. std_ops.
  pose proof (Zdigits2_nonneg m) as Hd.
  destruct (fexp prec emax (Zdigits2 m + e) - e) as [|p|p] eqn:E.
  - rewrite shr_record_of_loc_m. lia.
  - destruct (iter_shr_1_m p (shr_record_of_loc m l)) as [H1 E1];
      [rewrite shr_record_of_loc_m; assumption|].
    rewrite shr_record_of_loc_m in E1. split; [assumption|]. split; [lia|].
    rewrite E1. lia.
  - rewrite shr_record_of_loc_m. lia.
Qed.

Lemma round_nearest_even_bounds m l : m <= round_nearest_even m l <= m + 1.
Proof. destruct l as [|[]]; simpl; try lia. destruct (Z.even m); lia. Qed.

(** [x] is a zero, or a finite double of sign [s] whose magnitude is below [2^B]. *)
Definition fin_below (s : bool) (B : Z) (x : spec_float) : Prop :=
  match x with
  | S754_zero _ => True
  | S754_finite s' m e => s' = s /\ e <= 971 /\ Zpos (digits2_pos m) + e <= B
  | _ => False
  end.


Lemma binary_round_aux_fin sx mx ex lx B :
  0 <= mx -> ex <= 971 -> -1074 <= B <= 1023 -> Zdigits2 mx + ex <= B ->
  fin_below sx (B + 1) (binary_round_aux prec emax sx mx ex lx).
Proof.
  intros Hm He HB Hmag. unfold binary_round_aux.
  pose proof (shr_fexp_m mx ex lx Hm) as S1.
  destruct (shr_fexp prec emax mx ex lx) as [mrs' e'].
  destruct S1 as (H1 & E1 & D1).
  set (m2 := round_nearest_even (shr_m mrs') (loc_of_shr_record mrs')).
  pose proof (round_nearest_even_bounds (shr_m mrs') (loc_of_shr_record mrs')) as R.
  fold m2 in R.
  assert (0 <= m2) as Hm2 by lia.
  assert (Zdigits2 m2 <= Zdigits2 (shr_m mrs') + 1) as D2.
  { transitivity (Zdigits2 (shr_m mrs' + 1)).
    - apply Zdigits2_mono; lia.
    - apply Zdigits2_succ; assumption. }
  pose proof (shr_fexp_m m2 e' loc_Exact Hm2) as S2.
  destruct (shr_fexp prec emax m2 e' loc_Exact) as [mrs'' e''].
  destruct S2 as (H3 & E3 & D3).
  pose proof (Zdigits2_nonneg mx). pose proof (Zdigits2_nonneg m2).
  pose proof (Zdigits2_nonneg (shr_m mrs')).
  unfold fexp, emin, prec, emax in *. std_ops.
  destruct (shr_m mrs'') as [|m|m] eqn:Em; simpl; [exact I| |lia].
  assert (e'' <= 971) as Hfin by lia.
  change (IntDef.Z.leb e'' 971) with (e'' <=? 971).
  destruct (Z.leb_spec e'' 971); [|lia].
  cbn [fin_below]. cbn [Zdigits2] in D3. repeat split; lia.
Qed.


Lemma binary_round_aux_sign sx mx ex lx :
  0 <= mx ->
  match binary_round_aux prec emax sx mx ex lx with
  | S754_zero s | S754_infinity s | S754_finite s _ _ => s = sx
  | S754_nan => False
  end.
Proof.
  intros Hm. unfold binary_round_aux.
  pose proof (shr_fexp_m mx ex lx Hm) as S1.
  destruct (shr_fexp prec emax mx ex lx) as [mrs' e'].
  destruct S1 as (H1 & _ & _).
  pose proof (round_nearest_even_bounds (shr_m mrs') (loc_of_shr_record mrs')) as R.
  match goal with |- context [shr_fexp _ _ ?m _ _] =>
    assert (0 <= m) as Hm2 by lia; pose proof (shr_fexp_m m e' loc_Exact Hm2) as S2;
    destruct (shr_fexp prec emax m e' loc_Exact) as [mrs'' e'']
  end.
  destruct S2 as (H3 & _ & _).
  destruct (shr_m mrs'') as [|m|m]; [reflexivity| |lia].
  destruct (IntDef.Z.leb e'' (IntDef.Z.sub emax prec)); reflexivity.
Qed.

Lemma iter_xO_pow2 p d : Zpos (Pos.iter xO p d) = Zpos p * 2 ^ Zpos d.
Proof.
  change (Pos.iter xO p d) with (shift_pos d p).
  rewrite shift_pos_correct. change (Z.pow_pos 2 d) with (2 ^ Zpos d). lia.
Qed.

Lemma shl_align_mag p e e' :
  let '(mz, ez) := shl_align p e e' in
  ez <= e /\ Zdigits2 (Zpos mz) + ez = Zdigits2 (Zpos p) + e.
Proof.
  unfold shl_align. std_ops. destruct (e' - e) as [|d|d] eqn:E; try (split; lia).
  split; [lia|].
  rewrite iter_xO_pow2, Zdigits2_shiftl by lia. lia.
Qed.

Lemma float_of_int_fin k B :
  0 <= k -> Zdigits2 k <= B -> 0 <= B <= 1023 ->
  exists x, float_of_int k = Ok x /\ fin_below false (B + 1) x.
Proof.
  intros Hk Hd HB. unfold float_of_int, binary_normalize.
  destruct k as [|p|p]; [eexists; split; [reflexivity|exact I]| |lia].
  unfold binary_round.
  pose proof (shl_align_mag p 0 (fexp prec emax (Zpos (digits2_pos p) + 0))) as A.
  std_ops.
  destruct (shl_align p 0 (fexp prec emax (Zpos (digits2_pos p) + 0))) as [mz ez].
  destruct A as [A1 A2].
  pose proof (binary_round_aux_fin false (Zpos mz) ez loc_Exact B) as F.
  destruct (binary_round_aux prec emax false (Zpos mz) ez loc_Exact) as [s|s| |s m e];
    try (exfalso; apply F; lia).
  - eexists; split; [reflexivity|exact I].
  - eexists; split; [reflexivity|]. apply F; lia.
Qed.

(** Division by a positive finite double of magnitude [2^M2]. *)
Lemma fdiv_fin x my ey B M2 :
  fin_below false B x ->
  Zpos (digits2_pos my) + ey = M2 ->
  -1074 <= B - M2 + 1 <= 1023 ->
  exists q, fdiv x (S754_finite false my ey) = Ok q /\ fin_below false (B - M2 + 2) q.
Proof.
  intros Hx HM HB. unfold fdiv. cbn [is_zero].
  destruct x as [s|s| |s mx ex]; try contradiction.
  - eexists; split; [reflexivity|exact I].
  - destruct Hx as (-> & Hex & Hmag).
    eexists; split; [reflexivity|].
    cbn [SFdiv xorb]. unfold SFdiv_core_binary.
    set (d1 := Zdigits2 (Zpos mx)). set (d2 := Zdigits2 (Zpos my)).
    assert (d1 = Zpos (digits2_pos mx)) as Ed1 by reflexivity.
    assert (d2 = Zpos (digits2_pos my)) as Ed2 by reflexivity.
    std_ops.
    set (e' := Z.min (fexp prec emax (d1 + ex - (d2 + ey))) (ex - ey)).
    set (s := ex - ey - e').
    assert (0 <= s) as Hs by (unfold s, e'; lia).
    set (m' := match s with Zpos _ => Z.shiftl (Zpos mx) s | 0 => Zpos mx | Zneg _ => 0 end).
    assert (m' = Zpos mx * 2 ^ s) as Em'.
    { unfold m'. destruct s as [|ps|ps]; [simpl; lia| |lia].
      apply Z.shiftl_mul_pow2; lia. }
    clearbody m'.
    pose proof (Z_div_mod m' (Zpos my) ltac:(lia)) as DM.
    change IntDef.Z.div_eucl with Z.div_eucl.
    destruct (Z.div_eucl m' (Zpos my)) as [q r]. destruct DM as [Eq Hr].
    assert (0 < 2 ^ s) as Hp by (apply Z.pow_pos_nonneg; lia).
    assert (0 <= q) as Hq by nia.
    assert (Zdigits2 q <= Z.max 0 (d1 + s - d2 + 1)) as Dq.
    { pose proof (Zdigits2_ge_pow2 (Zpos my) ltac:(lia)) as L2. fold d2 in L2.
      pose proof (Zdigits2_lt_pow2 (Zpos mx) ltac:(lia)) as L1. fold d1 in L1.
      assert (q * 2 ^ (d2 - 1) < 2 ^ (d1 + s)) as Hlt.
      { rewrite Z.pow_add_r by lia. nia. }
      assert (0 < 2 ^ (d2 - 1)) by (apply Z.pow_pos_nonneg; lia).
      destruct (Z_le_gt_dec 0 (d1 + s - d2 + 1)) as [Hge|Hlt'].
      - apply Zdigits2_le; [assumption|lia|].
        replace (d1 + s) with ((d1 + s - d2 + 1) + (d2 - 1)) in Hlt by lia.
        rewrite Z.pow_add_r in Hlt by lia.
        rewrite Z.max_r by lia. nia.
      - assert (2 ^ (d1 + s) <= 2 ^ (d2 - 1)) by (apply Z.pow_le_mono_r; lia).
        assert (q = 0) as -> by nia. simpl. lia. }
    pose proof (binary_round_aux_fin false q e' (new_location (Zpos my) r) (B - M2 + 1) Hq) as F.
    replace (B - M2 + 2) with (B - M2 + 1 + 1) by lia.
    apply F; try lia.
    + unfold e', fexp, emin, prec, emax. std_ops. lia.
    + unfold e', s, fexp, emin, prec, emax in *. std_ops. lia.
Qed.

Definition exp_nonpos (x : spec_float) : Prop :=
  match x with S754_finite _ _ e => e <= 0 | _ => True end.

Lemma fmul_fin x y Bx By :
  fin_below false Bx x -> fin_below false By y ->
  exp_nonpos x \/ exp_nonpos y ->
  -1074 <= Bx + By <= 1023 ->
  fin_below false (Bx + By + 1) (fmul x y).
Proof.
  intros Hx Hy Hey HB. unfold fmul.
  destruct x as [sx|sx| |sx mx ex]; try contradiction;
  destruct y as [sy|sy| |sy my ey]; try contradiction; try exact I.
  destruct Hx as (-> & Hex & Hmx). destruct Hy as (-> & Hey' & Hmy).
  cbn [exp_nonpos] in Hey.
  cbn [SFmul xorb]. std_ops.
  apply binary_round_aux_fin; try lia.
  pose proof (Zdigits2_mul (Zpos mx) (Zpos my) ltac:(lia) ltac:(lia)) as M.
  change (Zpos (PosDef.Pos.mul mx my)) with (Zpos mx * Zpos my).
  change (Zpos (digits2_pos mx)) with (Zdigits2 (Zpos mx)) in Hmx.
  change (Zpos (digits2_pos my)) with (Zdigits2 (Zpos my)) in Hmy.
  lia.
Qed.

Lemma int_of_float_fin x B :
  fin_below false B x -> exists z, int_of_float x = Ok z /\ 0 <= z.
Proof.
  destruct x as [s|s| |s m e]; try contradiction; intros H.
  - exists 0. split; [reflexivity|lia].
  - destruct H as (-> & _ & _). eexists; split; [reflexivity|].
    destruct e; [apply Z.shiftl_nonneg|apply Z.shiftl_nonneg|apply Z.shiftr_nonneg]; lia.
Qed.



End FloatMagnitude.

(** [int(80.0 * (frame_idx / float(25)))] is defined and non-negative for
    every non-negative frame index a double can hold. *)
Lemma start_index_nonneg k :
  0 <= k < 2 ^ 1000 ->
  exists s, MelSpectrogramProcessor.start_index k 25 = Ok s /\ 0 <= s.
Proof.
  intros [Hk Hlt]. unfold MelSpectrogramProcessor.start_index.
  change (float_of_int 25) with (Ok (S754_finite false 7036874417766400 (-48))).
  cbn [bind].
  destruct (float_of_int_fin k 1000 Hk) as (x & -> & Hx);
    [apply Zdigits2_le; lia|lia|].
  cbn [bind].
  destruct (fdiv_fin x 7036874417766400 (-48) 1001 5 Hx) as (q & -> & Hq);
    [reflexivity|lia|].
  cbn [bind].
  apply (int_of_float_fin _ (7 + (1001 - 5 + 2) + 1)).
  apply fmul_fin.
  - unfold f80. cbn. repeat split; lia.
  - assumption.
  - left. unfold f80. cbn. lia.
  - lia.
Qed.


(** ** The audio feature windower *)

Lemma AudDataset_crop_unfold {row} (spec : list row) k :
  AudDataset.crop_audio_window spec k =
  (start_idx <- MelSpectrogramProcessor.start_index k 25 ;;
   let s := if start_idx + 16 >? len spec then len spec - 16 else start_idx in
   Ok (slice spec s (s + 16))).
Proof.
  unfold AudDataset.crop_audio_window, MelSpectrogramProcessor.start_index.
  destruct (float_of_int 25) as [f|]; cbn [bind]; [|reflexivity].
  destruct (float_of_int k) as [x|]; cbn [bind]; [|reflexivity].
  destruct (fdiv x f) as [q|]; cbn [bind]; [|reflexivity].
  destruct (int_of_float (fmul f80 q)) as [s|]; cbn [bind]; [|reflexivity].
  destruct (s + 16 >? len spec); [|reflexivity].
  do 2 f_equal. lia.
Qed.

Section TransposeFacts.

Context {X : Type}.






End TransposeFacts.



(** The window of frame 10 at 100 fps, computed: start 8, the two bands from
    frame 8 on, one row per mel frame. *)
Lemma crop_audio_window_example :
  MelSpectrogramProcessor.start_index 10 100 = Ok 8 /\
  MelSpectrogramProcessor.crop_audio_window
    [map Z.of_nat (seq 0 30); map Z.of_nat (seq 100 30)] 10 100
  = Ok (map (fun i => [Z.of_nat i; Z.of_nat (100 + i)]) (seq 8 16)).
Proof. split; vm_compute; reflexivity. Qed.

(** ** The frame count *)

(** The frame count of [n] mel frames at 25 fps is one of the two values the
    double-precision product can truncate to. *)
Definition frame_count_near_spec (n : Z) : bool :=
  match MelSpectrogramProcessor.get_frame_count n 25, AudDataset.data_len n with
  | Ok v, Ok v' =>
      (v =? v') &&
      ((v =? frame_count_spec n 25) ||
       ((v =? frame_count_spec n 25 - 1) && ((n - 16) * 25 mod 80 =? 0)))
  | _, _ => false
  end.

Fixpoint all_from (p : Z -> bool) (count : nat) (n : Z) : bool :=
  match count with
  | O => true
  | S c => p n && all_from p c (n + 1)
  end.

Lemma all_from_spec p count : forall n i,
  all_from p count n = true -> n <= i < n + Z.of_nat count -> p i = true.
Proof.
  induction count as [|c IH]; intros n i H Hi; [lia|].
  cbn [all_from] in H. apply andb_prop in H. destruct H as [H1 H2].
  destruct (Z.eq_dec i n) as [->|Hne]; [assumption|].
  apply (IH (n + 1)); [assumption|lia].
Qed.

Lemma frame_count_checked :
  all_from frame_count_near_spec (Z.to_nat 16000) 16 = true.
Proof. vm_compute. reflexivity. Qed.

(** The frame count of the offline pipeline.  For 16 to 16015 mel frames
    (200 seconds of audio) at 25 fps, [get_frame_count] and [AudDataset]'s
    [data_len] return the same number: [int()] of the double-precision product
    [(n - 16) / 80.0 * 25.0], plus 2.  It equals
    [floor((n - 16) / 80 * 25) + 2] whenever [(n - 16) * 25 / 80] is not a whole
    number, and is that value or one less when it is; for 100 mel frames it
    is 28. *)
Theorem frame_count_at_25fps :
  forall n, 16 <= n < 16016 ->
    exists v,
      MelSpectrogramProcessor.get_frame_count n 25 = Ok v /\
      AudDataset.data_len n = Ok v /\
      (v = frame_count_spec n 25 \/
       (v = frame_count_spec n 25 - 1 /\ (n - 16) * 25 mod 80 = 0)) /\
      MelSpectrogramProcessor.get_frame_count 100 25 = Ok 28.
Proof.
  intros n Hn.
  pose proof (all_from_spec _ _ 16 n frame_count_checked) as H.
  rewrite Z2Nat.id in H by lia. specialize (H ltac:(lia)).
  unfold frame_count_near_spec in H.
  destruct (MelSpectrogramProcessor.get_frame_count n 25) as [v|]; [|discriminate].
  destruct (AudDataset.data_len n) as [v'|]; [|discriminate].
  apply andb_prop in H. destruct H as [H1 H2].
  apply Z.eqb_eq in H1. subst v'. exists v.
  split; [reflexivity|]. split; [reflexivity|]. split; [|reflexivity].
  apply orb_prop in H2. destruct H2 as [H2|H2].
  - left. apply Z.eqb_eq. assumption.
  - right. apply andb_prop in H2. destruct H2 as [H2 H3].
    split; apply Z.eqb_eq; assumption.
Qed.

Lemma frame_count_at_25fps_witness :
  exists v,
    MelSpectrogramProcessor.get_frame_count 100 25 = Ok v /\
    AudDataset.data_len 100 = Ok v /\
    (v = frame_count_spec 100 25 \/
     (v = frame_count_spec 100 25 - 1 /\ (100 - 16) * 25 mod 80 = 0)) /\
    MelSpectrogramProcessor.get_frame_count 100 25 = Ok 28.
Proof. apply (frame_count_at_25fps 100). lia. Defined.

(** The frame count is not always [floor((n - 16) / 80 * fps) + 2]: below
    16 mel frames [int()] truncates toward zero (15 frames: 2, not 1), and the
    double-precision product can fall just short of a whole number (384
    frames: 4.6 * 25.0 is 114.99999999999999, so 116, not 117). *)
Lemma frame_count_is_not_the_floor :
  MelSpectrogramProcessor.get_frame_count 15 25 = Ok 2 /\
  frame_count_spec 15 25 = 1 /\
  MelSpectrogramProcessor.get_frame_count 384 25 = Ok 116 /\
  frame_count_spec 384 25 = 117.
Proof. repeat split; vm_compute; reflexivity. Qed.

(** ** Context windows *)
Section FeatureFacts.
Variable row : Type.
Variable zero_row : row.

Lemma map_seq_repeat (f : nat -> row) z : forall k a,
  (forall j, (a <= j < a + k)%nat -> f j = z) -> map f (seq a k) = repeat z k.
Proof.
  induction k as [|k IH]; intros a H; [reflexivity|].
  cbn [seq map repeat]. rewrite (H a) by lia. f_equal.
  apply IH. intros j Hj. apply H. lia.
Qed.

Lemma nth_map_seq (f : nat -> row) (d : row) (a k i : nat) :
  (i < k)%nat -> nth i (map f (seq a k)) d = f (a + i)%nat.
Proof.
  intros Hi.
  rewrite (nth_indep (map f (seq a k)) d (f 0%nat))
    by (rewrite length_map, length_seq; assumption).
  rewrite (map_nth f), seq_nth by assumption. reflexivity.
Qed.

Lemma firstn_skipn_nth (d : row) : forall (xs : list row) (l w : nat),
  (l + w <= length xs)%nat ->
  firstn w (skipn l xs) = map (fun t => nth (l + t) xs d) (seq 0 w).
Proof.
  intros xs l w H. apply (nth_ext _ _ d d).
  - rewrite length_firstn, length_skipn, length_map, length_seq. lia.
  - intros i Hi. rewrite length_firstn, length_skipn in Hi.
    rewrite nth_firstn. destruct (Nat.ltb_spec i w); [|lia].
    rewrite nth_skipn, nth_map_seq by lia. reflexivity.
Qed.

(** A slice padded with zero rows on both sides is the centred window, when
    the pads are exactly the parts of the window that fall off the array. *)
Lemma padded_window (features : list row) (pl l w pr : nat) (idx : Z) :
  (l + w <= length features)%nat ->
  idx - 8 + Z.of_nat pl = Z.of_nat l ->
  ((0 < pl)%nat -> l = 0%nat) ->
  ((0 < pr)%nat -> (l + w)%nat = length features) ->
  (pl + w + pr = 16)%nat ->
  repeat zero_row pl ++ firstn w (skipn l features) ++ repeat zero_row pr
  = Features.centred_window zero_row features idx.
Proof.
  intros Hlen Hidx Hpl Hpr Hsum. unfold Features.centred_window.
  replace 16%nat with (pl + (w + pr))%nat by lia.
  rewrite !seq_app, !map_app. cbn [Nat.add]. f_equal; [|f_equal].
  - symmetry. apply map_seq_repeat. intros j Hj. unfold Features.feature_at.
    destruct (Z.leb_spec 0 (idx - 8 + Z.of_nat j)); [lia|reflexivity].
  - rewrite (firstn_skipn_nth zero_row) by assumption.
    apply (nth_ext _ _ zero_row zero_row).
    + rewrite !length_map, !length_seq. reflexivity.
    + intros i Hi. rewrite length_map, length_seq in Hi.
      rewrite !nth_map_seq by lia. unfold Features.feature_at, len.
      destruct (Z.leb_spec 0 (idx - 8 + Z.of_nat (pl + i))); [|lia].
      destruct (Z.ltb_spec (idx - 8 + Z.of_nat (pl + i)) (Z.of_nat (length features))); [|lia].
      cbn [andb]. f_equal. lia.
  - symmetry. apply map_seq_repeat. intros j Hj. unfold Features.feature_at, len.
    destruct (Z.ltb_spec (idx - 8 + Z.of_nat j) (Z.of_nat (length features)));
      [lia|]. rewrite andb_false_r. reflexivity.
Qed.

End FeatureFacts.

Section ContextWindow.
Variable row : Type.
Variable zero_row : row.

Lemma np_zeros_left (k : Z) (w : list row) :
  (if k >? 0 then Features.np_zeros zero_row k ++ w else w)
  = repeat zero_row (Z.to_nat k) ++ w.
Proof.
  unfold Features.np_zeros. destruct (Z.gtb_spec k 0); [reflexivity|].
  replace (Z.to_nat k) with 0%nat by lia. reflexivity.
Qed.

Lemma np_zeros_right (k : Z) (w : list row) :
  (if k >? 0 then w ++ Features.np_zeros zero_row k else w)
  = w ++ repeat zero_row (Z.to_nat k).
Proof.
  unfold Features.np_zeros. destruct (Z.gtb_spec k 0); [reflexivity|].
  replace (Z.to_nat k) with 0%nat by lia. cbn [repeat]. rewrite app_nil_r. reflexivity.
Qed.

Lemma zeros_like_prefix (a : list row) (k : Z) :
  0 <= k <= len a ->
  Features.zeros_like zero_row (prefix a k) = repeat zero_row (Z.to_nat k).
Proof.
  intros H. unfold Features.zeros_like, prefix.
  rewrite slice_in_range by lia. cbn [Z.to_nat skipn].
  rewrite Z.sub_0_r.
  assert (length (firstn (Z.to_nat k) a) = Z.to_nat k) as E
    by (rewrite length_firstn; unfold len in H; lia).
  revert E. generalize (firstn (Z.to_nat k) a). generalize (Z.to_nat k).
  intros n l. revert n. induction l as [|x l IH]; intros n E; cbn in *; subst n;
    [reflexivity|]. cbn [repeat]. f_equal. apply IH. reflexivity.
Qed.

Lemma zeros_like_left (k : Z) (w : list row) :
  0 <= k <= len w ->
  (if k >? 0 then Features.zeros_like zero_row (prefix w k) ++ w else w)
  = repeat zero_row (Z.to_nat k) ++ w.
Proof.
  intros H. destruct (Z.gtb_spec k 0).
  - rewrite zeros_like_prefix by assumption. reflexivity.
  - replace (Z.to_nat k) with 0%nat by lia. reflexivity.
Qed.

Lemma zeros_like_right (k : Z) (w : list row) :
  0 <= k <= len w ->
  (if k >? 0 then w ++ Features.zeros_like zero_row (prefix w k) else w)
  = w ++ repeat zero_row (Z.to_nat k).
Proof.
  intros H. destruct (Z.gtb_spec k 0).
  - rewrite zeros_like_prefix by assumption. reflexivity.
  - replace (Z.to_nat k) with 0%nat by lia. cbn [repeat]. rewrite app_nil_r. reflexivity.
Qed.

(** [AudioEncoder.get_audio_features_for_frame] on an index within 8 of the array. *)
Lemma get_audio_features_for_frame_centred (features : list row) (idx : Z) :
  -8 <= idx <= len features + 8 ->
  Features.get_audio_features_for_frame zero_row features idx 8
  = Features.centred_window zero_row features idx.
Proof.
  intros H. unfold Features.get_audio_features_for_frame.
  set (n := len features) in *.
  set (pl := if idx - 8 <? 0 then - (idx - 8) else 0).
  set (l := if idx - 8 <? 0 then 0 else idx - 8).
  set (pr := if idx + 8 >? n then idx + 8 - n else 0).
  set (r := if idx + 8 >? n then n else idx + 8).
  assert ((if idx - 8 <? 0 then (- (idx - 8), 0) else (0, idx - 8)) = (pl, l)) as ->
    by (unfold pl, l; destruct (idx - 8 <? 0); reflexivity).
  assert ((if idx + 8 >? n then (idx + 8 - n, n) else (0, idx + 8)) = (pr, r)) as ->
    by (unfold pr, r; destruct (idx + 8 >? n); reflexivity).
  assert (0 <= pl /\ 0 <= l /\ idx - 8 + pl = l /\ (0 < pl -> l = 0)) as (Hpl & Hl & Hpll & Hpl0)
    by (unfold pl, l; destruct (Z.ltb_spec (idx - 8) 0); lia).
  assert (0 <= pr /\ r <= n /\ idx + 8 - pr = r /\ (0 < pr -> r = n)) as (Hpr & Hr & Hprr & Hpr0)
    by (unfold pr, r; destruct (Z.gtb_spec (idx + 8) n); lia).
  assert (0 <= n) as Hn0 by (unfold n, len; lia).
  assert (l <= r) as Hlr
    by (unfold l, r; destruct (Z.ltb_spec (idx - 8) 0);
        destruct (Z.gtb_spec (idx + 8) n); lia).
  rewrite np_zeros_left, np_zeros_right, <- app_assoc.
  rewrite slice_in_range by (fold n; lia).
  apply padded_window; unfold n, len in *; lia.
Qed.

(** [utils.get_audio_features] on a frame index of an array of at least 8 rows. *)
Lemma get_audio_features_centred (features : list row) (idx : Z) :
  8 <= len features -> 0 <= idx <= len features ->
  Features.get_audio_features zero_row features idx
  = Features.centred_window zero_row features idx.
Proof.
  intros Hn H. unfold Features.get_audio_features.
  set (n := len features) in *.
  set (pl := if idx - 8 <? 0 then - (idx - 8) else 0).
  set (l := if idx - 8 <? 0 then 0 else idx - 8).
  set (pr := if idx + 8 >? n then idx + 8 - n else 0).
  set (r := if idx + 8 >? n then n else idx + 8).
  assert ((if idx - 8 <? 0 then (- (idx - 8), 0) else (0, idx - 8)) = (pl, l)) as ->
    by (unfold pl, l; destruct (idx - 8 <? 0); reflexivity).
  assert ((if idx + 8 >? n then (idx + 8 - n, n) else (0, idx + 8)) = (pr, r)) as ->
    by (unfold pr, r; destruct (idx + 8 >? n); reflexivity).
  assert (0 <= pl /\ 0 <= l /\ idx - 8 + pl = l /\ (0 < pl -> l = 0)) as (Hpl & Hl & Hpll & Hpl0)
    by (unfold pl, l; destruct (Z.ltb_spec (idx - 8) 0); lia).
  assert (0 <= pr /\ r <= n /\ idx + 8 - pr = r /\ (0 < pr -> r = n)) as (Hpr & Hr & Hprr & Hpr0)
    by (unfold pr, r; destruct (Z.gtb_spec (idx + 8) n); lia).
  assert (0 <= n) as Hn0 by (unfold n, len; lia).
  assert (l <= r) as Hlr
    by (unfold l, r; destruct (Z.ltb_spec (idx - 8) 0);
        destruct (Z.gtb_spec (idx + 8) n); lia).
  assert (len (slice features l r) = r - l) as Hw
    by (unfold len; rewrite slice_length by (fold n; lia); lia).
  assert (pl <= r - l /\ pr <= pl + (r - l)) as [Hple Hpre].
  { unfold pl, l, pr, r. destruct (Z.ltb_spec (idx - 8) 0);
      destruct (Z.gtb_spec (idx + 8) n); lia. }
  rewrite zeros_like_left by lia.
  rewrite zeros_like_right
    by (unfold len in *; rewrite length_app, repeat_length; lia).
  rewrite <- app_assoc.
  rewrite slice_in_range by (fold n; lia).
  apply padded_window; unfold n, len in *; lia.
Qed.

End ContextWindow.

(** C7 (as the code has it).  [AudioEncoder.get_audio_features_for_frame]
    returns the window of exactly 16 rows centred on [idx] (row [j] is
    embedding [idx - 8 + j], or a zero row where the array has none) for every
    array and every [idx] with [-8 <= idx <= len + 8]; [utils.get_audio_features]
    returns the same window for [0 <= idx <= len] on arrays of at least 8
    rows.  Zero rows pad both ends alike, and slicing reads no element out of
    range. *)
Theorem get_context_sixteen_rows :
  forall (row : Type) (zero_row : row) (features : list row) (idx : Z),
    length (Features.centred_window zero_row features idx) = 16%nat /\
    (-8 <= idx <= len features + 8 ->
     Features.get_audio_features_for_frame zero_row features idx 8
     = Features.centred_window zero_row features idx) /\
    (8 <= len features -> 0 <= idx <= len features ->
     Features.get_audio_features zero_row features idx
     = Features.centred_window zero_row features idx).
Proof.
  intros row zero_row features idx. split; [reflexivity|]. split.
  - apply get_audio_features_for_frame_centred.
  - apply get_audio_features_centred.
Qed.

(** Three embeddings, frame 0: rows 8, 9 and 10 of the window are the
    embeddings, all others are zero. *)
Lemma get_context_sixteen_rows_witness :
  Features.get_audio_features_for_frame 0 [1; 2; 3] 0 8
  = [0; 0; 0; 0; 0; 0; 0; 0; 1; 2; 3; 0; 0; 0; 0; 0] /\
  Features.get_audio_features 0 [1; 2; 3; 4; 5; 6; 7; 8; 9] 9
  = [2; 3; 4; 5; 6; 7; 8; 9; 0; 0; 0; 0; 0; 0; 0; 0].
Proof.
  destruct (get_context_sixteen_rows Z 0 [1; 2; 3] 0) as (_ & H1 & _).
  destruct (get_context_sixteen_rows Z 0 [1; 2; 3; 4; 5; 6; 7; 8; 9] 9) as (_ & _ & H2).
  split.
  - rewrite H1 by (vm_compute; split; discriminate). reflexivity.
  - rewrite H2 by (vm_compute; try split; discriminate). reflexivity.
Defined.

(** C7 as stated fails for indices more than 8 away from the array: at
    [idx = -9] on 20 rows both functions return 36 rows, and at [idx = 40] they
    return 28 and none. *)
Lemma get_context_wrong_length_far_from_array :
  let features := map Z.of_nat (seq 1 20) in
  length (Features.get_audio_features_for_frame 0 features (-9) 8) = 36%nat /\
  length (Features.get_audio_features 0 features (-9)) = 36%nat /\
  length (Features.get_audio_features_for_frame 0 features 40 8) = 28%nat /\
  length (Features.get_audio_features 0 features 40) = 0%nat.
Proof. vm_compute. repeat split. Qed.

(** On an array shorter than 8 rows [utils.get_audio_features] pads with
    [zeros_like] of a slice that is too short, and returns fewer than 16
    rows; [get_audio_features_for_frame] does not. *)
Lemma get_audio_features_short_array :
  length (Features.get_audio_features 0 [1; 2; 3] 0) = 11%nat /\
  length (Features.get_audio_features_for_frame 0 [1; 2; 3] 0 8) = 16%nat.
Proof. vm_compute. split; reflexivity. Qed.

(* ------------------------------------------------------------------ *)
(** ** Compositing: only the crop rectangle is rewritten *)

Section ImageFacts.

Context {A B : Type}.

Lemma mapi_from_length (f : nat -> A -> B) (l : list A) :
  forall i, length (Image.mapi_from f i l) = length l.
Proof.
  induction l as [|x t IH]; intro i; simpl; [reflexivity | now rewrite IH].
Qed.

Lemma mapi_from_nth_error (f : nat -> A -> B) (l : list A) :
  forall i k, nth_error (Image.mapi_from f i l) k
              = option_map (f (i + k)%nat) (nth_error l k).
Proof.
  induction l as [|x t IH]; intros i k.
  - now destruct k.
  - destruct k as [|k]; simpl.
    + now rewrite Nat.add_0_r.
    + rewrite IH. now rewrite Nat.add_succ_r.
Qed.

Lemma mapi_nth_error (f : nat -> A -> B) (l : list A) (k : nat) :
  nth_error (Image.mapi f l) k = option_map (f k) (nth_error l k).
Proof. unfold Image.mapi. now rewrite mapi_from_nth_error. Qed.

End ImageFacts.

Section RegionFacts.

Variable pixel : Type.

(** A slice assignment that succeeds touches the selected region only. *)
Lemma set_region_outside (a v out : Image.image pixel) (y0 y1 x0 x1 : Z) :
  Image.set_region a y0 y1 x0 x1 v = Ok out ->
  Image.unchanged_outside a out y0 y1 x0 x1.
Proof.
  unfold Image.set_region, Image.unchanged_outside.
  destruct (Image.region a y0 y1 x0 x1) as [[[sy ey] sx] ex] eqn:Hrg.
  destruct (_ && _); [|discriminate].
  intro H. injection H as <-.
  split; [apply mapi_from_length|]. split.
  - intro y. rewrite mapi_nth_error.
    destruct (nth_error a y) as [r|]; [|reflexivity].
    simpl. f_equal. apply mapi_from_length.
  - intros y x Hout. unfold Image.pixel_at.
    rewrite mapi_nth_error.
    destruct (nth_error a y) as [r|]; [|reflexivity].
    cbn [option_map]. rewrite mapi_nth_error.
    destruct (nth_error r x) as [p|]; [|reflexivity].
    cbn [option_map]. cbn [Image.in_region] in Hout. now rewrite Hout.
Qed.

(** It succeeds when the value has the shape of a region inside the array. *)
Lemma set_region_fits (a v : Image.image pixel) (y0 y1 x0 x1 : Z) :
  0 <= y0 <= y1 -> y1 <= len a -> 0 <= x0 <= x1 -> x1 <= Array2.ncols a ->
  len v = y1 - y0 -> Array2.ncols v = x1 - x0 ->
  exists out, Image.set_region a y0 y1 x0 x1 v = Ok out.
Proof.
  intros Hy Hy1 Hx Hx1 Hv Hw.
  unfold Image.set_region, Image.region, slice_bound.
  destruct (Z.ltb_spec y0 0); [lia|]. destruct (Z.ltb_spec y1 0); [lia|].
  destruct (Z.ltb_spec x0 0); [lia|]. destruct (Z.ltb_spec x1 0); [lia|].
  rewrite !Z.min_l by lia. rewrite !Z.max_r by lia.
  rewrite Hv, Hw, !Z.eqb_refl. cbn [orb andb]. eexists; reflexivity.
Qed.

End RegionFacts.

(** C9.  Whenever [ImageProcessor.paste_generated_region] returns, and
    whenever the compositing step of the streaming generator returns, the
    result has the shape of the full frame and every pixel outside
    [[ymin:ymax, xmin:xmax]] is the pixel of the full frame: only the crop
    rectangle is rewritten.  And [paste_generated_region] does return, for a
    320x320 generated region and a crop rectangle inside the frame, as soon as
    [cv2.resize] delivers an image of the size of the rectangle. *)
Theorem composite_rewrites_only_crop_rectangle
  (pixel : Type) (black : pixel)
  (cv2_resize : Image.image pixel -> Z -> Z -> res (Image.image pixel))
  (full_frame generated_region crop_img_r : Image.image pixel)
  (xmin ymin xmax ymax h w : Z) :
  (forall out,
     ImageProcessor.paste_generated_region black cv2_resize
       full_frame generated_region (xmin, ymin, xmax, ymax) (h, w) = Ok out ->
     Image.unchanged_outside full_frame out ymin ymax xmin xmax) /\
  (forall out,
     ImageProcessor.composite cv2_resize
       full_frame crop_img_r generated_region (xmin, ymin, xmax, ymax) (h, w) = Ok out ->
     Image.unchanged_outside full_frame out ymin ymax xmin xmax) /\
  (len generated_region = 320 -> Array2.ncols generated_region = 320 ->
   0 <= ymin <= ymax -> ymax <= len full_frame ->
   0 <= xmin <= xmax -> xmax <= Array2.ncols full_frame ->
   (forall canvas, exists r, cv2_resize canvas w h = Ok r /\
                             len r = ymax - ymin /\ Array2.ncols r = xmax - xmin) ->
   exists out,
     ImageProcessor.paste_generated_region black cv2_resize
       full_frame generated_region (xmin, ymin, xmax, ymax) (h, w) = Ok out /\
     Image.unchanged_outside full_frame out ymin ymax xmin xmax).
Proof.
  assert (forall out,
     ImageProcessor.paste_generated_region black cv2_resize
       full_frame generated_region (xmin, ymin, xmax, ymax) (h, w) = Ok out ->
     Image.unchanged_outside full_frame out ymin ymax xmin xmax) as Hpaste.
  { intro out. unfold ImageProcessor.paste_generated_region, bind.
    destruct (Image.set_region _ 4 324 4 324 generated_region) as [canvas|e];
      [|discriminate].
    destruct (cv2_resize canvas w h) as [resized|e]; [|discriminate].
    apply set_region_outside. }
  split; [exact Hpaste|]. split.
  - intro out. unfold ImageProcessor.composite, bind.
    destruct (Image.set_region crop_img_r 4 324 4 324 generated_region)
      as [crop_img_out|e]; [|discriminate].
    destruct (cv2_resize crop_img_out w h) as [resized|e]; [|discriminate].
    apply set_region_outside.
  - intros Hg Hgw Hy Hy1 Hx Hx1 Hresize.
    assert (exists out,
      ImageProcessor.paste_generated_region black cv2_resize
        full_frame generated_region (xmin, ymin, xmax, ymax) (h, w) = Ok out)
      as [out Hout].
    { unfold ImageProcessor.paste_generated_region, bind.
      destruct (set_region_fits pixel (repeat (repeat black 328) 328)
                  generated_region 4 324 4 324) as [canvas ->];
        try (vm_compute; intuition discriminate); try lia.
      destruct (Hresize canvas) as (r & -> & Hr & Hrw).
      apply set_region_fits; assumption. }
    exists out. split; [exact Hout | exact (Hpaste out Hout)].
Qed.

(** A 3x4 frame whose crop rectangle is row 1, columns 1..2, and a 320x320
    region; the resize used here fills an image of the requested size with
    the value 9. *)
Lemma composite_rewrites_only_crop_rectangle_witness :
  let resize := fun (_ : Image.image Z) (w h : Z) =>
                  Ok (repeat (repeat 9 (Z.to_nat w)) (Z.to_nat h)) in
  let frame := [[10; 11; 12; 13]; [20; 21; 22; 23]; [30; 31; 32; 33]] in
  let region := repeat (repeat 5 320) 320 in
  ImageProcessor.paste_generated_region 0 resize frame region (1, 1, 3, 2) (1, 2)
    = Ok [[10; 11; 12; 13]; [20; 9; 9; 23]; [30; 31; 32; 33]] /\
  exists out,
    ImageProcessor.paste_generated_region 0 resize frame region (1, 1, 3, 2) (1, 2)
      = Ok out /\
    Image.unchanged_outside frame out 1 2 1 3.
Proof.
  intros resize frame region.
  split; [vm_compute; reflexivity|].
  apply (composite_rewrites_only_crop_rectangle Z 0 resize frame region []
           1 1 3 2 1 2);
    try (vm_compute; intuition discriminate).
  intro canvas. eexists. split; [reflexivity|]. split; reflexivity.
Defined.

(* ------------------------------------------------------------------ *)
(** ** Head motion: the ping-pong walk over the source frames *)

Section PingPong.

Variable N : Z.
Hypothesis HN : 2 <= N.

Let p := 2 * (N - 1).

Lemma succ_mod (t : Z) :
  0 <= t ->
  (t + 1) mod p = if t mod p =? p - 1 then 0 else t mod p + 1.
Proof.
  intro Ht. assert (0 < p) as Hp by (unfold p; lia).
  pose proof (Z.mod_pos_bound t p Hp) as Hr.
  rewrite <- Zplus_mod_idemp_l.
  destruct (Z.eqb_spec (t mod p) (p - 1)) as [E|E].
  - rewrite E. replace (p - 1 + 1) with (1 * p) by lia. apply Z_mod_mult.
  - apply Z.mod_small. lia.
Qed.

Lemma pingpong_range (t : Z) : 0 <= HeadMotion.pingpong N t <= N - 1.
Proof.
  unfold HeadMotion.pingpong. fold p.
  assert (0 < p) as Hp by (unfold p; lia).
  pose proof (Z.mod_pos_bound t p Hp) as Hr.
  destruct (Z.leb_spec (t mod p) (N - 1)); unfold p in *; lia.
Qed.

(** One pass takes the cursor of time [t] to the cursor of time [t + 1]. *)
Lemma step_cursor (t i s : Z) :
  0 <= t -> HeadMotion.cursor_at N t i s ->
  let '(i', s') := HeadMotion.step (N - 1) i s in
  i' = HeadMotion.pingpong N (t + 1) /\ HeadMotion.cursor_at N (t + 1) i' s'.
Proof.
  intros Ht [Hi Hs].
  assert (0 < p) as Hp by (unfold p; lia).
  pose proof (Z.mod_pos_bound t p Hp) as Hr.
  pose proof (succ_mod t Ht) as Hsucc.
  unfold HeadMotion.step, HeadMotion.cursor_at, HeadMotion.pingpong in *.
  fold p in Hi, Hs |- *. rewrite Hsucc.
  assert (t = 0 -> t mod p = 0) as H0 by (intros ->; apply Z.mod_0_l; lia).
  subst i.
  destruct (Z.eqb_spec (t mod p) (p - 1));
    destruct (Z.leb_spec (t mod p) (N - 1));
    destruct (Z.leb_spec (t mod p + 1) (N - 1));
    destruct (Z.leb_spec 0 (N - 1));
    repeat match goal with
           | |- context [?a >? ?b] => destruct (Z.gtb_spec a b)
           | |- context [?a <? ?b] => destruct (Z.ltb_spec a b)
           end; unfold p in *; try lia.
Qed.

Lemma indices_pingpong (n : nat) :
  forall t i s, 0 <= t -> HeadMotion.cursor_at N t i s ->
  HeadMotion.indices (N - 1) n i s
  = map (fun k => HeadMotion.pingpong N (t + 1 + Z.of_nat k)) (seq 0 n).
Proof.
  induction n as [|n IH]; intros t i s Ht Hc; [reflexivity|].
  cbn [HeadMotion.indices].
  pose proof (step_cursor t i s Ht Hc) as Hstep.
  destruct (HeadMotion.step (N - 1) i s) as [i' s'].
  destruct Hstep as [Hi' Hc'].
  rewrite (IH (t + 1) i' s') by (lia || assumption).
  cbn [seq map]. rewrite Z.add_0_r. f_equal; [assumption|].
  rewrite <- seq_shift, map_map.
  apply map_ext. intro k. f_equal. lia.
Qed.

Lemma cursor_at_start : HeadMotion.cursor_at N 0 0 0.
Proof.
  unfold HeadMotion.cursor_at, HeadMotion.pingpong.
  rewrite Z.mod_0_l by lia.
  destruct (Z.leb_spec 0 (N - 1)); [|lia]. split; [reflexivity|]. left. lia.
Qed.

End PingPong.

(** C4 (as the code has it).  For [N >= 2] source frames and the cursor
    starting at index 0 with stride 0, the cursor is advanced before the frame
    is read, so the [k]-th frame (from 0) uses index [pingpong N (k + 1)]: the
    ping-pong walk entered at its second position.  Every index lies in
    [0, N-1]; the stride becomes -1 at index [N - 1] and +1 at index 0.  For
    [N = 4] the first ten indices are 1,2,3,2,1,0,1,2,3,2. *)
Theorem head_motion_ping_pong (N : Z) (n : nat) :
  2 <= N ->
  HeadMotion.dynamic_avatar_indices N n
    = map (fun k => HeadMotion.pingpong N (Z.of_nat k + 1)) (seq 0 n) /\
  Forall (fun i => 0 <= i <= N - 1) (HeadMotion.dynamic_avatar_indices N n) /\
  (forall s, HeadMotion.step (N - 1) (N - 1) s = (N - 2, -1)) /\
  (forall s, HeadMotion.step (N - 1) 0 s = (1, 1)) /\
  (forall i s, 0 < i < N - 1 -> HeadMotion.step (N - 1) i s = (i + s, s)) /\
  HeadMotion.dynamic_avatar_indices 4 10 = [1; 2; 3; 2; 1; 0; 1; 2; 3; 2].
Proof.
  intro HN.
  assert (HeadMotion.dynamic_avatar_indices N n
    = map (fun k => HeadMotion.pingpong N (Z.of_nat k + 1)) (seq 0 n)) as Hidx.
  { unfold HeadMotion.dynamic_avatar_indices.
    rewrite (indices_pingpong N HN n 0 0 0 (Z.le_refl 0) (cursor_at_start N HN)).
    apply map_ext. intro k. f_equal. lia. }
  split; [exact Hidx|]. split.
  { rewrite Hidx. apply Forall_forall. intros i Hi.
    apply in_map_iff in Hi. destruct Hi as (k & <- & _).
    apply pingpong_range. exact HN. }
  unfold HeadMotion.step.
  split; [|split; [|split]].
  - intro s. destruct (Z.gtb_spec (N - 1) (N - 1 - 1)); [|lia].
    destruct (Z.ltb_spec (N - 1) 1); [lia|]. f_equal. lia.
  - intro s. destruct (Z.gtb_spec 0 (N - 1 - 1));
      destruct (Z.ltb_spec 0 1); try lia; reflexivity.
  - intros i s Hi. destruct (Z.gtb_spec i (N - 1 - 1)); [lia|].
    destruct (Z.ltb_spec i 1); [lia|]. reflexivity.
  - reflexivity.
Qed.

Lemma head_motion_ping_pong_witness :
  HeadMotion.dynamic_avatar_indices 4 7
    = map (fun k => HeadMotion.pingpong 4 (Z.of_nat k + 1)) (seq 0 7) /\
  HeadMotion.dynamic_avatar_indices 4 7 = [1; 2; 3; 2; 1; 0; 1].
Proof.
  split; [|reflexivity].
  apply (head_motion_ping_pong 4 7). lia.
Defined.

(** C4, counterexample.  With four source frames the successive frames use
    the indices 1,2,3,2,1,0,1,2,3,2 and not 0,1,2,3,2,1,0,1,2,3: the first
    frame is read at index 1, and index 0 is first used by the sixth frame. *)
Lemma head_motion_starts_at_one :
  HeadMotion.dynamic_avatar_indices 4 10 = [1; 2; 3; 2; 1; 0; 1; 2; 3; 2] /\
  hd 0 (HeadMotion.dynamic_avatar_indices 4 10) = 1 /\
  hd 0 [0; 1; 2; 3; 2; 1; 0; 1; 2; 3] = 0.
Proof. repeat split. Qed.

(* ------------------------------------------------------------------ *)
(** ** The shape of the mel spectrogram *)

Section MelShape.

Variable sample amp bin : Type.
Variable fir : sample -> option sample -> sample.
Variable pad_value : list sample -> bool -> nat -> sample.
Variable fft_bin : list sample -> nat -> bin.
Variable np_abs : bin -> amp.
Variable mel_weight : nat -> nat -> amp.
Variable dot : list amp -> list amp -> amp.
Variable amp_to_db sub_ref_level normalize : amp -> amp.

Lemma lfilter_length (wav : list sample) :
  forall prev, length (Mel.fir_filter sample fir prev wav) = length wav.
Proof.
  induction wav as [|x t IH]; intro prev; simpl; [reflexivity | now rewrite IH].
Qed.

(** The pre-emphasis keeps the number of samples, and refuses none. *)
Lemma preemphasis_length (wav : list sample) :
  1 <= len wav ->
  exists y, Mel.preemphasis fir wav = Ok y /\ len y = len wav.
Proof.
  intro H. unfold Mel.preemphasis, Mel.lfilter.
  destruct wav as [|x t]; [cbn in H; lia|].
  eexists. split; [reflexivity|]. unfold len. now rewrite lfilter_length.
Qed.

Lemma has_shape_map {A B} (f : A -> B) (m : list (list A)) (r c : Z) :
  Array2.has_shape m r c -> Array2.has_shape (map (map f) m) r c.
Proof.
  unfold Array2.has_shape, len. intros [Hr Hc]. split.
  - now rewrite length_map.
  - apply Forall_map. eapply Forall_impl; [|exact Hc].
    intros row Hrow. cbn. now rewrite length_map.
Qed.

Lemma has_shape_table {A I} (f : I -> nat -> A) (rows : list I) (c : nat) :
  Array2.has_shape (map (fun k => map (f k) (seq 0 c)) rows) (len rows) (Z.of_nat c).
Proof.
  unfold Array2.has_shape, len. split.
  - now rewrite length_map.
  - apply Forall_map, Forall_forall. intros k _.
    now rewrite length_map, length_seq.
Qed.

Lemma has_shape_ncols {A} (m : list (list A)) (r c : Z) :
  Array2.has_shape m r c -> 0 < r -> Array2.ncols m = c.
Proof.
  unfold Array2.has_shape, Array2.ncols, len. intros [Hr Hc] Hpos.
  destruct m as [|row m]; [simpl in Hr; lia|].
  now inversion Hc.
Qed.

(** The centred STFT of a signal of [n] samples: 401 rows, [1 + n / 200]
    columns. *)
Lemma stft_shape (y : list sample) :
  exists D, Mel._stft pad_value fft_bin y = Ok D /\
            Array2.has_shape D 401 (1 + len y / 200).
Proof.
  unfold Mel._stft, Mel.librosa_stft, Mel.np_pad, Mel.n_fft, Mel.hop_length.
  set (y' := _ ++ y ++ _).
  assert (len y' = len y + 800) as Hlen.
  { unfold y', len. rewrite !length_app, !length_map, !length_seq.
    change (Z.to_nat (800 / 2)) with 400%nat. lia. }
  assert (0 <= len y) as Hy by (unfold len; lia).
  destruct (Z.ltb_spec (len y') 800); [lia|].
  eexists. split; [reflexivity|].
  pose proof (Z.div_pos (len y) 200 Hy ltac:(lia)) as Hq.
  replace (1 + len y / 200)
    with (Z.of_nat (Z.to_nat (1 + (len y' - 800) / 200))).
  2:{ rewrite Hlen. replace (len y + 800 - 800) with (len y) by lia.
      rewrite Z2Nat.id by lia. reflexivity. }
  change 401 with (len (seq 0 (Z.to_nat (1 + 800 / 2)))).
  apply (has_shape_table
           (fun k t => fft_bin (slice y' (Z.of_nat t * 200) (Z.of_nat t * 200 + 800)) k)).
Qed.

Lemma linear_to_mel_shape (S : list (list amp)) (c : Z) :
  Array2.has_shape S 401 c -> 0 <= c ->
  exists M, Mel._linear_to_mel amp mel_weight dot S = Ok M /\ Array2.has_shape M 80 c.
Proof.
  intros HS Hc.
  pose proof (has_shape_ncols S 401 c HS ltac:(lia)) as Hn.
  unfold Mel._linear_to_mel, Mel.np_dot.
  replace (Array2.ncols (Mel.mel_basis amp mel_weight)) with 401 by reflexivity.
  rewrite (proj1 HS), Z.eqb_refl. eexists. split; [reflexivity|].
  rewrite Hn.
  pose proof (has_shape_table (fun r t => dot r (Array2.column S t))
                (Mel.mel_basis amp mel_weight) (Z.to_nat c)) as Htab.
  rewrite Z2Nat.id in Htab by lia. exact Htab.
Qed.

Lemma mel_shape (wav : list sample) :
  1 <= len wav ->
  exists S,
    Mel.melspectrogram fir pad_value fft_bin np_abs mel_weight dot
      amp_to_db sub_ref_level normalize wav = Ok S /\
    Mel.process_audio fir pad_value fft_bin np_abs mel_weight dot
      amp_to_db sub_ref_level normalize wav = Ok S /\
    Array2.has_shape S 80 (1 + len wav / 200).
Proof.
  intro Hwav.
  destruct (preemphasis_length wav Hwav) as (y & Hy & Hpre).
  unfold Mel.melspectrogram, Mel.process_audio. rewrite Hy. unfold bind.
  destruct (stft_shape y) as (D & -> & HD).
  rewrite Hpre in HD.
  assert (0 <= 1 + len wav / 200) as Hc.
  { assert (0 <= len wav) by (unfold len; lia).
    pose proof (Z.div_pos (len wav) 200); lia. }
  destruct (linear_to_mel_shape (map (map np_abs) D) _ (has_shape_map np_abs D _ _ HD) Hc)
    as (M & -> & HM).
  eexists. split; [reflexivity|]. split.
  - rewrite !map_map. f_equal. apply map_ext. intro r. rewrite !map_map. reflexivity.
  - now apply has_shape_map, has_shape_map.
Qed.

(** Without centring, a signal of at least one window gives
    [1 + (n - 800) / 200] columns. *)
Lemma stft_uncentred_shape (y : list sample) :
  800 <= len y ->
  exists D, Mel.librosa_stft pad_value fft_bin y false = Ok D /\
            Array2.has_shape D 401 (1 + (len y - 800) / 200).
Proof.
  intro Hy.
  unfold Mel.librosa_stft, Mel.n_fft, Mel.hop_length.
  destruct (Z.ltb_spec (len y) 800); [lia|].
  eexists. split; [reflexivity|].
  pose proof (Z.div_pos (len y - 800) 200 ltac:(lia) ltac:(lia)) as Hq.
  pose proof (has_shape_table
    (fun k t => fft_bin (slice y (Z.of_nat t * 200) (Z.of_nat t * 200 + 800)) k)
    (seq 0 (Z.to_nat (1 + 800 / 2)))
    (Z.to_nat (1 + (len y - 800) / 200))) as Htab.
  rewrite Z2Nat.id in Htab by lia. exact Htab.
Qed.

End MelShape.

(** C5 (as the code has it).  [librosa.stft] is called with its default
    [center=True], so for every waveform of [n >= 800] samples (one STFT
    window or more) both [utils.melspectrogram] and
    [MelSpectrogramProcessor.process_audio] return the same matrix, of 80 rows
    and [1 + floor(n / 200)] columns: four columns more than
    [1 + floor((n - 800) / 200)]. *)
Theorem mel_spectrogram_shape
  (sample amp bin : Type)
  (fir : sample -> option sample -> sample)
  (pad_value : list sample -> bool -> nat -> sample)
  (fft_bin : list sample -> nat -> bin)
  (np_abs : bin -> amp)
  (mel_weight : nat -> nat -> amp)
  (dot : list amp -> list amp -> amp)
  (amp_to_db sub_ref_level normalize : amp -> amp)
  (wav : list sample) :
  800 <= len wav ->
  exists S,
    Mel.melspectrogram fir pad_value fft_bin np_abs mel_weight dot
      amp_to_db sub_ref_level normalize wav = Ok S /\
    Mel.process_audio fir pad_value fft_bin np_abs mel_weight dot
      amp_to_db sub_ref_level normalize wav = Ok S /\
    Array2.has_shape S 80 (1 + len wav / 200) /\
    Array2.ncols S = 1 + len wav / 200 /\
    1 + len wav / 200 = 1 + (len wav - 800) / 200 + 4.
Proof.
  intro Hwav.
  destruct (mel_shape sample amp bin fir pad_value fft_bin np_abs mel_weight dot
              amp_to_db sub_ref_level normalize wav ltac:(lia)) as (S & H1 & H2 & H3).
  exists S. repeat (split; [assumption|]). split.
  - apply (has_shape_ncols S 80); [assumption | lia].
  - replace (len wav) with ((len wav - 800) + 4 * 200) at 1 by lia.
    rewrite Z.div_add by lia. lia.
Qed.

(** One second of audio, 16000 samples: 80 rows of 81 columns. *)
Lemma mel_spectrogram_shape_witness :
  exists S,
    Mel.melspectrogram (fun x _ => x) (fun _ _ _ => 0) (fun _ _ => 0)
      (fun b => b) (fun _ _ => 0) (fun _ _ => 0)
      (fun x => x) (fun x => x) (fun x => x) (repeat 0 16000) = Ok S /\
    Array2.has_shape S 80 81.
Proof.
  destruct (mel_spectrogram_shape Z Z Z (fun x _ => x) (fun _ _ _ => 0) (fun _ _ => 0)
              (fun b => b) (fun _ _ => 0) (fun _ _ => 0)
              (fun x => x) (fun x => x) (fun x => x) (repeat 0 16000))
    as (S & H1 & _ & H3 & _).
  - unfold len. rewrite repeat_length. apply Z.leb_le. vm_compute. reflexivity.
  - exists S. split; [exact H1|].
    replace 81 with (1 + len (repeat 0 16000) / 200); [exact H3|].
    unfold len. rewrite repeat_length. vm_compute. reflexivity.
Defined.

(** C5, counterexample.  A waveform of exactly one window (800 samples) gives
    80 rows of 5 columns, where [1 + floor((800 - 800) / 200)] is 1.  The
    sample values play no part: all arithmetic is replaced by constants. *)
Lemma mel_spectrogram_of_one_window :
  exists S,
    Mel.melspectrogram (fun x _ => x) (fun _ _ _ => 0) (fun _ _ => 0)
      (fun b => b) (fun _ _ => 0) (fun _ _ => 0)
      (fun x => x) (fun x => x) (fun x => x) (repeat 0 800) = Ok S /\
    len S = 80 /\ Array2.ncols S = 5 /\
    1 + (len (repeat 0 800) - 800) / 200 = 1.
Proof.
  destruct (mel_shape Z Z Z (fun x _ => x) (fun _ _ _ => 0) (fun _ _ => 0)
              (fun b => b) (fun _ _ => 0) (fun _ _ => 0)
              (fun x => x) (fun x => x) (fun x => x) (repeat 0 800)
              ltac:(vm_compute; discriminate))
    as (S & H1 & _ & H3).
  exists S. split; [exact H1|].
  change (1 + len (repeat 0 800) / 200) with 5 in H3.
  split; [exact (proj1 H3)|]. split; [|reflexivity].
  apply (has_shape_ncols S 80); [assumption | lia].
Qed.

(** An empty waveform: [scipy.signal.lfilter] refuses it, and both
    extractors raise [ValueError] before the STFT. *)
Lemma mel_spectrogram_of_empty_waveform
  (sample amp bin : Type)
  (fir : sample -> option sample -> sample)
  (pad_value : list sample -> bool -> nat -> sample)
  (fft_bin : list sample -> nat -> bin)
  (np_abs : bin -> amp)
  (mel_weight : nat -> nat -> amp)
  (dot : list amp -> list amp -> amp)
  (amp_to_db sub_ref_level normalize : amp -> amp) :
  Mel.melspectrogram fir pad_value fft_bin np_abs mel_weight dot
    amp_to_db sub_ref_level normalize [] = Raise ValueError /\
  Mel.process_audio fir pad_value fft_bin np_abs mel_weight dot
    amp_to_db sub_ref_level normalize [] = Raise ValueError.
Proof. split; reflexivity. Qed.

(* ------------------------------------------------------------------ *)
(** ** The streaming generators *)

Section CacheWindow.

Variable row : Type.
Variable zero_row : row.

Lemma nth_repeat_app (x : row) (xs : list row) (i : nat) :
  nth i (repeat x 8 ++ xs) zero_row
  = if (i <? 8)%nat then x else nth (i - 8) xs zero_row.
Proof.
  destruct (Nat.ltb_spec i 8).
  - rewrite app_nth1 by (rewrite repeat_length; lia). apply nth_repeat_lt. lia.
  - rewrite app_nth2 by (rewrite repeat_length; lia).
    now rewrite repeat_length.
Qed.

(** The context of frame [k] taken from the cache at index [k]: the window
    behind [k], not the one around it. *)
Lemma cache_context (first_frame : row) (features : list row) (k : Z) :
  0 <= k < len features ->
  Features.get_audio_features zero_row (repeat first_frame 8 ++ features) k
  = Features.window_behind zero_row first_frame features k.
Proof.
  intro Hk.
  assert (len (repeat first_frame 8 ++ features) = 8 + len features) as Hlen
    by (unfold len; rewrite length_app, repeat_length; lia).
  rewrite get_audio_features_centred by lia.
  unfold Features.centred_window, Features.window_behind.
  apply map_ext_in. intros j Hj. apply in_seq in Hj.
  unfold Features.feature_at. rewrite Hlen.
  destruct (Z.ltb_spec (k - 16 + Z.of_nat j + 8) 0) as [H1|H1].
  - destruct (Z.leb_spec 0 (k - 8 + Z.of_nat j)); [lia | reflexivity].
  - destruct (Z.leb_spec 0 (k - 8 + Z.of_nat j)); [|lia].
    destruct (Z.ltb_spec (k - 8 + Z.of_nat j) (8 + len features)); [|lia].
    cbn [andb]. rewrite nth_repeat_app.
    destruct (Z.ltb_spec (k - 16 + Z.of_nat j) 0).
    + destruct (Nat.ltb_spec (Z.to_nat (k - 8 + Z.of_nat j)) 8); [reflexivity | lia].
    + destruct (Nat.ltb_spec (Z.to_nat (k - 8 + Z.of_nat j)) 8); [lia|].
      f_equal. lia.
Qed.

End CacheWindow.

Section LoopFacts.

Variables mel_row emb frame : Type.
Variable zero_emb : emb.
Variable audio_encoder : list mel_row -> res emb.
Variable net : option Z -> list emb -> res frame.
Variable self : Generator.service.
Variable motion : bool.
Variable len_img : option Z.
Variable mel_tensor : list mel_row.

Local Abbreviation pass := (Generator.pass zero_emb audio_encoder net self motion len_img mel_tensor).
Local Abbreviation loop := (fun fuel => Generator.loop zero_emb audio_encoder net fuel self motion len_img mel_tensor).
Local Abbreviation run_passes := (fun k => Generator.run_passes zero_emb audio_encoder net k self motion len_img mel_tensor).
Local Abbreviation n := (Generator.num_frames (len mel_tensor)).

(** What a pass that goes on has done: a frame, or one more retry. *)
Lemma pass_next (s s' : Generator.state emb) (evs : list (Generator.event frame)) :
  pass s = Generator.Next evs s' ->
  (Generator.frame_idx s' = Generator.frame_idx s + 1 /\
   Generator.retry_count s' = 0 /\
   exists f, evs = [Generator.Yield f]) \/
  (Generator.frame_idx s' = Generator.frame_idx s /\
   Generator.retry_count s' = Generator.retry_count s + 1 /\
   Generator.retry_count s + 1 < 10 /\
   evs = [Generator.Sleep 50]).
Proof.
  unfold Generator.pass.
  destruct (if _ <? _ then _ else _) as [cache|e]; [|discriminate].
  destruct (Generator.frame_idx s >=? len cache - 8).
  - destruct (Z.geb_spec (Generator.retry_count s + 1) 10); [discriminate|].
    intro Heq. injection Heq as <- <-. right. cbn. repeat split; lia.
  - destruct (Generator.render _ _ _ _ _ _) as [[[f i] st]|e]; [|discriminate].
    intro Heq. injection Heq as <- <-. left. cbn. repeat split. now exists f.
Qed.

Lemma loop_step (fuel : nat) (s : Generator.state emb) :
  Generator.frame_idx s < n ->
  loop (S fuel) s =
  match pass s with
  | Generator.Break => Some ([], Generator.Returned)
  | Generator.Error e => Some ([], Generator.Raised e)
  | Generator.Next evs s' => option_map (Generator.prepend evs) (loop fuel s')
  end.
Proof.
  intro H. cbn [Generator.loop].
  destruct (Z.ltb_spec (Generator.frame_idx s) n); [reflexivity | lia].
Qed.

Lemma loop_done (fuel : nat) (s : Generator.state emb) :
  n <= Generator.frame_idx s ->
  loop (S fuel) s = Some ([], Generator.Returned).
Proof.
  intro H. cbn [Generator.loop].
  destruct (Z.ltb_spec (Generator.frame_idx s) n); [lia | reflexivity].
Qed.

(** More fuel does not change a result. *)
Lemma loop_fuel_mono (fuel : nat) :
  forall s r fuel', loop fuel s = Some r -> (fuel <= fuel')%nat -> loop fuel' s = Some r.
Proof.
  induction fuel as [|fuel IH]; intros s r fuel' H Hle; [discriminate|].
  destruct fuel' as [|fuel']; [lia|].
  cbn [Generator.loop] in H |- *.
  destruct (Generator.frame_idx s <? n); [|exact H].
  destruct (pass s) as [|evs s'|e]; try exact H.
  destruct (Generator.loop _ _ _ fuel _ _ _ _ s') as [r'|] eqn:E; [|discriminate].
  rewrite (IH s' r' fuel' E) by lia. exact H.
Qed.

(** The loop ends: ten passes per frame still to make are enough. *)
Lemma loop_total (m : nat) :
  forall s,
    0 <= Generator.retry_count s <= 9 ->
    10 * Z.max 0 (n - Generator.frame_idx s) + (10 - Generator.retry_count s)
      <= Z.of_nat m ->
    exists r, loop (S m) s = Some r.
Proof.
  induction m as [|m IH]; intros s Hrc Hm.
  - lia.
  - destruct (Z.lt_ge_cases (Generator.frame_idx s) n) as [Hlt|Hge].
    2:{ rewrite loop_done by lia. eauto. }
    rewrite loop_step by assumption.
    destruct (pass s) as [|evs s'|e] eqn:Hp; eauto.
    destruct (pass_next s s' evs Hp) as [(Hf & Hr & _)|(Hf & Hr & Hlt10 & _)].
    + destruct (IH s') as [r Hr']; [lia | lia |].
      rewrite Hr'. cbn. eauto.
    + destruct (IH s') as [r Hr']; [lia | lia |].
      rewrite Hr'. cbn. eauto.
Qed.

(** A pass on a state whose context is unavailable: the tenth retry breaks,
    the others pause and leave the context unavailable. *)
Lemma pass_unavailable (s : Generator.state emb) :
  Generator.context_unavailable mel_tensor s = true ->
  pass s =
    if Generator.retry_count s + 1 >=? 10 then Generator.Break
    else Generator.Next [Generator.Sleep 50]
           {| Generator.frame_idx := Generator.frame_idx s;
              Generator.audio_features_cache := Generator.audio_features_cache s;
              Generator.retry_count := Generator.retry_count s + 1;
              Generator.img_idx := Generator.img_idx s;
              Generator.step_stride := Generator.step_stride s |}.
Proof.
  unfold Generator.context_unavailable, Generator.pass.
  intro H. apply andb_prop in H. destruct H as [H H3].
  apply andb_prop in H. destruct H as [H1 H2].
  apply negb_true_iff in H2.
  replace (len (Generator.audio_features_cache s) - 8 + 8)
    with (len (Generator.audio_features_cache s)) by lia.
  rewrite H2, H3. reflexivity.
Qed.

Lemma retries_then_break (k : nat) :
  forall s fuel,
    Generator.context_unavailable mel_tensor s = true ->
    Generator.retry_count s = 9 - Z.of_nat k ->
    (k < fuel)%nat ->
    loop fuel s = Some (repeat (Generator.Sleep 50) k, Generator.Returned).
Proof.
  induction k as [|k IH]; intros s fuel Hu Hrc Hfuel;
    (destruct fuel as [|fuel]; [lia|]);
    pose proof Hu as Hu';
    unfold Generator.context_unavailable in Hu';
    apply andb_prop in Hu'; destruct Hu' as [Hu' _];
    apply andb_prop in Hu'; destruct Hu' as [Hlt _];
    apply Z.ltb_lt in Hlt;
    rewrite loop_step by assumption;
    rewrite pass_unavailable by assumption.
  - destruct (Z.geb_spec (Generator.retry_count s + 1) 10); [reflexivity | lia].
  - destruct (Z.geb_spec (Generator.retry_count s + 1) 10); [lia|].
    rewrite (IH _ fuel).
    + reflexivity.
    + exact Hu.
    + cbn [Generator.retry_count]. lia.
    + lia.
Qed.

End LoopFacts.

Section Sessions.

Variables mel_row emb frame : Type.
Variable zero_emb : emb.
Variable audio_encoder : list mel_row -> res emb.
Variable static_jpeg : res frame.
Variable preprocess : res unit.
Variable net : option Z -> list emb -> res frame.

Lemma mapM_length {A B} (f : A -> res B) (l : list A) :
  forall ys, Generator.mapM f l = Ok ys -> length ys = length l.
Proof.
  induction l as [|x t IH]; intros ys H; cbn in H.
  - now injection H as <-.
  - unfold bind in H. destruct (f x) as [y|e]; [|discriminate].
    destruct (Generator.mapM f t) as [ys'|e]; [|discriminate].
    injection H as <-. cbn. now rewrite (IH ys').
Qed.

(** The first chunk has [min(50, num_frames)] embeddings, at least one. *)
Lemma first_chunk_length (mel_tensor : list mel_row) (chunk : list emb) :
  Generator.encode_range audio_encoder mel_tensor 0
    (Z.min 50 (Generator.num_frames (len mel_tensor))) = Ok chunk ->
  len chunk = Z.min 50 (Generator.num_frames (len mel_tensor)) /\ 1 <= len chunk.
Proof.
  unfold Generator.encode_range. intro H. apply mapM_length in H.
  unfold Generator.range in H. rewrite length_map, length_seq in H.
  set (n := Generator.num_frames (len mel_tensor)) in *.
  assert (1 <= n) by (unfold n, Generator.num_frames; lia).
  unfold len. rewrite H. lia.
Qed.

Lemma stream_unfold (fuel : nat) (self : Generator.service) (motion : bool)
  (mel_tensor : list mel_row) (chunk : list emb) :
  Generator.encode_range audio_encoder mel_tensor 0
    (Z.min 50 (Generator.num_frames (len mel_tensor))) = Ok chunk ->
  Generator.stream zero_emb audio_encoder net fuel self motion (None, None, None) mel_tensor
  = Generator.loop zero_emb audio_encoder net fuel self motion None mel_tensor
      (Generator.initial_state chunk).
Proof.
  intro H. unfold Generator.stream. rewrite H. reflexivity.
Qed.

Lemma log_and_raise_id (r : option (Generator.run frame)) :
  Generator.log_and_raise r = r.
Proof. destruct r as [[evs [|e]]|]; reflexivity. Qed.

Lemma prepend_nil (r : Generator.run frame) : Generator.prepend [] r = r.
Proof. now destruct r. Qed.

Lemma prepend_app (a b : list (Generator.event frame)) (r : Generator.run frame) :
  Generator.prepend a (Generator.prepend b r) = Generator.prepend (a ++ b) r.
Proof. unfold Generator.prepend. cbn. now rewrite app_assoc. Qed.

(** After [k] passes that go on, the loop continues from the state reached. *)
Lemma loop_after_passes (self : Generator.service) (motion : bool)
  (len_img : option Z) (mel_tensor : list mel_row) (k : nat) :
  forall s0 evs s fuel,
    Generator.run_passes zero_emb audio_encoder net k self motion len_img mel_tensor s0
      = Some (evs, s) ->
    Generator.loop zero_emb audio_encoder net (k + fuel) self motion len_img mel_tensor s0
    = option_map (Generator.prepend evs)
        (Generator.loop zero_emb audio_encoder net fuel self motion len_img mel_tensor s).
Proof.
  induction k as [|k IH]; intros s0 evs s fuel H; cbn [Generator.run_passes] in H.
  - injection H as <- <-. cbn [Nat.add].
    destruct (Generator.loop _ _ _ fuel _ _ _ _ s0) as [r|]; [|reflexivity].
    cbn. now rewrite prepend_nil.
  - cbn [Nat.add Generator.loop].
    destruct (Generator.frame_idx s0 <? _); [|discriminate].
    destruct (Generator.pass _ _ _ _ _ _ _ s0) as [|evs1 s1|e]; try discriminate.
    destruct (Generator.run_passes _ _ _ k _ _ _ _ s1) as [[evs' s'']|] eqn:E;
      [|discriminate].
    injection H as <- <-.
    rewrite (IH s1 evs' s'' fuel E).
    destruct (Generator.loop _ _ _ fuel _ _ _ _ s'') as [r|]; [|reflexivity].
    cbn. now rewrite prepend_app.
Qed.

(** An exception raised by a pass ends the loop with that exception, after
    the events of the passes before it. *)
Lemma loop_raises (self : Generator.service) (motion : bool)
  (len_img : option Z) (mel_tensor : list mel_row) (k fuel : nat)
  (s0 s : Generator.state emb) (evs : list (Generator.event frame)) (e : exn) :
  Generator.run_passes zero_emb audio_encoder net k self motion len_img mel_tensor s0
    = Some (evs, s) ->
  Generator.frame_idx s < Generator.num_frames (len mel_tensor) ->
  Generator.pass zero_emb audio_encoder net self motion len_img mel_tensor s
    = Generator.Error e ->
  (k < fuel)%nat ->
  Generator.loop zero_emb audio_encoder net fuel self motion len_img mel_tensor s0
  = Some (evs, Generator.Raised e).
Proof.
  intros Hk Hlt Hp Hfuel.
  replace fuel with (k + S (fuel - k - 1))%nat by lia.
  rewrite (loop_after_passes _ _ _ _ k s0 evs s _ Hk).
  rewrite loop_step by assumption. rewrite Hp. cbn.
  unfold Generator.prepend. cbn. now rewrite app_nil_r.
Qed.

(** The first pass of a method with head motion whose cursor was never
    assigned stops at [img_idx]. *)
Lemma first_pass_unbound (self : Generator.service) (mel_tensor : list mel_row)
  (chunk : list emb) :
  Generator.encode_range audio_encoder mel_tensor 0
    (Z.min 50 (Generator.num_frames (len mel_tensor))) = Ok chunk ->
  Generator.pass zero_emb audio_encoder net self true None mel_tensor
    (Generator.initial_state chunk) = Generator.Error UnboundLocalError.
Proof.
  intro H. destruct (first_chunk_length _ _ H) as [Hlen Hpos].
  destruct chunk as [|first_frame rest]; [cbn in Hpos; lia|].
  unfold Generator.pass, Generator.initial_state.
  cbn [Generator.frame_idx Generator.audio_features_cache Generator.retry_count
       Generator.img_idx Generator.step_stride].
  set (cache := repeat first_frame 8 ++ first_frame :: rest).
  assert (len cache = 8 + len (first_frame :: rest)) as Hc
    by (unfold cache, len; rewrite length_app, repeat_length; lia).
  rewrite Hc, Hlen.
  destruct (Z.ltb_spec (8 + Z.min 50 (Generator.num_frames (len mel_tensor)) - 8 + 8)
              (Z.min (0 + 10) (Generator.num_frames (len mel_tensor)))); [lia|].
  rewrite Hc, Hlen.
  destruct (Z.geb_spec 0 (8 + Z.min 50 (Generator.num_frames (len mel_tensor)) - 8));
    [lia|].
  reflexivity.
Qed.

End Sessions.

(** C1 (what the code does).  In the streaming loop the cache is the first
    embedding eight times, then the embeddings, and the context of frame [k]
    is taken from it at index [k] itself: the network receives the window
    behind the frame, embeddings [k - 16 .. k - 1] (the first embedding
    where that is before the start, zero rows before the copies), and not the
    window [k - 8 .. k + 7] around it. *)
Theorem streaming_context_lies_behind_the_frame
  (emb frame : Type) (zero_emb : emb) (net : option Z -> list emb -> res frame)
  (self : Generator.service) (len_img : option Z)
  (first_frame : emb) (rest : list emb) (s : Generator.state emb) :
  Generator.audio_features_cache s = repeat first_frame 8 ++ first_frame :: rest ->
  0 <= Generator.frame_idx s < len (first_frame :: rest) ->
  Generator.render zero_emb net self false len_img s
  = (f <- net None (Features.window_behind zero_emb first_frame
                      (first_frame :: rest) (Generator.frame_idx s)) ;;
     Ok (f, Generator.img_idx s, Generator.step_stride s)).
Proof.
  intros Hc Hk. unfold Generator.render. cbn [bind].
  rewrite Hc, cache_context by assumption.
  replace (len (Features.window_behind zero_emb first_frame (first_frame :: rest)
                  (Generator.frame_idx s)) =? 16) with true; [reflexivity|].
  unfold Features.window_behind, len. now rewrite length_map, length_seq.
Qed.

(** Twenty embeddings 1..20 and frame 10: the context is seven times
    embedding 1, then 2..10, where the window around the frame is 3..18. *)
Lemma streaming_context_lies_behind_the_frame_witness :
  let embeddings := map Z.of_nat (seq 1 20) in
  let s := {| Generator.frame_idx := 10;
              Generator.audio_features_cache := repeat 1 8 ++ embeddings;
              Generator.retry_count := 0;
              Generator.img_idx := None; Generator.step_stride := None |} in
  Generator.render 0 (fun _ ctx => Ok ctx)
    {| Generator.class_of := Generator.EnhancedFrameGenerationService;
       Generator._source_frames := None |} false None s
  = Ok ([1; 1; 1; 1; 1; 1; 1; 2; 3; 4; 5; 6; 7; 8; 9; 10], None, None) /\
  Features.centred_window 0 embeddings 10
  = [3; 4; 5; 6; 7; 8; 9; 10; 11; 12; 13; 14; 15; 16; 17; 18].
Proof.
  intros embeddings s. split; [|reflexivity].
  rewrite (streaming_context_lies_behind_the_frame Z (list Z) 0 (fun _ ctx => Ok ctx)
             _ None 1 (map Z.of_nat (seq 2 19)) s).
  - reflexivity.
  - reflexivity.
  - vm_compute. split; [discriminate | reflexivity].
Defined.

(** The same in a whole session: 92 mel rows give 20 frames; with a network
    that returns its audio context, the frame of index 10 is that window. *)
Lemma streaming_session_contexts :
  exists evs,
    Generator.generate_frames 0
      (fun w => Ok (1 + hd 0 w / 4)) (Ok []) (Ok tt) (fun _ ctx => Ok ctx) 30
      {| Generator.class_of := Generator.EnhancedFrameGenerationService;
         Generator._source_frames := None |}
      (Ok true) (Ok (map Z.of_nat (seq 0 92)))
    = Some (evs, Generator.Returned) /\
    length evs = 21%nat /\
    nth 11 evs (Generator.Sleep 0)
    = Generator.Yield [1; 1; 1; 1; 1; 1; 1; 2; 3; 4; 5; 6; 7; 8; 9; 10] /\
    nth 1 evs (Generator.Sleep 0)
    = Generator.Yield [0; 0; 0; 0; 0; 0; 0; 0; 1; 1; 1; 1; 1; 1; 1; 1].
Proof.
  eexists. split; [vm_compute; reflexivity|].
  split; [reflexivity|]. split; reflexivity.
Qed.

(** C3 (as the code has it).  The handler of the streaming phase logs and
    re-raises.  When the placeholder, the preparation and the first chunk
    succeed, and a pass of the loop raises [e] after [k] passes that emitted
    [evs], the consumer receives the placeholder, then [evs], and then the
    exception [e]: the frames already yielded stay as they are, and the
    iteration ends by raising, in [generate_frames_from_audio] as in
    [generate_frames]. *)
Theorem streaming_error_is_raised_to_the_consumer
  (mel_row emb frame : Type) (zero_emb : emb)
  (audio_encoder : list mel_row -> res emb)
  (static_jpeg : res frame) (preprocess : res unit)
  (net : option Z -> list emb -> res frame)
  (self : Generator.service) (motion : bool)
  (mel_tensor : list mel_row) (chunk : list emb) (f0 : frame)
  (k fuel : nat) (s : Generator.state emb)
  (evs : list (Generator.event frame)) (e : exn) :
  Generator.static_frame static_jpeg self = Ok f0 ->
  preprocess = Ok tt ->
  Generator.encode_range audio_encoder mel_tensor 0
    (Z.min 50 (Generator.num_frames (len mel_tensor))) = Ok chunk ->
  Generator.run_passes zero_emb audio_encoder net k self motion None mel_tensor
    (Generator.initial_state chunk) = Some (evs, s) ->
  Generator.frame_idx s < Generator.num_frames (len mel_tensor) ->
  Generator.pass zero_emb audio_encoder net self motion None mel_tensor s
    = Generator.Error e ->
  (k < fuel)%nat ->
  (motion = true ->
   Generator.generate_frames_from_audio zero_emb audio_encoder static_jpeg
     preprocess net fuel self (Ok mel_tensor)
   = Some (Generator.Yield f0 :: evs, Generator.Raised e)) /\
  (motion = false ->
   Generator.getattr (Generator.class_of self) Generator._calculate_adjusted_fps = Ok tt ->
   Generator.generate_frames zero_emb audio_encoder static_jpeg
     preprocess net fuel self (Ok true) (Ok mel_tensor)
   = Some (Generator.Yield f0 :: evs, Generator.Raised e)).
Proof.
  intros Hs Hp Hc Hk Hlt He Hfuel.
  pose proof (loop_raises _ _ _ zero_emb audio_encoder net self motion None
                mel_tensor k fuel _ s evs e Hk Hlt He Hfuel) as Hloop.
  split.
  - intros ->.
    unfold Generator.generate_frames_from_audio, Generator.after_static_frame.
    rewrite Hs, Hp, log_and_raise_id.
    rewrite (stream_unfold _ _ _ zero_emb audio_encoder net fuel self true
               mel_tensor chunk Hc), Hloop.
    reflexivity.
  - intros -> Hattr.
    unfold Generator.generate_frames, Generator.after_static_frame.
    rewrite Hs, Hp, Hattr, log_and_raise_id.
    rewrite (stream_unfold _ _ _ zero_emb audio_encoder net fuel self false
               mel_tensor chunk Hc), Hloop.
    reflexivity.
Qed.

(** Three frames (24 mel rows), and a network that fails as soon as the
    eighth row of its context is not a zero row, which is at frame 1. *)
Lemma streaming_error_is_raised_to_the_consumer_witness :
  Generator.generate_frames 0
    (fun w => Ok (1 + hd 0 w / 4)) (Ok [])  (Ok tt)
    (fun _ ctx => if nth 7 ctx 0 =? 0 then Ok ctx else Raise (External 7)) 5
    {| Generator.class_of := Generator.EnhancedFrameGenerationService;
       Generator._source_frames := None |}
    (Ok true) (Ok (map Z.of_nat (seq 0 24)))
  = Some ([Generator.Yield [];
           Generator.Yield [0; 0; 0; 0; 0; 0; 0; 0; 1; 1; 1; 1; 1; 1; 1; 1]],
          Generator.Raised (External 7)).
Proof.
  refine (proj2 (streaming_error_is_raised_to_the_consumer Z Z (list Z) 0
            (fun w => Ok (1 + hd 0 w / 4)) (Ok []) (Ok tt)
            (fun _ ctx => if nth 7 ctx 0 =? 0 then Ok ctx else Raise (External 7))
            {| Generator.class_of := Generator.EnhancedFrameGenerationService;
               Generator._source_frames := None |}
            false (map Z.of_nat (seq 0 24)) [1; 2; 3] [] 1 5
            {| Generator.frame_idx := 1;
               Generator.audio_features_cache := repeat 1 8 ++ [1; 2; 3];
               Generator.retry_count := 0;
               Generator.img_idx := None; Generator.step_stride := None |}
            [Generator.Yield [0; 0; 0; 0; 0; 0; 0; 0; 1; 1; 1; 1; 1; 1; 1; 1]]
            (External 7) _ _ _ _ _ _ _) _ _);
    try reflexivity; try (vm_compute; reflexivity); lia.
Defined.

(** C3, counterexample.  The network fails at the second animated frame: the
    consumer gets the placeholder and one frame, and then the exception. *)
Lemma inference_failure_reaches_the_consumer :
  Generator.generate_frames 0
    (fun w => Ok (1 + hd 0 w / 4)) (Ok 100) (Ok tt)
    (fun _ ctx => if nth 7 ctx 0 =? 0 then Ok (nth 8 ctx 0) else Raise (External 7)) 20
    {| Generator.class_of := Generator.EnhancedFrameGenerationService;
       Generator._source_frames := None |}
    (Ok true) (Ok (map Z.of_nat (seq 0 40)))
  = Some ([Generator.Yield 100; Generator.Yield 1], Generator.Raised (External 7)) /\
  Generator.num_frames 40 = 7.
Proof. split; vm_compute; reflexivity. Qed.

(** C8.  When the context of the current frame is unavailable (the loop has
    a frame to make, asks for no more features, and the cache does not reach
    the frame), the loop pauses 50 ms once per retry and breaks at the tenth:
    from [retry_count] 0 that is nine pauses, no frame, and the generator
    returns.  And from every state the loop ends within ten passes per frame
    still to make. *)
Theorem retry_budget_ends_the_session
  (mel_row emb frame : Type) (zero_emb : emb)
  (audio_encoder : list mel_row -> res emb)
  (net : option Z -> list emb -> res frame)
  (self : Generator.service) (motion : bool) (len_img : option Z)
  (mel_tensor : list mel_row) (s : Generator.state emb) (fuel : nat) :
  0 <= Generator.retry_count s <= 9 ->
  (Generator.context_unavailable mel_tensor s = true -> (10 <= fuel)%nat ->
   Generator.loop zero_emb audio_encoder net fuel self motion len_img mel_tensor s
   = Some (repeat (Generator.Sleep 50) (Z.to_nat (9 - Generator.retry_count s)),
           Generator.Returned)) /\
  (exists r,
     Generator.loop zero_emb audio_encoder net
       (S (Z.to_nat (10 * Z.max 0 (Generator.num_frames (len mel_tensor)
                                   - Generator.frame_idx s) + 10)))
       self motion len_img mel_tensor s = Some r).
Proof.
  intro Hrc. split.
  - intros Hu Hfuel. apply retries_then_break; [exact Hu | lia | lia].
  - apply loop_total; [exact Hrc | lia].
Qed.

(** 232 mel rows are 55 frames; the first chunk is 50 embeddings, and at
    frame 50 the cache of 58 entries asks for no more. *)
Lemma retry_budget_ends_the_session_witness :
  Generator.loop 0 (fun w : list Z => Ok (hd 0 w)) (fun _ _ => Ok 1) 10
    {| Generator.class_of := Generator.EnhancedFrameGenerationService;
       Generator._source_frames := None |} false None
    (map Z.of_nat (seq 0 232))
    {| Generator.frame_idx := 50;
       Generator.audio_features_cache := repeat 0 58;
       Generator.retry_count := 0;
       Generator.img_idx := None; Generator.step_stride := None |}
  = Some (repeat (Generator.Sleep 50) 9, Generator.Returned).
Proof.
  apply (proj1 (retry_budget_ends_the_session Z Z Z 0
                  (fun w : list Z => Ok (hd 0 w)) (fun _ _ => Ok 1)
                  {| Generator.class_of := Generator.EnhancedFrameGenerationService;
                     Generator._source_frames := None |} false None
                  (map Z.of_nat (seq 0 232))
                  {| Generator.frame_idx := 50;
                     Generator.audio_features_cache := repeat 0 58;
                     Generator.retry_count := 0;
                     Generator.img_idx := None; Generator.step_stride := None |}
                  10 ltac:(cbn; lia)));
    [vm_compute; reflexivity | lia].
Defined.

(** Such a session from its start: the placeholder, the frames 0..49, nine
    pauses, and the generator returns without the frames 50..54. *)
Lemma session_of_55_frames :
  Generator.generate_frames 0 (fun w : list Z => Ok (hd 0 w)) (Ok 0) (Ok tt)
    (fun _ _ => Ok 1) 100
    {| Generator.class_of := Generator.EnhancedFrameGenerationService;
       Generator._source_frames := None |}
    (Ok true) (Ok (map Z.of_nat (seq 0 232)))
  = Some (Generator.Yield 0 :: repeat (Generator.Yield 1) 50
            ++ repeat (Generator.Sleep 50) 9, Generator.Returned) /\
  Generator.num_frames 232 = 55.
Proof. split; vm_compute; reflexivity. Qed.

(** C10 (as the code has it).  On an instance of the base class itself,
    [generate_frames_from_audio] raises [AttributeError] before the
    placeholder: [generate_static_frame] calls [_encode_high_quality_jpeg],
    which only the enhanced class defines.  Run on an instance of the
    enhanced class (its fallback without source frames), it yields the
    placeholder and then, once the preparation and the first chunk have
    succeeded, raises [UnboundLocalError], a [NameError], at [img_idx] before
    any animated frame; so does the enhanced method itself. *)
Theorem base_generate_frames_from_audio_outcome
  (mel_row emb frame : Type) (zero_emb : emb)
  (audio_encoder : list mel_row -> res emb)
  (static_jpeg : res frame) (preprocess : res unit)
  (net : option Z -> list emb -> res frame)
  (self : Generator.service) (mel : res (list mel_row)) (fuel : nat) :
  (Generator.class_of self = Generator.FrameGenerationService ->
   Generator.generate_frames_from_audio zero_emb audio_encoder static_jpeg
     preprocess net fuel self mel
   = Some ([], Generator.Raised AttributeError)) /\
  (Generator.class_of self = Generator.EnhancedFrameGenerationService ->
   forall f0 mel_tensor chunk,
     static_jpeg = Ok f0 -> preprocess = Ok tt -> mel = Ok mel_tensor ->
     Generator.encode_range audio_encoder mel_tensor 0
       (Z.min 50 (Generator.num_frames (len mel_tensor))) = Ok chunk ->
     (0 < fuel)%nat ->
     Generator.generate_frames_from_audio zero_emb audio_encoder static_jpeg
       preprocess net fuel self mel
     = Some ([Generator.Yield f0], Generator.Raised UnboundLocalError) /\
     Generator.enhanced_generate_frames_from_audio zero_emb audio_encoder static_jpeg
       preprocess net fuel self mel
     = Some ([Generator.Yield f0], Generator.Raised UnboundLocalError)) /\
  is_NameError UnboundLocalError = true /\
  is_NameError AttributeError = false.
Proof.
  split; [|split; [|split; reflexivity]].
  - intro Hcls.
    unfold Generator.generate_frames_from_audio, Generator.after_static_frame,
      Generator.static_frame, Generator.getattr.
    rewrite Hcls. reflexivity.
  - intros Hcls f0 mel_tensor chunk Hs Hp Hm Hc Hfuel.
    assert (Generator.static_frame static_jpeg self = Ok f0) as Hstat
      by (unfold Generator.static_frame, Generator.getattr; rewrite Hcls; exact Hs).
    assert (Generator.frame_idx (Generator.initial_state chunk)
            < Generator.num_frames (len mel_tensor)) as Hlt
      by (cbn; unfold Generator.num_frames; lia).
    pose proof (loop_raises _ _ _ zero_emb audio_encoder net self true None
                  mel_tensor 0 fuel (Generator.initial_state chunk)
                  (Generator.initial_state chunk) [] UnboundLocalError
                  eq_refl Hlt
                  (first_pass_unbound _ _ _ zero_emb audio_encoder net self
                     mel_tensor chunk Hc) Hfuel) as Hloop.
    assert (Generator.generate_frames_from_audio zero_emb audio_encoder static_jpeg
              preprocess net fuel self mel
            = Some ([Generator.Yield f0], Generator.Raised UnboundLocalError)) as Hbase.
    { unfold Generator.generate_frames_from_audio, Generator.after_static_frame.
      rewrite Hstat, Hp, Hm, log_and_raise_id.
      rewrite (stream_unfold _ _ _ zero_emb audio_encoder net fuel self true
                 mel_tensor chunk Hc), Hloop.
      reflexivity. }
    split; [exact Hbase|].
    unfold Generator.enhanced_generate_frames_from_audio.
    destruct (Generator.no_source_frames self); [exact Hbase|].
    unfold Generator.after_static_frame.
    rewrite Hstat, Hm, log_and_raise_id.
    rewrite (stream_unfold _ _ _ zero_emb audio_encoder net fuel self true
               mel_tensor chunk Hc), Hloop.
    reflexivity.
Qed.

(** An enhanced service without source frames, on 92 mel rows. *)
Lemma base_generate_frames_from_audio_outcome_witness :
  Generator.generate_frames_from_audio 0
    (fun w : list Z => Ok (hd 0 w)) (Ok 100) (Ok tt) (fun _ _ => Ok 1) 5
    {| Generator.class_of := Generator.EnhancedFrameGenerationService;
       Generator._source_frames := None |}
    (Ok (map Z.of_nat (seq 0 92)))
  = Some ([Generator.Yield 100], Generator.Raised UnboundLocalError).
Proof.
  refine (proj1 (proj1 (proj2 (base_generate_frames_from_audio_outcome Z Z Z 0
            (fun w : list Z => Ok (hd 0 w)) (Ok 100) (Ok tt) (fun _ _ => Ok 1)
            {| Generator.class_of := Generator.EnhancedFrameGenerationService;
               Generator._source_frames := None |}
            (Ok (map Z.of_nat (seq 0 92))) 5))
          eq_refl 100 (map Z.of_nat (seq 0 92))
          (map (fun i => 4 * Z.of_nat i) (seq 0 20))
          eq_refl eq_refl eq_refl _ _));
    [vm_compute; reflexivity | lia].
Defined.

(** C10, counterexample.  An instance of the base class: no placeholder is
    yielded, and the exception is an [AttributeError], not a [NameError]. *)
Lemma base_instance_fails_before_placeholder :
  Generator.generate_frames_from_audio 0
    (fun w : list Z => Ok (hd 0 w)) (Ok 100) (Ok tt) (fun _ _ => Ok 1) 5
    {| Generator.class_of := Generator.FrameGenerationService;
       Generator._source_frames := None |}
    (Ok (map Z.of_nat (seq 0 92)))
  = Some ([], Generator.Raised AttributeError) /\
  is_NameError AttributeError = false /\
  Generator.num_frames 92 = 20.
Proof. repeat split. Qed.

(* ------------------------------------------------------------------ *)
(** ** Further properties of the streaming generators *)

Section ChunkFacts.

Variables mel_row emb : Type.
Variable audio_encoder : list mel_row -> res emb.

Lemma mapM_ext {A B} (f g : A -> res B) (l : list A) :
  (forall x, In x l -> f x = g x) -> Generator.mapM f l = Generator.mapM g l.
Proof.
  induction l as [|x t IH]; intro H; [reflexivity|].
  cbn [Generator.mapM]. rewrite (H x) by now left.
  rewrite IH; [reflexivity|]. intros y Hy. apply H. now right.
Qed.

Lemma in_range (lo hi i : Z) : In i (Generator.range lo hi) -> lo <= i < hi.
Proof.
  unfold Generator.range. intro H. apply in_map_iff in H.
  destruct H as (k & <- & Hk). apply in_seq in Hk. lia.
Qed.

(** With at least 16 mel rows every window of the streaming loop lies
    inside the spectrogram: the clamp of [mel_idx] never applies, and window
    [i] is the rows [4 i .. 4 i + 15]. *)
Lemma streaming_windows_fit (mel_tensor : list mel_row) (lo hi : Z) :
  16 <= len mel_tensor ->
  0 <= lo -> hi <= Generator.num_frames (len mel_tensor) ->
  Generator.encode_range audio_encoder mel_tensor lo hi
  = Generator.mapM (fun i => audio_encoder (slice mel_tensor (4 * i) (4 * i + 16)))
      (Generator.range lo hi) /\
  (forall i, lo <= i < hi ->
     length (slice mel_tensor (4 * i) (4 * i + 16)) = 16%nat).
Proof.
  intros Hn Hlo Hhi.
  assert (forall i, lo <= i < hi -> 0 <= 4 * i /\ 4 * i + 16 <= len mel_tensor) as Hfit.
  { intros i Hi. unfold Generator.num_frames in Hhi.
    assert (0 <= (len mel_tensor - 16) / 4) by (apply Z.div_pos; lia).
    pose proof (Z.mul_div_le (len mel_tensor - 16) 4 ltac:(lia)). lia. }
  split.
  - unfold Generator.encode_range. apply mapM_ext. intros i Hi.
    apply in_range in Hi. destruct (Hfit i Hi) as [H0 H1].
    destruct (Z.gtb_spec (i * 4 + 16) (len mel_tensor)); [lia|].
    now rewrite (Z.mul_comm i 4).
  - intros i Hi. destruct (Hfit i Hi) as [H0 H1].
    rewrite slice_length by lia. lia.
Qed.

End ChunkFacts.

Section WholeSessions.

Variables mel_row emb frame : Type.
Variable zero_emb : emb.
Variable audio_encoder : list mel_row -> res emb.
Variable static_jpeg : res frame.
Variable preprocess : res unit.
Variable net : option Z -> list emb -> res frame.
Variable self : Generator.service.
Variable mel_tensor : list mel_row.

(** The network never fails on the template image: [g] is what it returns. *)
Variable g : list emb -> frame.
Hypothesis net_total : forall ctx, net None ctx = Ok (g ctx).

Variable first_frame : emb.
Variable rest : list emb.

Let chunk := first_frame :: rest.
Let n := Generator.num_frames (len mel_tensor).

Hypothesis chunk_length : len chunk = Z.min 50 n.
Hypothesis at_most_58 : n <= 58.

(** The state of the loop at frame [k]. *)
Let at_frame (k : Z) : Generator.state emb :=
  {| Generator.frame_idx := k;
     Generator.audio_features_cache := repeat first_frame 8 ++ chunk;
     Generator.retry_count := 0;
     Generator.img_idx := None; Generator.step_stride := None |}.

(** The frame that the loop makes for index [k]. *)
Let frame_of (k : Z) : Generator.event frame :=
  Generator.Yield (g (Features.window_behind zero_emb first_frame chunk k)).

Lemma cache_length : len (repeat first_frame 8 ++ chunk) = 8 + len chunk.
Proof. unfold len. rewrite length_app, repeat_length. lia. Qed.

Lemma pass_emits (k : Z) :
  0 <= k < len chunk ->
  Generator.pass zero_emb audio_encoder net self false None mel_tensor (at_frame k)
  = Generator.Next [frame_of k] (at_frame (k + 1)).
Proof.
  intro Hk. unfold Generator.pass, at_frame.
  cbn [Generator.frame_idx Generator.audio_features_cache Generator.retry_count
       Generator.img_idx Generator.step_stride].
  fold n. rewrite cache_length.
  destruct (Z.ltb_spec (8 + len chunk - 8 + 8) (Z.min (k + 10) n)); [lia|].
  rewrite cache_length.
  destruct (Z.geb_spec k (8 + len chunk - 8)); [lia|].
  unfold Generator.render.
  cbn [bind Generator.frame_idx Generator.audio_features_cache
       Generator.img_idx Generator.step_stride].
  unfold chunk in *.
  rewrite cache_context by assumption.
  replace (len (Features.window_behind zero_emb first_frame (first_frame :: rest) k)
           =? 16) with true
    by (unfold Features.window_behind, len; now rewrite length_map, length_seq).
  rewrite net_total. reflexivity.
Qed.

(** What follows the frames of the first chunk: nothing when they are all
    the frames, nine pauses otherwise. *)
Let tail : list (Generator.event frame) :=
  if n <=? 50 then [] else repeat (Generator.Sleep 50) 9.

Lemma loop_from_frame (j : nat) :
  forall k fuel,
    0 <= k -> k + Z.of_nat j = len chunk -> (j + 10 <= fuel)%nat ->
    Generator.loop zero_emb audio_encoder net fuel self false None mel_tensor (at_frame k)
    = Some (map (fun i => frame_of (k + Z.of_nat i)) (seq 0 j) ++ tail,
            Generator.Returned).
Proof.
  induction j as [|j IH]; intros k fuel Hk Hj Hfuel.
  - cbn [seq map app]. unfold tail.
    destruct (Z.leb_spec n 50).
    + destruct fuel as [|fuel]; [lia|].
      apply loop_done. cbn [Generator.frame_idx at_frame]. fold n. lia.
    + apply (retries_then_break _ _ _ zero_emb audio_encoder net self false None
               mel_tensor 9).
      * unfold Generator.context_unavailable, at_frame.
        cbn [Generator.frame_idx Generator.audio_features_cache].
        fold n. rewrite cache_length.
        destruct (Z.ltb_spec k n); [|lia].
        destruct (Z.ltb_spec (8 + len chunk) (Z.min (k + 10) n)); [lia|].
        destruct (Z.geb_spec k (8 + len chunk - 8)); [reflexivity | lia].
      * reflexivity.
      * lia.
  - destruct fuel as [|fuel]; [lia|].
    rewrite loop_step by (cbn [Generator.frame_idx at_frame]; fold n; lia).
    rewrite pass_emits by lia.
    rewrite (IH (k + 1) fuel) by lia.
    cbn [option_map]. unfold Generator.prepend. cbn [fst snd app seq map].
    rewrite Z.add_0_r. do 4 f_equal.
    rewrite <- seq_shift, map_map. apply map_ext. intro i. f_equal. lia.
Qed.

End WholeSessions.

(** ** The number of frames of a speech session *)

(** The streaming count against the count of the offline pipeline: one
    frame per 4 mel frames is always fewer than [fps / 80] frames per mel
    frame plus 2, from 20 fps on. *)
Lemma num_frames_below_frame_count (n fps : Z) :
  16 <= n -> 20 <= fps -> Generator.num_frames n < frame_count_spec n fps.
Proof.
  intros Hn Hfps. unfold Generator.num_frames, frame_count_spec.
  assert (0 <= (n - 16) / 4) by (apply Z.div_pos; lia).
  rewrite Z.max_r by lia.
  assert ((n - 16) / 4 <= (n - 16) * fps / 80); [|lia].
  replace ((n - 16) / 4) with ((n - 16) * 20 / 80).
  - apply Z.div_le_mono; [lia | nia].
  - replace 80 with (20 * 4) by reflexivity.
    rewrite <- Z.div_div by lia. now rewrite Z.div_mul by lia.
Qed.

(** C2 (as the code has it).  In speech mode the frame loop runs while
    [frame_idx < num_frames], with
    [num_frames = max(1, (n_mel_frames - 16) // 4 + 1)]: one frame per step of
    4 mel frames, whatever the frame rate.  From 16 mel frames on this is the
    number of windows of 16 mel frames at a stride of 4 that fit, and it is
    less than [floor((n_mel_frames - 16) / 80 * fps) + 2] for every [fps] from
    20 on.  The loop is over as soon as [frame_idx] has reached [num_frames],
    and a session of at most 50 frames in which nothing fails yields exactly
    [num_frames] frames after the placeholder. *)
Theorem speech_mode_frame_count
  (mel_row emb frame : Type) (zero_emb : emb)
  (audio_encoder : list mel_row -> res emb)
  (static_jpeg : res frame) (preprocess : res unit)
  (net : option Z -> list emb -> res frame) (g : list emb -> frame)
  (self : Generator.service) (mel_tensor : list mel_row)
  (first_frame : emb) (rest : list emb) (f0 : frame) (fuel : nat) (fps : Z) :
  let n := len mel_tensor in
  Generator.num_frames n = Z.max 1 ((n - 16) / 4 + 1) /\
  (16 <= n ->
   4 * (Generator.num_frames n - 1) + 16 <= n < 4 * Generator.num_frames n + 16) /\
  (16 <= n -> 20 <= fps -> Generator.num_frames n < frame_count_spec n fps) /\
  (forall (motion : bool) (len_img : option Z) (s : Generator.state emb),
     Generator.num_frames n <= Generator.frame_idx s ->
     Generator.loop zero_emb audio_encoder net (S fuel) self motion len_img mel_tensor s
     = Some ([], Generator.Returned)) /\
  (Generator.static_frame static_jpeg self = Ok f0 ->
   preprocess = Ok tt ->
   Generator.getattr (Generator.class_of self) Generator._calculate_adjusted_fps
   = Ok tt ->
   Generator.encode_range audio_encoder mel_tensor 0
     (Z.min 50 (Generator.num_frames n)) = Ok (first_frame :: rest) ->
   (forall ctx, net None ctx = Ok (g ctx)) ->
   Generator.num_frames n <= 50 ->
   (Z.to_nat (Generator.num_frames n) + 10 <= fuel)%nat ->
   exists frames,
     Generator.generate_frames zero_emb audio_encoder static_jpeg preprocess net
       fuel self (Ok true) (Ok mel_tensor)
     = Some (Generator.Yield f0 :: map (@Generator.Yield frame) frames,
             Generator.Returned) /\
     len frames = Generator.num_frames n).
Proof.
  intro n. split; [reflexivity|]. split; [|split; [|split]].
  - intro Hn. unfold Generator.num_frames.
    assert (0 <= (n - 16) / 4) by (apply Z.div_pos; lia).
    rewrite Z.max_r by lia.
    pose proof (Z.div_mod (n - 16) 4 ltac:(lia)).
    pose proof (Z.mod_pos_bound (n - 16) 4 ltac:(lia)). lia.
  - apply num_frames_below_frame_count.
  - intros motion len_img s Hs. now apply loop_done.
  - intros Hs Hp Hattr Hc Hnet Hn Hfuel.
    destruct (first_chunk_length _ _ audio_encoder mel_tensor _ Hc) as [Hlen Hpos].
    pose proof (loop_from_frame mel_row emb frame zero_emb audio_encoder net self
                  mel_tensor g Hnet first_frame rest Hlen ltac:(fold n; lia)
                  (Z.to_nat (Generator.num_frames n)) 0 fuel
                  (Z.le_refl 0) ltac:(fold n in Hlen; lia) Hfuel) as Hloop.
    exists (map (fun k => g (Features.window_behind zero_emb first_frame
                               (first_frame :: rest) (Z.of_nat k)))
                (seq 0 (Z.to_nat (Generator.num_frames n)))).
    split.
    + unfold Generator.generate_frames, Generator.after_static_frame.
      rewrite Hs, Hp, Hattr, log_and_raise_id.
      rewrite (stream_unfold _ _ _ zero_emb audio_encoder net fuel self false
                 mel_tensor _ Hc).
      change (Generator.initial_state (first_frame :: rest))
        with {| Generator.frame_idx := 0;
                Generator.audio_features_cache :=
                  repeat first_frame 8 ++ first_frame :: rest;
                Generator.retry_count := 0;
                Generator.img_idx := None; Generator.step_stride := None |}.
      rewrite Hloop. fold n.
      destruct (Z.leb_spec (Generator.num_frames n) 50); [|lia].
      cbn [option_map]. unfold Generator.prepend. cbn [fst snd app].
      rewrite app_nil_r, map_map. reflexivity.
    + unfold len. rewrite length_map, length_seq.
      unfold Generator.num_frames. lia.
Qed.

(** A spectrogram of 100 mel frames: 22 frames. *)
Lemma speech_mode_frame_count_witness :
  exists frames,
    Generator.generate_frames 0 (fun w : list Z => Ok (hd 0 w)) (Ok 0) (Ok tt)
      (fun _ ctx => Ok (hd 0 ctx)) 40
      {| Generator.class_of := Generator.EnhancedFrameGenerationService;
         Generator._source_frames := None |}
      (Ok true) (Ok (map Z.of_nat (seq 0 100)))
    = Some (Generator.Yield 0 :: map (@Generator.Yield Z) frames, Generator.Returned) /\
    len frames = 22.
Proof.
  destruct (speech_mode_frame_count Z Z Z 0 (fun w : list Z => Ok (hd 0 w)) (Ok 0)
              (Ok tt) (fun _ ctx => Ok (hd 0 ctx)) (fun ctx => hd 0 ctx)
              {| Generator.class_of := Generator.EnhancedFrameGenerationService;
                 Generator._source_frames := None |}
              (map Z.of_nat (seq 0 100)) 0
              (map (fun i => 4 * Z.of_nat i) (seq 1 21)) 0 40 25)
    as (_ & _ & _ & _ & Hsession).
  destruct Hsession as (frames & Hrun & Hlen).
  - reflexivity.
  - reflexivity.
  - reflexivity.
  - vm_compute. reflexivity.
  - reflexivity.
  - vm_compute. discriminate.
  - vm_compute. lia.
  - exists frames. split; [exact Hrun | exact Hlen].
Defined.

(** C2, counterexample.  For a spectrogram of 100 mel frames the claim
    gives [floor((100 - 16) / 80 * 25) + 2 = 28] frames, the value of the
    offline [get_frame_count] and of [AudDataset]'s [data_len]; the speech
    session counts [max(1, (100 - 16) // 4 + 1) = 22] and yields 22 frames
    after the placeholder.  For 232 mel frames the claim gives 69, the session
    counts 55 and yields 50. *)
Lemma speech_session_frame_counts :
  frame_count_spec 100 25 = 28 /\
  MelSpectrogramProcessor.get_frame_count 100 25 = Ok 28 /\
  AudDataset.data_len 100 = Ok 28 /\
  Generator.num_frames 100 = 22 /\
  Generator.generate_frames 0 (fun w : list Z => Ok (hd 0 w)) (Ok 0) (Ok tt)
    (fun _ _ => Ok 1) 40
    {| Generator.class_of := Generator.EnhancedFrameGenerationService;
       Generator._source_frames := None |}
    (Ok true) (Ok (map Z.of_nat (seq 0 100)))
  = Some (Generator.Yield 0 :: repeat (Generator.Yield 1) 22, Generator.Returned) /\
  frame_count_spec 232 25 = 69 /\
  Generator.num_frames 232 = 55 /\
  Generator.generate_frames 0 (fun w : list Z => Ok (hd 0 w)) (Ok 0) (Ok tt)
    (fun _ _ => Ok 1) 100
    {| Generator.class_of := Generator.EnhancedFrameGenerationService;
       Generator._source_frames := None |}
    (Ok true) (Ok (map Z.of_nat (seq 0 232)))
  = Some (Generator.Yield 0 :: repeat (Generator.Yield 1) 50
            ++ repeat (Generator.Sleep 50) 9, Generator.Returned).
Proof.
  split; [|split; [|split; [|split; [|split; [|split; [|split]]]]]];
    vm_compute; reflexivity.
Qed.

(** With at least 16 mel rows, every window that the streaming loop encodes,
    [0 <= i < num_frames], is the 16 rows [4 i .. 4 i + 15] of the
    spectrogram: the clamp [mel_idx = shape[0] - context_size] never applies,
    and no window is short. *)
Theorem streaming_windows_inside_spectrogram
  (mel_row emb : Type) (audio_encoder : list mel_row -> res emb)
  (mel_tensor : list mel_row) (lo hi : Z) :
  16 <= len mel_tensor ->
  0 <= lo -> hi <= Generator.num_frames (len mel_tensor) ->
  Generator.encode_range audio_encoder mel_tensor lo hi
  = Generator.mapM (fun i => audio_encoder (slice mel_tensor (4 * i) (4 * i + 16)))
      (Generator.range lo hi) /\
  (forall i, lo <= i < hi ->
     length (slice mel_tensor (4 * i) (4 * i + 16)) = 16%nat) /\
  Generator.num_frames (len mel_tensor) = (len mel_tensor - 16) / 4 + 1.
Proof.
  intros Hn Hlo Hhi.
  destruct (streaming_windows_fit mel_row emb audio_encoder mel_tensor lo hi Hn Hlo Hhi)
    as [H1 H2].
  split; [exact H1|]. split; [exact H2|].
  unfold Generator.num_frames.
  assert (0 <= (len mel_tensor - 16) / 4) by (apply Z.div_pos; lia). lia.
Qed.

(** 100 mel rows: 22 windows, the last one the rows 84..99. *)
Lemma streaming_windows_inside_spectrogram_witness :
  Generator.encode_range (fun w : list Z => Ok (hd 0 w, len w))
    (map Z.of_nat (seq 0 100)) 20 22
  = Ok [(80, 16); (84, 16)] /\
  Generator.num_frames 100 = 22.
Proof.
  destruct (streaming_windows_inside_spectrogram Z (Z * Z)
              (fun w : list Z => Ok (hd 0 w, len w))
              (map Z.of_nat (seq 0 100)) 20 22) as (H1 & _ & H3);
    [vm_compute; discriminate | lia | vm_compute; discriminate |].
  split; [rewrite H1; reflexivity | reflexivity].
Defined.

(** A session of at most 50 frames in which nothing fails: [generate_frames]
    yields the placeholder and then one frame for each index
    [0 .. num_frames - 1], the frame of index [k] made from the window behind
    [k], and returns. *)
Theorem session_of_one_chunk
  (mel_row emb frame : Type) (zero_emb : emb)
  (audio_encoder : list mel_row -> res emb)
  (static_jpeg : res frame) (preprocess : res unit)
  (net : option Z -> list emb -> res frame) (g : list emb -> frame)
  (self : Generator.service) (mel_tensor : list mel_row)
  (first_frame : emb) (rest : list emb) (f0 : frame) (fuel : nat) :
  Generator.static_frame static_jpeg self = Ok f0 ->
  preprocess = Ok tt ->
  Generator.getattr (Generator.class_of self) Generator._calculate_adjusted_fps = Ok tt ->
  Generator.encode_range audio_encoder mel_tensor 0
    (Z.min 50 (Generator.num_frames (len mel_tensor))) = Ok (first_frame :: rest) ->
  (forall ctx, net None ctx = Ok (g ctx)) ->
  Generator.num_frames (len mel_tensor) <= 50 ->
  (Z.to_nat (Generator.num_frames (len mel_tensor)) + 10 <= fuel)%nat ->
  Generator.generate_frames zero_emb audio_encoder static_jpeg preprocess net
    fuel self (Ok true) (Ok mel_tensor)
  = Some (Generator.Yield f0 ::
          map (fun k => Generator.Yield
                          (g (Features.window_behind zero_emb first_frame
                                (first_frame :: rest) (Z.of_nat k))))
              (seq 0 (Z.to_nat (Generator.num_frames (len mel_tensor)))),
          Generator.Returned).
Proof.
  intros Hs Hp Hattr Hc Hnet Hn Hfuel.
  destruct (first_chunk_length _ _ audio_encoder mel_tensor _ Hc) as [Hlen Hpos].
  pose proof (loop_from_frame mel_row emb frame zero_emb audio_encoder net self
                mel_tensor g Hnet first_frame rest Hlen ltac:(lia)
                (Z.to_nat (Generator.num_frames (len mel_tensor))) 0 fuel
                (Z.le_refl 0) ltac:(lia) Hfuel) as Hloop.
  unfold Generator.generate_frames, Generator.after_static_frame.
  rewrite Hs, Hp, Hattr, log_and_raise_id.
  rewrite (stream_unfold _ _ _ zero_emb audio_encoder net fuel self false
             mel_tensor _ Hc).
  change (Generator.initial_state (first_frame :: rest))
    with {| Generator.frame_idx := 0;
            Generator.audio_features_cache := repeat first_frame 8 ++ first_frame :: rest;
            Generator.retry_count := 0;
            Generator.img_idx := None; Generator.step_stride := None |}.
  rewrite Hloop.
  destruct (Z.leb_spec (Generator.num_frames (len mel_tensor)) 50); [|lia].
  cbn [option_map]. unfold Generator.prepend. cbn [fst snd app].
  now rewrite app_nil_r.
Qed.

(** 24 mel rows are three frames; the network returns its audio context. *)
Lemma session_of_one_chunk_witness :
  Generator.generate_frames 0 (fun w : list Z => Ok (1 + hd 0 w / 4)) (Ok [])
    (Ok tt) (fun _ ctx => Ok ctx) 20
    {| Generator.class_of := Generator.EnhancedFrameGenerationService;
       Generator._source_frames := None |}
    (Ok true) (Ok (map Z.of_nat (seq 0 24)))
  = Some ([Generator.Yield [];
           Generator.Yield [0; 0; 0; 0; 0; 0; 0; 0; 1; 1; 1; 1; 1; 1; 1; 1];
           Generator.Yield [0; 0; 0; 0; 0; 0; 0; 1; 1; 1; 1; 1; 1; 1; 1; 1];
           Generator.Yield [0; 0; 0; 0; 0; 0; 1; 1; 1; 1; 1; 1; 1; 1; 1; 2]],
          Generator.Returned).
Proof.
  rewrite (session_of_one_chunk Z Z (list Z) 0 (fun w : list Z => Ok (1 + hd 0 w / 4))
             (Ok []) (Ok tt) (fun _ ctx => Ok ctx) (fun ctx => ctx)
             {| Generator.class_of := Generator.EnhancedFrameGenerationService;
                Generator._source_frames := None |}
             (map Z.of_nat (seq 0 24)) 1 [2; 3] [] 20);
    try reflexivity; try (vm_compute; discriminate); try (vm_compute; lia).
Defined.

(** A session of 51 to 58 frames: the first chunk holds 50 embeddings, and
    with its eight copies in front the cache is never found too short to ask
    for more.  [generate_frames] yields the placeholder and the frames
    0..49, pauses nine times, and returns: the frames from 50 on are never
    made, although nothing failed. *)
Theorem session_stops_after_first_chunk
  (mel_row emb frame : Type) (zero_emb : emb)
  (audio_encoder : list mel_row -> res emb)
  (static_jpeg : res frame) (preprocess : res unit)
  (net : option Z -> list emb -> res frame) (g : list emb -> frame)
  (self : Generator.service) (mel_tensor : list mel_row)
  (first_frame : emb) (rest : list emb) (f0 : frame) (fuel : nat) :
  Generator.static_frame static_jpeg self = Ok f0 ->
  preprocess = Ok tt ->
  Generator.getattr (Generator.class_of self) Generator._calculate_adjusted_fps = Ok tt ->
  Generator.encode_range audio_encoder mel_tensor 0
    (Z.min 50 (Generator.num_frames (len mel_tensor))) = Ok (first_frame :: rest) ->
  (forall ctx, net None ctx = Ok (g ctx)) ->
  51 <= Generator.num_frames (len mel_tensor) <= 58 ->
  (60 <= fuel)%nat ->
  Generator.generate_frames zero_emb audio_encoder static_jpeg preprocess net
    fuel self (Ok true) (Ok mel_tensor)
  = Some (Generator.Yield f0 ::
          map (fun k => Generator.Yield
                          (g (Features.window_behind zero_emb first_frame
                                (first_frame :: rest) (Z.of_nat k))))
              (seq 0 50)
          ++ repeat (Generator.Sleep 50) 9,
          Generator.Returned).
Proof.
  intros Hs Hp Hattr Hc Hnet Hn Hfuel.
  destruct (first_chunk_length _ _ audio_encoder mel_tensor _ Hc) as [Hlen Hpos].
  pose proof (loop_from_frame mel_row emb frame zero_emb audio_encoder net self
                mel_tensor g Hnet first_frame rest Hlen ltac:(lia)
                50 0 fuel (Z.le_refl 0) ltac:(lia) ltac:(lia)) as Hloop.
  unfold Generator.generate_frames, Generator.after_static_frame.
  rewrite Hs, Hp, Hattr, log_and_raise_id.
  rewrite (stream_unfold _ _ _ zero_emb audio_encoder net fuel self false
             mel_tensor _ Hc).
  change (Generator.initial_state (first_frame :: rest))
    with {| Generator.frame_idx := 0;
            Generator.audio_features_cache := repeat first_frame 8 ++ first_frame :: rest;
            Generator.retry_count := 0;
            Generator.img_idx := None; Generator.step_stride := None |}.
  rewrite Hloop.
  destruct (Z.leb_spec (Generator.num_frames (len mel_tensor)) 50); [lia|].
  reflexivity.
Qed.

(** 232 mel rows are 55 frames. *)
Lemma session_stops_after_first_chunk_witness :
  Generator.generate_frames 0 (fun w : list Z => Ok (hd 0 w)) (Ok 0)
    (Ok tt) (fun _ _ => Ok 1) 60
    {| Generator.class_of := Generator.EnhancedFrameGenerationService;
       Generator._source_frames := None |}
    (Ok true) (Ok (map Z.of_nat (seq 0 232)))
  = Some (Generator.Yield 0 :: repeat (Generator.Yield 1) 50
            ++ repeat (Generator.Sleep 50) 9, Generator.Returned).
Proof.
  rewrite (session_stops_after_first_chunk Z Z Z 0 (fun w : list Z => Ok (hd 0 w))
             (Ok 0) (Ok tt) (fun _ _ => Ok 1) (fun _ => 1)
             {| Generator.class_of := Generator.EnhancedFrameGenerationService;
                Generator._source_frames := None |}
             (map Z.of_nat (seq 0 232)) 0
             (map (fun i => 4 * Z.of_nat i) (seq 1 49)) 0 60);
    try reflexivity; try (vm_compute; split; discriminate); try lia.
Defined.

(** When the loop asks for more features, at frame 49 with the 58 entries of
    the first chunk in the cache, the windows it encodes start at the length
    of the cache, copies included: window 58 comes right after window 49, and
    the windows 50..57 are never encoded. *)
Theorem refill_starts_at_cache_length
  (mel_row emb frame : Type) (zero_emb : emb)
  (audio_encoder : list mel_row -> res emb)
  (net : option Z -> list emb -> res frame) (g : list emb -> frame)
  (self : Generator.service) (len_img : option Z)
  (mel_tensor : list mel_row) (s : Generator.state emb) (chunk : list emb) :
  (forall ctx, net None ctx = Ok (g ctx)) ->
  len (Generator.audio_features_cache s) = 58 ->
  Generator.frame_idx s = 49 ->
  59 <= Generator.num_frames (len mel_tensor) ->
  Generator.mapM (fun i => audio_encoder (slice mel_tensor (4 * i) (4 * i + 16)))
    (Generator.range 58 (Z.min 108 (Generator.num_frames (len mel_tensor)))) = Ok chunk ->
  Generator.pass zero_emb audio_encoder net self false len_img mel_tensor s
  = Generator.Next
      [Generator.Yield
         (g (Features.get_audio_features zero_emb
               (Generator.audio_features_cache s ++ chunk) 49))]
      {| Generator.frame_idx := 50;
         Generator.audio_features_cache := Generator.audio_features_cache s ++ chunk;
         Generator.retry_count := 0;
         Generator.img_idx := Generator.img_idx s;
         Generator.step_stride := Generator.step_stride s |} /\
  len chunk = Z.min 108 (Generator.num_frames (len mel_tensor)) - 58.
Proof.
  intros Hnet Hcache Hk Hn Hchunk.
  set (n := Generator.num_frames (len mel_tensor)) in *.
  assert (16 <= len mel_tensor) as Hmel.
  { unfold n, Generator.num_frames in Hn.
    destruct (Z.lt_ge_cases (len mel_tensor) 16) as [Hlt|]; [|assumption].
    assert ((len mel_tensor - 16) / 4 < 0) by (apply Z.div_lt_upper_bound; lia).
    lia. }
  assert (len chunk = Z.min 108 n - 58) as Hlen.
  { apply mapM_length in Hchunk. unfold Generator.range in Hchunk.
    rewrite length_map, length_seq in Hchunk. unfold len. rewrite Hchunk. lia. }
  split; [|exact Hlen].
  destruct (streaming_windows_fit mel_row emb audio_encoder mel_tensor 58 (Z.min 108 n)
              Hmel ltac:(lia) ltac:(fold n; lia)) as [Henc _].
  unfold Generator.pass. fold n. rewrite Hcache, Hk.
  destruct (Z.ltb_spec (58 - 8 + 8) (Z.min (49 + 10) n)); [|lia].
  replace (58 - 8 + 8 + 50) with 108 by lia.
  replace (58 - 8 + 8) with 58 by lia.
  rewrite Henc, Hchunk. cbn [bind].
  assert (len (Generator.audio_features_cache s ++ chunk) = 58 + len chunk) as Hall
    by (unfold len in *; rewrite length_app; lia).
  rewrite Hall.
  destruct (Z.geb_spec 49 (58 + len chunk - 8)); [lia|].
  unfold Generator.render.
  cbn [bind Generator.frame_idx Generator.audio_features_cache
       Generator.img_idx Generator.step_stride].
  replace (len (Features.get_audio_features zero_emb
                  (Generator.audio_features_cache s ++ chunk) 49) =? 16) with true.
  - rewrite Hnet. reflexivity.
  - rewrite get_audio_features_centred by lia. reflexivity.
Qed.

(** 264 mel rows are 63 frames: the refill encodes the windows 58..62. *)
Lemma refill_starts_at_cache_length_witness :
  Generator.pass 0 (fun w : list Z => Ok (hd 0 w / 4)) (fun _ ctx => Ok ctx)
    {| Generator.class_of := Generator.EnhancedFrameGenerationService;
       Generator._source_frames := None |} false None
    (map Z.of_nat (seq 0 264))
    {| Generator.frame_idx := 49;
       Generator.audio_features_cache := repeat 0 8 ++ map Z.of_nat (seq 0 50);
       Generator.retry_count := 0;
       Generator.img_idx := None; Generator.step_stride := None |}
  = Generator.Next
      [Generator.Yield (map Z.of_nat (seq 33 16))]
      {| Generator.frame_idx := 50;
         Generator.audio_features_cache :=
           repeat 0 8 ++ map Z.of_nat (seq 0 50) ++ [58; 59; 60; 61; 62];
         Generator.retry_count := 0;
         Generator.img_idx := None; Generator.step_stride := None |}.
Proof.
  refine (eq_trans
    (proj1 (refill_starts_at_cache_length Z Z (list Z) 0
       (fun w : list Z => Ok (hd 0 w / 4)) (fun _ ctx => Ok ctx) (fun ctx => ctx)
       {| Generator.class_of := Generator.EnhancedFrameGenerationService;
          Generator._source_frames := None |} None
       (map Z.of_nat (seq 0 264))
       {| Generator.frame_idx := 49;
          Generator.audio_features_cache := repeat 0 8 ++ map Z.of_nat (seq 0 50);
          Generator.retry_count := 0;
          Generator.img_idx := None; Generator.step_stride := None |}
       [58; 59; 60; 61; 62] _ _ _ _ _)) _);
    try reflexivity; try (vm_compute; discriminate).
Defined.

(* ------------------------------------------------------------------ *)
(** ** The dynamic avatar *)

Section AvatarFacts.

Variable frame : Type.
Variable static_jpeg : res frame.
Variable encode : Z -> res frame.
Variable jpeg : Z -> frame.
Hypothesis encode_total : forall i, encode i = Ok (jpeg i).

Variable N : Z.
Hypothesis HN : 2 <= N.

Let self : Generator.service :=
  {| Generator.class_of := Generator.EnhancedFrameGenerationService;
     Generator._source_frames := Some N |}.

Lemma passes_pingpong (n : nat) :
  forall t i s, 0 <= t -> HeadMotion.cursor_at N t i s ->
  DynamicAvatar.passes encode n self (N - 1) i s
  = (map (fun k => Generator.Yield (jpeg (HeadMotion.pingpong N (t + 1 + Z.of_nat k))))
         (seq 0 n), None).
Proof.
  induction n as [|n IH]; intros t i s Ht Hc; [reflexivity|].
  cbn [DynamicAvatar.passes].
  pose proof (step_cursor N HN t i s Ht Hc) as Hstep.
  destruct (HeadMotion.step (N - 1) i s) as [i' s'].
  destruct Hstep as [Hi' Hc'].
  pose proof (pingpong_range N HN (t + 1)) as Hr. rewrite <- Hi' in Hr.
  assert (Generator.source_frame self i' = Ok i') as ->.
  { unfold Generator.source_frame, self.
    cbn [Generator.class_of Generator._source_frames].
    destruct (Z.leb_spec 0 i'); [|lia]. destruct (Z.ltb_spec i' N); [|lia].
    reflexivity. }
  assert (Generator.getattr (Generator.class_of self)
            Generator._encode_high_quality_jpeg = Ok tt) as -> by reflexivity.
  cbn [bind]. rewrite encode_total.
  rewrite (IH (t + 1) i' s') by (lia || assumption).
  cbn [seq map]. rewrite Z.add_0_r, Hi'. f_equal. f_equal.
  rewrite <- seq_shift, map_map. apply map_ext. intro k. do 3 f_equal. lia.
Qed.

End AvatarFacts.

(** With at least two source frames and an encoder that does not fail, the
    dynamic avatar never stops and never falls back to the static frame: its
    [k]-th frame (from 0) is the source frame at [pingpong N (k + 1)]. *)
Theorem dynamic_avatar_keeps_running
  (frame : Type) (static_jpeg : res frame) (encode : Z -> res frame)
  (jpeg : Z -> frame) (N : Z) (n : nat) :
  (forall i, encode i = Ok (jpeg i)) ->
  2 <= N ->
  DynamicAvatar.generate_dynamic_avatar static_jpeg encode n
    {| Generator.class_of := Generator.EnhancedFrameGenerationService;
       Generator._source_frames := Some N |}
  = (map (fun k => Generator.Yield (jpeg (HeadMotion.pingpong N (Z.of_nat k + 1))))
         (seq 0 n), None).
Proof.
  intros Henc HN. unfold DynamicAvatar.generate_dynamic_avatar.
  cbn [Generator.class_of Generator.no_source_frames Generator._source_frames].
  destruct (Z.eqb_spec N 0); [lia|].
  rewrite (passes_pingpong frame encode jpeg Henc N HN n 0 0 0 (Z.le_refl 0)
             (cursor_at_start N HN)).
  f_equal. apply map_ext. intro k. do 3 f_equal. lia.
Qed.

Lemma dynamic_avatar_keeps_running_witness :
  DynamicAvatar.generate_dynamic_avatar (Ok 100) (fun i => Ok i) 7
    {| Generator.class_of := Generator.EnhancedFrameGenerationService;
       Generator._source_frames := Some 4 |}
  = (map Generator.Yield [1; 2; 3; 2; 1; 0; 1], None).
Proof.
  rewrite (dynamic_avatar_keeps_running Z (Ok 100) (fun i => Ok i) (fun i => i) 4 7);
    [reflexivity | reflexivity | lia].
Defined.

(** With a single source frame the first frame is read at index 1: the
    [IndexError] is answered by the static frame, and the generator returns
    after that one frame. *)
Theorem dynamic_avatar_single_frame
  (frame : Type) (static_jpeg : res frame) (encode : Z -> res frame)
  (f0 : frame) (n : nat) :
  static_jpeg = Ok f0 ->
  DynamicAvatar.generate_dynamic_avatar static_jpeg encode (S n)
    {| Generator.class_of := Generator.EnhancedFrameGenerationService;
       Generator._source_frames := Some 1 |}
  = ([Generator.Yield f0], Some Generator.Returned).
Proof.
  intro Hs. unfold DynamicAvatar.generate_dynamic_avatar, Generator.static_frame.
  cbn. rewrite Hs. reflexivity.
Qed.

Lemma dynamic_avatar_single_frame_witness :
  DynamicAvatar.generate_dynamic_avatar (Ok 100) (fun i => Ok i) 5
    {| Generator.class_of := Generator.EnhancedFrameGenerationService;
       Generator._source_frames := Some 1 |}
  = ([Generator.Yield 100], Some Generator.Returned).
Proof.
  apply (dynamic_avatar_single_frame Z (Ok 100) (fun i => Ok i) 100 4). reflexivity.
Defined.

(* ------------------------------------------------------------------ *)
(** ** The encoder wrapper: batches, padding and reshaping *)

Section ReshapeFacts.

Context {X : Type}.

Lemma chunks_length (k size : nat) :
  forall l : list X, length (AudioEncoderWrapper.chunks k size l) = k.
Proof. induction k as [|k IH]; intro l; cbn; [reflexivity | now rewrite IH]. Qed.

Lemma chunks_concat (k size : nat) :
  forall l : list X, length l = (k * size)%nat ->
    concat (AudioEncoderWrapper.chunks k size l) = l.
Proof.
  induction k as [|k IH]; intros l Hl; cbn [AudioEncoderWrapper.chunks concat].
  - destruct l; [reflexivity | discriminate].
  - rewrite IH by (rewrite length_skipn; lia). apply firstn_skipn.
Qed.

Lemma chunks_each (k size : nat) :
  forall l : list X, length l = (k * size)%nat ->
    Forall (fun c => length c = size) (AudioEncoderWrapper.chunks k size l).
Proof.
  induction k as [|k IH]; intros l Hl; cbn [AudioEncoderWrapper.chunks]; constructor.
  - rewrite length_firstn. lia.
  - apply IH. rewrite length_skipn. lia.
Qed.

Lemma concat_concat_map (L : list (list (list X))) :
  concat (concat L) = concat (map (@concat X) L).
Proof.
  induction L as [|l L IH]; [reflexivity|].
  cbn [concat map]. now rewrite concat_app, IH.
Qed.

Lemma length_concat_uniform (w : nat) (m : list (list X)) :
  Forall (fun r => length r = w) m -> length (concat m) = (length m * w)%nat.
Proof.
  induction 1 as [|r m Hr _ IH]; [reflexivity|].
  cbn [concat length]. rewrite length_app, IH, Hr. lia.
Qed.

(** A reshape that succeeds keeps the values in their order. *)
Lemma reshape3_values (err : exn) (d0 d1 d2 : nat) (flat : list X)
  (r : list (list (list X))) :
  AudioEncoderWrapper.reshape3 err d0 d1 d2 flat = Ok r ->
  length r = d0 /\
  Forall (fun p => length p = d1 /\ Forall (fun row => length row = d2) p) r /\
  concat (concat r) = flat.
Proof.
  unfold AudioEncoderWrapper.reshape3.
  destruct (Nat.eqb_spec (length flat) (d0 * d1 * d2)) as [Hl|]; [|discriminate].
  intro H. injection H as <-.
  assert (length flat = (d0 * (d1 * d2))%nat) as Hl' by lia.
  pose proof (chunks_each d0 (d1 * d2) flat Hl') as Hch.
  split; [now rewrite length_map, chunks_length|]. split.
  - apply Forall_map. eapply Forall_impl; [|exact Hch].
    intros c Hc. cbn beta. split; [apply chunks_length | now apply chunks_each].
  - rewrite concat_concat_map, map_map.
    rewrite (map_ext_Forall _ (fun c => c)).
    + rewrite map_id. now apply chunks_concat.
    + eapply Forall_impl; [|exact Hch]. intros c Hc. now apply chunks_concat.
Qed.

Lemma reshape3_size (err : exn) (d0 d1 d2 : nat) (flat : list X) :
  (length flat = (d0 * d1 * d2)%nat ->
   exists r, AudioEncoderWrapper.reshape3 err d0 d1 d2 flat = Ok r) /\
  (length flat <> (d0 * d1 * d2)%nat ->
   AudioEncoderWrapper.reshape3 err d0 d1 d2 flat = Raise err).
Proof.
  unfold AudioEncoderWrapper.reshape3.
  destruct (Nat.eqb_spec (length flat) (d0 * d1 * d2)); split; intro; eauto; contradiction.
Qed.

Lemma skipn_last (d : X) : forall l : list X,
  l <> [] -> skipn (length l - 1) l = [last l d].
Proof.
  induction l as [|x [|y t] IH]; intro H; [contradiction | reflexivity |].
  replace (length (x :: y :: t) - 1)%nat with (S (length (y :: t) - 1))
    by (cbn [length]; lia).
  cbn [skipn]. rewrite IH by discriminate. reflexivity.
Qed.

End ReshapeFacts.

Lemma add_temporal_padding_unfold (A : Type) (features : list (list A)) :
  AudioEncoderWrapper.add_temporal_padding features
  = match features with
    | [] => []
    | first_frame :: _ => first_frame :: features ++ [last features first_frame]
    end.
Proof.
  destruct features as [|x t]; [reflexivity|].
  unfold AudioEncoderWrapper.add_temporal_padding, slice, slice_bound.
  set (l := x :: t).
  assert (1 <= len l) by (unfold l, len; cbn [length]; lia).
  destruct (Z.ltb_spec 0 0); [lia|]. destruct (Z.ltb_spec 1 0); [lia|].
  destruct (Z.ltb_spec (-1) 0); [|lia]. destruct (Z.ltb_spec (len l) 0); [lia|].
  rewrite !Z.min_l, Z.max_r by lia.
  replace (Z.to_nat (1 - 0)) with 1%nat by lia.
  replace (Z.to_nat (len l - (-1 + len l))) with 1%nat by lia.
  replace (Z.to_nat (-1 + len l)) with (length l - 1)%nat by (unfold len; lia).
  rewrite (skipn_last x l) by discriminate.
  reflexivity.
Qed.

(** [add_temporal_padding] repeats the first and the last row of a
    non-empty array, which gives two rows more; an empty array stays empty
    (where the docstring announces [n_frames + 2] rows). *)
Theorem add_temporal_padding_rows (A : Type) (features : list (list A)) :
  AudioEncoderWrapper.add_temporal_padding features
  = match features with
    | [] => []
    | first_frame :: _ => first_frame :: features ++ [last features first_frame]
    end /\
  length (AudioEncoderWrapper.add_temporal_padding features)
  = match features with
    | [] => 0%nat
    | _ => (length features + 2)%nat
    end.
Proof.
  split; [apply add_temporal_padding_unfold|].
  rewrite add_temporal_padding_unfold.
  destruct features as [|x t]; [reflexivity|].
  cbn [length]. rewrite length_app. cbn [length]. lia.
Qed.

(** In mode "ave" [reshape_for_model] succeeds exactly on 8192 values, and
    then returns 32 blocks of 16 rows of 16 values that hold the values of
    the window in their row-major order; any other number of values is a
    [ValueError], and so is an unknown mode. *)
Theorem reshape_for_model_ave (A : Type) (zero : A) (features : list (list A)) :
  (length (concat features) = 8192%nat ->
   exists r,
     AudioEncoderWrapper.reshape_for_model zero AudioEncoderWrapper.ave features = Ok r /\
     length r = 32%nat /\
     Forall (fun p => length p = 16%nat /\ Forall (fun row => length row = 16%nat) p) r /\
     concat (concat r) = concat features) /\
  (length (concat features) <> 8192%nat ->
   AudioEncoderWrapper.reshape_for_model zero AudioEncoderWrapper.ave features
   = Raise ValueError) /\
  AudioEncoderWrapper.reshape_for_model zero AudioEncoderWrapper.other features
  = Raise ValueError.
Proof.
  unfold AudioEncoderWrapper.reshape_for_model.
  split; [|split; [|reflexivity]].
  - intro Hl.
    destruct (proj1 (reshape3_size ValueError 32 16 16 (concat features)))
      as [r Hr]; [rewrite Hl; reflexivity|].
    exists r. split; [exact Hr|]. now apply (reshape3_values ValueError).
  - intro Hl. apply reshape3_size. intro H. apply Hl. rewrite H. reflexivity.
Qed.

(** Two rows of 4096 values are 8192 values. *)
Lemma reshape_for_model_ave_witness :
  exists r,
    AudioEncoderWrapper.reshape_for_model 0 AudioEncoderWrapper.ave
      [repeat 1 4096; repeat 2 4096] = Ok r /\
    length r = 32%nat /\
    concat (concat r) = repeat 1 4096 ++ repeat 2 4096.
Proof.
  destruct (proj1 (reshape_for_model_ave Z 0 [repeat 1 4096; repeat 2 4096]))
    as (r & H1 & H2 & _ & H4).
  - cbn [concat]. rewrite !length_app, !repeat_length. reflexivity.
  - exists r. split; [exact H1|]. split; [exact H2|].
    rewrite H4. cbn [concat]. now rewrite app_nil_r.
Defined.

(** In the modes "hubert" and "wenet" [reshape_for_model] fills the target
    (32768 and 131072 values) with the values of the window followed by
    zeros; a window with more values than the target is a [ValueError]. *)
Theorem reshape_for_model_zero_pads (A : Type) (zero : A) (features : list (list A))
  (m : AudioEncoderWrapper.mode) (target : nat) :
  (m = AudioEncoderWrapper.hubert /\ target = (32 * 32 * 32)%nat) \/
  (m = AudioEncoderWrapper.wenet /\ target = (256 * 16 * 32)%nat) ->
  ((length (concat features) <= target)%nat ->
   exists r,
     AudioEncoderWrapper.reshape_for_model zero m features = Ok r /\
     concat (concat r)
     = concat features ++ repeat zero (target - length (concat features))) /\
  ((target < length (concat features))%nat ->
   AudioEncoderWrapper.reshape_for_model zero m features = Raise ValueError).
Proof.
  intro Hm.
  assert (forall d0 d1 d2, target = (d0 * d1 * d2)%nat ->
    ((length (concat features) <= target)%nat ->
     exists r,
       (padded <- AudioEncoderWrapper.zero_padded zero target (concat features) ;;
        AudioEncoderWrapper.reshape3 ValueError d0 d1 d2 padded) = Ok r /\
       concat (concat r)
       = concat features ++ repeat zero (target - length (concat features))) /\
    ((target < length (concat features))%nat ->
     (padded <- AudioEncoderWrapper.zero_padded zero target (concat features) ;;
      AudioEncoderWrapper.reshape3 ValueError d0 d1 d2 padded) = Raise ValueError))
    as Hgen.
  { intros d0 d1 d2 Ht. unfold AudioEncoderWrapper.zero_padded.
    destruct (Nat.leb_spec (length (concat features)) target) as [Hle|Hgt]; split;
      intro H; try lia; try reflexivity.
    cbn [bind].
    assert (skipn (length (concat features)) (repeat zero target)
            = repeat zero (target - length (concat features))) as Hskip.
    { replace target with (length (concat features)
                           + (target - length (concat features)))%nat at 1 by lia.
      rewrite repeat_app, skipn_app, repeat_length, Nat.sub_diag.
      rewrite skipn_all2 by (rewrite repeat_length; lia). reflexivity. }
    rewrite Hskip.
    destruct (proj1 (reshape3_size ValueError d0 d1 d2
                (concat features ++ repeat zero (target - length (concat features)))))
      as [r Hr]; [rewrite length_app, repeat_length; lia|].
    exists r. split; [exact Hr|]. now apply (reshape3_values ValueError) in Hr. }
  unfold AudioEncoderWrapper.reshape_for_model.
  destruct Hm as [[-> ->]|[-> ->]]; apply Hgen; reflexivity.
Qed.

(** A window of 16 rows of 512 values in mode "hubert": its 8192 values,
    then 24576 zeros. *)
Lemma reshape_for_model_zero_pads_witness :
  exists r,
    AudioEncoderWrapper.reshape_for_model 0 AudioEncoderWrapper.hubert
      (repeat (repeat 1 512) 16) = Ok r /\
    concat (concat r)
    = concat (repeat (repeat 1 512) 16)
      ++ repeat 0 (32 * 32 * 32 - length (concat (repeat (repeat 1 512) 16))).
Proof.
  apply (proj1 (reshape_for_model_zero_pads Z 0 (repeat (repeat 1 512) 16)
                  AudioEncoderWrapper.hubert (32 * 32 * 32)
                  (or_introl (conj eq_refl eq_refl)))).
  rewrite (length_concat_uniform 512) by (apply Forall_forall; intros x Hx;
    apply repeat_spec in Hx; subst x; apply repeat_length).
  rewrite repeat_length. apply Nat.leb_le. vm_compute. reflexivity.
Defined.

Section WindowShape.

Variable A : Type.
Variable zero : A.

Lemma centred_window_uniform (w : nat) (features : list (list A)) (idx : Z) :
  Forall (fun r => length r = w) features ->
  Forall (fun r => length r = w)
    (Features.centred_window (repeat zero w) features idx).
Proof.
  intro Hf. unfold Features.centred_window. apply Forall_map, Forall_forall.
  intros j _. unfold Features.feature_at.
  destruct ((0 <=? idx - 8 + Z.of_nat j) && (idx - 8 + Z.of_nat j <? len features)) eqn:E;
    [|apply repeat_length].
  apply andb_prop in E. destruct E as [E1 E2].
  apply Z.leb_le in E1. apply Z.ltb_lt in E2. unfold len in E2.
  rewrite Forall_forall in Hf. apply Hf, nth_In. lia.
Qed.

Lemma centred_window_size (features : list (list A)) (idx : Z) :
  Forall (fun r => length r = 512%nat) features ->
  length (concat (Features.centred_window (repeat zero 512) features idx)) = 8192%nat.
Proof.
  intro Hf.
  rewrite (length_concat_uniform 512) by now apply centred_window_uniform.
  unfold Features.centred_window. rewrite length_map, length_seq. reflexivity.
Qed.

End WindowShape.

(** For features of width 512 and a frame index from [-8] to
    [len + 8], [get_frame_features] gives the centred window of 16 rows, and
    with [reshape=True] in mode "ave" its 8192 values as 32 blocks of 16 by
    16, in the same order. *)
Theorem get_frame_features_ave (A : Type) (zero : A)
  (audio_features : list (list A)) (frame_idx : Z) :
  Forall (fun r => length r = 512%nat) audio_features ->
  -8 <= frame_idx <= len audio_features + 8 ->
  AudioEncoderWrapper.get_frame_features zero AudioEncoderWrapper.ave 512
    audio_features frame_idx false
  = Ok (inl (Features.centred_window (repeat zero 512) audio_features frame_idx)) /\
  exists r,
    AudioEncoderWrapper.get_frame_features zero AudioEncoderWrapper.ave 512
      audio_features frame_idx true = Ok (inr r) /\
    length r = 32%nat /\
    Forall (fun p => length p = 16%nat /\ Forall (fun row => length row = 16%nat) p) r /\
    concat (concat r)
    = concat (Features.centred_window (repeat zero 512) audio_features frame_idx).
Proof.
  intros Hf Hidx. unfold AudioEncoderWrapper.get_frame_features.
  rewrite get_audio_features_for_frame_centred by assumption.
  split; [reflexivity|].
  unfold AudioEncoderWrapper.reshape_for_model.
  destruct (proj1 (reshape3_size ValueError 32 16 16
              (concat (Features.centred_window (repeat zero 512) audio_features frame_idx))))
    as [r Hr]; [rewrite centred_window_size by assumption; reflexivity|].
  exists r. rewrite Hr. split; [reflexivity|]. now apply (reshape3_values ValueError).
Qed.

(** Three rows of 512 values, frame 0. *)
Lemma get_frame_features_ave_witness :
  exists r,
    AudioEncoderWrapper.get_frame_features 0 AudioEncoderWrapper.ave 512
      [repeat 1 512; repeat 2 512; repeat 3 512] 0 true = Ok (inr r) /\
    length r = 32%nat.
Proof.
  destruct (get_frame_features_ave Z 0 [repeat 1 512; repeat 2 512; repeat 3 512] 0)
    as (_ & r & H1 & H2 & _).
  - repeat constructor; apply repeat_length.
  - vm_compute. split; discriminate.
  - exists r. split; assumption.
Defined.

(** [FrameGenerator._get_audio_features_for_frame] on features of width 512
    (at least 8 rows, a frame index inside the array): in mode "ave" the 8192
    values of the centred window come back as one batch of 32 blocks of 16 by
    16; in the modes "hubert" and "wenet" the reshape of 8192 values to
    32x32x32 or 256x16x32 always raises [RuntimeError]; an unknown mode is a
    [ValueError]. *)
Theorem frame_generator_audio_features (A : Type) (zero : A)
  (audio_features : list (list A)) (frame_idx : Z) :
  Forall (fun r => length r = 512%nat) audio_features ->
  8 <= len audio_features ->
  0 <= frame_idx <= len audio_features ->
  (exists r,
     AudioEncoderWrapper._get_audio_features_for_frame zero AudioEncoderWrapper.ave 512
       audio_features frame_idx = Ok [r] /\
     length r = 32%nat /\
     concat (concat r)
     = concat (Features.centred_window (repeat zero 512) audio_features frame_idx)) /\
  AudioEncoderWrapper._get_audio_features_for_frame zero AudioEncoderWrapper.hubert 512
    audio_features frame_idx = Raise RuntimeError /\
  AudioEncoderWrapper._get_audio_features_for_frame zero AudioEncoderWrapper.wenet 512
    audio_features frame_idx = Raise RuntimeError /\
  AudioEncoderWrapper._get_audio_features_for_frame zero AudioEncoderWrapper.other 512
    audio_features frame_idx = Raise ValueError.
Proof.
  intros Hf Hn Hidx. unfold AudioEncoderWrapper._get_audio_features_for_frame.
  rewrite get_audio_features_centred by assumption.
  pose proof (centred_window_size A zero audio_features frame_idx Hf) as Hsize.
  split; [|split; [|split; [|reflexivity]]].
  - destruct (proj1 (reshape3_size RuntimeError 32 16 16
                (concat (Features.centred_window (repeat zero 512) audio_features
                           frame_idx)))) as [r Hr]; [rewrite Hsize; reflexivity|].
    exists r. rewrite Hr. split; [reflexivity|].
    apply (reshape3_values RuntimeError) in Hr. tauto.
  - rewrite (proj2 (reshape3_size RuntimeError 32 32 32 _)); [reflexivity|].
    rewrite Hsize. intro H. apply Nat.eqb_eq in H. vm_compute in H. discriminate.
  - rewrite (proj2 (reshape3_size RuntimeError 256 16 32 _)); [reflexivity|].
    rewrite Hsize. intro H. apply Nat.eqb_eq in H. vm_compute in H. discriminate.
Qed.

Lemma frame_generator_audio_features_witness :
  AudioEncoderWrapper._get_audio_features_for_frame 0 AudioEncoderWrapper.hubert 512
    (repeat (repeat 1 512) 10) 3 = Raise RuntimeError /\
  AudioEncoderWrapper._get_audio_features_for_frame 0 AudioEncoderWrapper.wenet 512
    (repeat (repeat 1 512) 10) 3 = Raise RuntimeError.
Proof.
  destruct (frame_generator_audio_features Z 0 (repeat (repeat 1 512) 10) 3)
    as (_ & H1 & H2 & _).
  - apply Forall_forall. intros x Hx. apply repeat_spec in Hx. subst x.
    apply repeat_length.
  - vm_compute. discriminate.
  - vm_compute. split; discriminate.
  - split; assumption.
Defined.

Section BatchFacts.

Context {X : Type}.

Lemma firstn_add (a b : nat) : forall l : list X,
  firstn (a + b) l = firstn a l ++ firstn b (skipn a l).
Proof.
  induction a as [|a IH]; intro l; [reflexivity|].
  destruct l as [|x t]; [now rewrite !firstn_nil|].
  cbn [Nat.add firstn skipn app]. now rewrite IH.
Qed.

(** A slice with bounds that are not negative, whatever the length. *)
Lemma slice_clipped (l : list X) (lo hi : Z) :
  0 <= lo <= hi ->
  slice l lo hi = firstn (Z.to_nat (hi - lo)) (skipn (Z.to_nat lo) l).
Proof.
  intro H. unfold slice, slice_bound.
  destruct (Z.ltb_spec lo 0); [lia|]. destruct (Z.ltb_spec hi 0); [lia|].
  assert (0 <= len l) by (unfold len; lia).
  destruct (Z.le_gt_cases (len l) lo) as [Hout|Hin].
  - rewrite !skipn_all2 by (unfold len in *; lia). now rewrite !firstn_nil.
  - rewrite (Z.min_l lo) by lia.
    destruct (Z.le_gt_cases hi (len l)).
    + now rewrite Z.min_l by lia.
    + rewrite Z.min_r by lia.
      rewrite !firstn_all2 by (rewrite length_skipn; unfold len in *; lia).
      reflexivity.
Qed.

Lemma batches_concat (l : list X) (b : Z) (k : nat) :
  1 <= b ->
  concat (map (fun i => slice l i (i + b))
              (map (fun j => 0 + Z.of_nat j * b) (seq 0 k)))
  = firstn (k * Z.to_nat b) l.
Proof.
  intro Hb. induction k as [|k IH]; [reflexivity|].
  rewrite seq_S, !map_app, concat_app, IH. cbn [map concat Nat.add].
  rewrite app_nil_r, slice_clipped by lia.
  replace (S k * Z.to_nat b)%nat with (k * Z.to_nat b + Z.to_nat b)%nat by lia.
  replace (Z.to_nat (0 + Z.of_nat k * b)) with (k * Z.to_nat b)%nat
    by (rewrite Z.add_0_l, Z2Nat.inj_mul, Nat2Z.id by lia; reflexivity).
  rewrite firstn_add. do 2 f_equal. lia.
Qed.

End BatchFacts.

Lemma mapM_total {X Y} (f : X -> res Y) (g : X -> Y) (l : list X) :
  (forall x, f x = Ok (g x)) -> Generator.mapM f l = Ok (map g l).
Proof.
  intro H. induction l as [|x t IH]; [reflexivity|].
  cbn [Generator.mapM map]. now rewrite H, IH.
Qed.

Lemma process_mel_windows_encodes (A window : Type)
  (model : list window -> res (list (list A))) (enc : window -> list A)
  (mel_windows : list window) (batch_size : Z) :
  (forall batch, model batch = Ok (map enc batch)) ->
  1 <= batch_size -> mel_windows <> [] ->
  AudioEncoderWrapper.process_mel_windows model mel_windows batch_size
  = Ok (map enc mel_windows).
Proof.
  intros Hmodel Hb Hne.
  unfold AudioEncoderWrapper.process_mel_windows, AudioEncoderWrapper.range_step.
  destruct (Z.eqb_spec batch_size 0); [lia|].
  destruct (Z.gtb_spec batch_size 0); [|lia].
  cbn [bind].
  set (nw := len mel_windows).
  assert (1 <= nw) as Hn
    by (unfold nw, len; destruct mel_windows; [contradiction | cbn [length]; lia]).
  set (q := (nw - 0 + batch_size - 1) / batch_size).
  assert (1 <= q) as Hq
    by (unfold q; apply Z.div_le_lower_bound; lia).
  assert (nw <= q * batch_size) as Hcover.
  { pose proof (Z.mul_succ_div_gt (nw - 0 + batch_size - 1) batch_size ltac:(lia))
      as Hgt.
    fold q in Hgt. lia. }
  rewrite Z.max_r by lia.
  rewrite (mapM_total _ (fun i => map enc (slice mel_windows i (i + batch_size))))
    by (intro i; apply Hmodel).
  cbn [bind]. unfold AudioEncoderWrapper.np_concatenate.
  destruct (Z.to_nat q) as [|k] eqn:Ek; [lia|].
  rewrite <- Ek.
  set (L := map (fun i => map enc (slice mel_windows i (i + batch_size)))
                (map (fun k0 => 0 + Z.of_nat k0 * batch_size) (seq 0 (Z.to_nat q)))).
  assert (L <> []) as Hnil by (unfold L; rewrite Ek; cbn [seq map]; discriminate).
  assert (concat L = map enc mel_windows) as Hall.
  { unfold L.
    rewrite <- (map_map (fun i => slice mel_windows i (i + batch_size)) (map enc)).
    rewrite <- concat_map, batches_concat by lia.
    rewrite firstn_all2; [reflexivity|].
    unfold nw, len in Hcover. nia. }
  destruct L; [contradiction|]. now rewrite Hall.
Qed.

Lemma process_mel_windows_empty (A window : Type)
  (model : list window -> res (list (list A))) (batch_size : Z) :
  AudioEncoderWrapper.process_mel_windows model [] batch_size = Raise ValueError.
Proof.
  unfold AudioEncoderWrapper.process_mel_windows, AudioEncoderWrapper.range_step.
  change (len (@nil window)) with 0.
  destruct (Z.eqb_spec batch_size 0); [reflexivity|].
  destruct (Z.gtb_spec batch_size 0).
  + replace ((0 - 0 + batch_size - 1) / batch_size) with 0
      by (symmetry; apply Z.div_small; lia).
    reflexivity.
  + replace ((0 - 0 - batch_size - 1) / - batch_size) with 0
      by (symmetry; apply Z.div_small; lia).
    reflexivity.
Qed.

(** [process_mel_windows] with a model that encodes each window of a batch
    by itself: every window is encoded once, in order, whatever the positive
    batch size.  Without windows there is nothing to concatenate, and the
    call raises [ValueError], whatever the batch size. *)
Theorem process_mel_windows_batches (A window : Type)
  (model : list window -> res (list (list A))) (enc : window -> list A)
  (mel_windows : list window) (batch_size : Z) :
  ((forall batch, model batch = Ok (map enc batch)) ->
   1 <= batch_size -> mel_windows <> [] ->
   AudioEncoderWrapper.process_mel_windows model mel_windows batch_size
   = Ok (map enc mel_windows)) /\
  AudioEncoderWrapper.process_mel_windows model [] batch_size = Raise ValueError.
Proof.
  split; [apply process_mel_windows_encodes | apply process_mel_windows_empty].
Qed.

(** Five windows in batches of two. *)
Lemma process_mel_windows_batches_witness :
  AudioEncoderWrapper.process_mel_windows (fun batch => Ok (map (fun w => [w; w]) batch))
    [1; 2; 3; 4; 5] 2
  = Ok [[1; 1]; [2; 2]; [3; 3]; [4; 4]; [5; 5]].
Proof.
  apply (proj1 (process_mel_windows_batches Z Z
                  (fun batch => Ok (map (fun w => [w; w]) batch)) (fun w => [w; w])
                  [1; 2; 3; 4; 5] 2));
    [reflexivity | lia | discriminate].
Defined.

(* ------------------------------------------------------------------ *)
(** ** Spectrograms of fewer than 16 mel frames, and the offline pipeline *)

Section ShortSpectrograms.

Lemma slice_bound_range (n i : Z) : 0 <= n -> 0 <= slice_bound n i <= n.
Proof. intro H. unfold slice_bound. destruct (Z.ltb_spec i 0); lia. Qed.

Lemma slice_length_any {X} (l : list X) (lo hi : Z) :
  length (slice l lo hi)
  = Z.to_nat (slice_bound (len l) hi - slice_bound (len l) lo).
Proof.
  unfold slice.
  assert (0 <= len l) as Hn by (unfold len; lia).
  pose proof (slice_bound_range (len l) lo Hn).
  pose proof (slice_bound_range (len l) hi Hn).
  rewrite length_firstn, length_skipn. unfold len in *. lia.
Qed.

(** The window that is cut from fewer than 16 mel frames is short. *)
Lemma short_window_length {X} (l : list X) :
  len l < 16 -> (length (slice l (len l - 16) (len l)) < 16)%nat.
Proof.
  intro H. rewrite slice_length_any. unfold slice_bound.
  assert (0 <= len l) by (unfold len; lia).
  destruct (Z.ltb_spec (len l - 16) 0); [|lia].
  destruct (Z.ltb_spec (len l) 0); lia.
Qed.

Lemma mel_crop_short {A} (mel_spec : list (list A)) (frame_idx : Z) :
  Array2.ncols mel_spec < 16 -> 0 <= frame_idx < 2 ^ 1000 ->
  MelSpectrogramProcessor.crop_audio_window mel_spec frame_idx 25 = Raise ValueError.
Proof.
  intros Hn Hk.
  destruct (start_index_nonneg frame_idx Hk) as (start & Hs & Hpos).
  unfold MelSpectrogramProcessor.crop_audio_window. rewrite Hs. cbn [bind].
  destruct (Z.gtb_spec (start + 16) (Array2.ncols mel_spec)); [|lia].
  set (cols := map _ mel_spec).
  assert (len (Array2.transpose (length (hd [] cols)) cols) <> 16) as Hlen.
  { unfold Array2.transpose, len. rewrite length_map, length_seq.
    unfold cols. destruct mel_spec as [|r0 rest]; [cbn; lia|].
    cbn [map hd]. unfold Array2.ncols in *. cbn [hd] in *.
    pose proof (short_window_length r0 Hn). lia. }
  destruct (Z.eqb_spec (len (Array2.transpose (length (hd [] cols)) cols)) 16);
    [contradiction | reflexivity].
Qed.

Lemma mel_crop_ok {A} (mel_spec : list (list A)) (frame_idx : Z) :
  16 <= Array2.ncols mel_spec -> 0 <= frame_idx < 2 ^ 1000 ->
  exists w, MelSpectrogramProcessor.crop_audio_window mel_spec frame_idx 25 = Ok w /\
            length w = 16%nat.
Proof.
  intros Hm Hk.
  destruct (start_index_nonneg frame_idx Hk) as (start & Hs & Hpos).
  destruct mel_spec as [|r0 rest]; [cbn in Hm; lia|].
  unfold Array2.ncols in Hm. cbn [hd] in Hm.
  set (s := if start + 16 >? len r0 then len r0 - 16 else start).
  assert (0 <= s /\ s + 16 <= len r0) as [H0 H1]
    by (unfold s; destruct (start + 16 >? len r0) eqn:E; lia).
  unfold MelSpectrogramProcessor.crop_audio_window. rewrite Hs. cbn [bind].
  unfold Array2.ncols. cbn [hd].
  assert ((if start + 16 >? len r0 then (len r0 - 16, len r0) else (start, start + 16))
          = (s, s + 16)) as ->
    by (unfold s; destruct (start + 16 >? len r0); f_equal; lia).
  cbn [map hd].
  assert (length (slice r0 s (s + 16)) = 16%nat) as ->
    by (rewrite slice_length by lia; lia).
  eexists. split.
  - unfold Array2.transpose at 1. unfold len.
    rewrite length_map, length_seq. reflexivity.
  - unfold Array2.transpose. now rewrite length_map, length_seq.
Qed.

End ShortSpectrograms.

(** [MelSpectrogramProcessor.crop_audio_window] refuses a spectrogram of
    fewer than 16 mel frames: whatever the frame, the window is short and the
    shape check raises [ValueError]. *)
Theorem mel_window_needs_sixteen_frames (A : Type) (mel_spec : list (list A))
  (frame_idx : Z) :
  Array2.ncols mel_spec < 16 -> 0 <= frame_idx < 2 ^ 1000 ->
  MelSpectrogramProcessor.crop_audio_window mel_spec frame_idx 25 = Raise ValueError.
Proof. apply mel_crop_short. Qed.

(** 80 bands of 10 mel frames. *)
Lemma mel_window_needs_sixteen_frames_witness :
  MelSpectrogramProcessor.crop_audio_window (repeat (repeat 0 10) 80) 3 25
  = Raise ValueError.
Proof.
  apply (mel_window_needs_sixteen_frames Z (repeat (repeat 0 10) 80) 3).
  - vm_compute. reflexivity.
  - split; [lia | reflexivity].
Defined.

(** [AudDataset.__getitem__]: with at least 16 mel frames every item is
    the transposed window of 16 frames, and the shape check never fires; with
    fewer than 16 mel frames every item raises
    [Exception('mel.shape[0] != 16')]. *)
Theorem dataset_item_shape (A : Type) (orig_mel : list (list A)) (idx : Z) :
  0 <= idx < 2 ^ 1000 ->
  (16 <= len orig_mel ->
   exists mel,
     AudDataset.crop_audio_window orig_mel idx = Ok mel /\
     length mel = 16%nat /\
     AudDatasetItems.__getitem__ orig_mel idx
     = AudDatasetItems.Item [Array2.transpose (Z.to_nat (Array2.ncols mel)) mel]) /\
  (len orig_mel < 16 ->
   AudDatasetItems.__getitem__ orig_mel idx = AudDatasetItems.Exception_mel_shape).
Proof.
  intro Hk.
  destruct (start_index_nonneg idx Hk) as (start & Hs & Hpos).
  unfold AudDatasetItems.__getitem__.
  rewrite AudDataset_crop_unfold, Hs. cbn [bind].
  split; intro Hn.
  - set (s := if start + 16 >? len orig_mel then len orig_mel - 16 else start).
    assert (0 <= s /\ s + 16 <= len orig_mel) as [H0 H1]
      by (unfold s; destruct (start + 16 >? len orig_mel) eqn:E; lia).
    assert (length (slice orig_mel s (s + 16)) = 16%nat) as Hlen
      by (rewrite slice_length by lia; lia).
    eexists. split; [reflexivity|]. split; [exact Hlen|].
    unfold len. rewrite Hlen. reflexivity.
  - destruct (Z.gtb_spec (start + 16) (len orig_mel)); [|lia].
    cbv zeta. replace (len orig_mel - 16 + 16) with (len orig_mel) by lia.
    pose proof (short_window_length orig_mel Hn) as Hshort.
    destruct (Z.eqb_spec (len (slice orig_mel (len orig_mel - 16) (len orig_mel))) 16)
      as [E|E]; [unfold len in *; lia | reflexivity].
Qed.

Lemma dataset_item_shape_witness :
  AudDatasetItems.__getitem__ (repeat [0; 0] 10) 3 = AudDatasetItems.Exception_mel_shape.
Proof.
  apply (dataset_item_shape Z (repeat [0; 0] 10) 3).
  - split; [lia | reflexivity].
  - vm_compute. reflexivity.
Defined.

Section OfflinePipeline.

Variable A : Type.
Variable model : list (list (list A)) -> res (list (list A)).

(** The frame count of fewer than 16 mel frames at 25 fps is at most 2. *)
Definition short_count_small (n : Z) : bool :=
  match MelSpectrogramProcessor.get_frame_count n 25 with
  | Ok v => v <=? 2
  | Raise _ => false
  end.

Lemma short_counts_checked : all_from short_count_small 16 0 = true.
Proof. vm_compute. reflexivity. Qed.

Lemma mapM_first_raises {X Y} (f : X -> res Y) (x : X) (t : list X) (e : exn) :
  f x = Raise e -> Generator.mapM f (x :: t) = Raise e.
Proof. intro H. cbn [Generator.mapM]. now rewrite H. Qed.

Lemma mapM_all_ok {X Y} (f : X -> res Y) (P : Y -> Prop) (l : list X) :
  (forall x, In x l -> exists y, f x = Ok y /\ P y) ->
  exists ys, Generator.mapM f l = Ok ys /\ length ys = length l /\ Forall P ys.
Proof.
  induction l as [|x t IH]; intro H.
  - exists []. repeat split. constructor.
  - destruct (H x (or_introl eq_refl)) as (y & Hy & Py).
    destruct IH as (ys & Hys & Hl & HP); [intros z Hz; apply H; now right|].
    exists (y :: ys). cbn [Generator.mapM]. rewrite Hy, Hys. cbn [bind length].
    repeat split; [now rewrite Hl | now constructor].
Qed.

Lemma process_audio_file_short (mel_spec : list (list A)) :
  Array2.ncols mel_spec < 16 ->
  AudioPipeline.process_audio_file model mel_spec 25 = Raise ValueError.
Proof.
  intro Hn.
  assert (0 <= Array2.ncols mel_spec) as H0 by (unfold Array2.ncols, len; lia).
  pose proof (all_from_spec _ _ 0 (Array2.ncols mel_spec) short_counts_checked
                ltac:(lia)) as Hc.
  unfold short_count_small in Hc. unfold AudioPipeline.process_audio_file.
  destruct (MelSpectrogramProcessor.get_frame_count (Array2.ncols mel_spec) 25)
    as [v|]; [|discriminate].
  apply Z.leb_le in Hc. cbn [bind].
  destruct (Z.le_gt_cases v 0) as [Hv|Hv].
  - unfold Generator.range. replace (Z.to_nat (v - 0)) with 0%nat by lia.
    cbn [seq map Generator.mapM bind].
    now rewrite process_mel_windows_empty.
  - unfold Generator.range.
    destruct (Z.to_nat (v - 0)) as [|k] eqn:Ek; [lia|].
    cbn [seq map].
    rewrite (mapM_first_raises _ _ _ ValueError); [reflexivity|].
    apply mel_crop_short; [assumption|]. split; [lia | reflexivity].
Qed.

Lemma process_audio_file_rows (enc : list (list A) -> list A)
  (mel_spec : list (list A)) :
  (forall batch, model batch = Ok (map enc batch)) ->
  (forall w, enc w <> []) ->
  16 <= Array2.ncols mel_spec < 16016 ->
  exists v features,
    MelSpectrogramProcessor.get_frame_count (Array2.ncols mel_spec) 25 = Ok v /\
    1 <= v /\
    AudioPipeline.process_audio_file model mel_spec 25 = Ok features /\
    len features = v + 2.
Proof.
  intros Hmodel Henc Hn.
  pose proof (all_from_spec _ _ 16 (Array2.ncols mel_spec) frame_count_checked) as Hc.
  rewrite Z2Nat.id in Hc by lia. specialize (Hc ltac:(lia)).
  unfold frame_count_near_spec in Hc. unfold AudioPipeline.process_audio_file.
  destruct (MelSpectrogramProcessor.get_frame_count (Array2.ncols mel_spec) 25)
    as [v|]; [|discriminate].
  destruct (AudDataset.data_len (Array2.ncols mel_spec)) as [v'|]; [|discriminate].
  apply andb_prop in Hc. destruct Hc as [_ Hc].
  assert (0 <= (Array2.ncols mel_spec - 16) * 25 / 80) as Hq
    by (apply Z.div_pos; lia).
  assert ((Array2.ncols mel_spec - 16) * 25 / 80 < 2 ^ 20) as Hq'
    by (apply Z.div_lt_upper_bound; [lia|]; change (2 ^ 20) with 1048576; lia).
  assert (1 <= v < 2 ^ 21) as Hv.
  { unfold frame_count_spec in Hc. change (2 ^ 21) with 2097152.
    change (2 ^ 20) with 1048576 in Hq'.
    apply orb_prop in Hc. destruct Hc as [Hc|Hc].
    - apply Z.eqb_eq in Hc. lia.
    - apply andb_prop in Hc. destruct Hc as [Hc _]. apply Z.eqb_eq in Hc. lia. }
  exists v. cbn [bind].
  destruct (mapM_all_ok
              (fun i => MelSpectrogramProcessor.crop_audio_window mel_spec i 25)
              (fun w => length w = 16%nat) (Generator.range 0 v))
    as (windows & Hw & Hlen & _).
  { intros i Hi. apply in_range in Hi. apply mel_crop_ok; [lia|].
    split; [lia|]. apply Z.lt_trans with (2 ^ 21); [lia | reflexivity]. }
  rewrite Hw. cbn [bind].
  assert (length windows = Z.to_nat v) as Hcount
    by (rewrite Hlen; unfold Generator.range; rewrite length_map, length_seq; lia).
  rewrite (process_mel_windows_encodes A _ model enc windows 64 Hmodel ltac:(lia))
    by (destruct windows; [cbn in Hcount; lia | discriminate]).
  cbn [bind].
  assert (AudioPipeline.value_range mel_spec = Ok tt) as ->.
  { unfold AudioPipeline.value_range.
    destruct mel_spec as [|r0 rest]; [cbn in Hn; lia|].
    destruct r0 as [|a r0]; [cbn in Hn; lia | reflexivity]. }
  rewrite add_temporal_padding_unfold.
  destruct windows as [|w0 ws]; [cbn in Hcount; lia|].
  cbn [map bind].
  assert (AudioPipeline.value_range
            (enc w0 :: (enc w0 :: map enc ws) ++ [last (enc w0 :: map enc ws) (enc w0)])
          = Ok tt) as ->.
  { unfold AudioPipeline.value_range. cbn [concat].
    specialize (Henc w0). destruct (enc w0); [contradiction | reflexivity]. }
  cbn [bind]. eexists. split; [reflexivity|]. split; [lia|]. split; [reflexivity|].
  unfold len. cbn [length]. rewrite length_app. cbn [length]. rewrite length_map.
  cbn [length] in Hcount. lia.
Qed.

End OfflinePipeline.

(** [process_audio_file] at 25 fps on a spectrogram of fewer than 16 mel
    frames always raises [ValueError]: either no frame is counted and there is
    nothing to concatenate, or the first window is refused. *)
Theorem process_audio_file_needs_sixteen_frames (A : Type)
  (model : list (list (list A)) -> res (list (list A))) (mel_spec : list (list A)) :
  Array2.ncols mel_spec < 16 ->
  AudioPipeline.process_audio_file model mel_spec 25 = Raise ValueError.
Proof. apply process_audio_file_short. Qed.

Lemma process_audio_file_needs_sixteen_frames_witness :
  AudioPipeline.process_audio_file (fun batch => Ok (map (fun _ => [0]) batch))
    (repeat (repeat 0 15) 80) 25 = Raise ValueError /\
  AudioPipeline.process_audio_file (fun batch => Ok (map (fun _ => [0]) batch))
    (repeat (repeat 0 5) 80) 25 = Raise ValueError.
Proof.
  split;
    apply (process_audio_file_needs_sixteen_frames Z
             (fun batch => Ok (map (fun _ => [0]) batch)));
    vm_compute; reflexivity.
Defined.

(** [process_audio_file] at 25 fps on a spectrogram of 16 to 16015 mel
    frames, with a model that encodes each window by itself into at least
    one value: it returns the features of the [frame_count] windows with the
    first and the last one repeated, [frame_count + 2] rows. *)
Theorem process_audio_file_row_count (A : Type)
  (model : list (list (list A)) -> res (list (list A)))
  (enc : list (list A) -> list A) (mel_spec : list (list A)) :
  (forall batch, model batch = Ok (map enc batch)) ->
  (forall w, enc w <> []) ->
  16 <= Array2.ncols mel_spec < 16016 ->
  exists v features,
    MelSpectrogramProcessor.get_frame_count (Array2.ncols mel_spec) 25 = Ok v /\
    1 <= v /\
    AudioPipeline.process_audio_file model mel_spec 25 = Ok features /\
    len features = v + 2.
Proof. apply process_audio_file_rows. Qed.

(** 100 mel frames: 28 windows, 30 rows of features. *)
Lemma process_audio_file_row_count_witness :
  exists features,
    AudioPipeline.process_audio_file (fun batch => Ok (map (fun _ => [0]) batch))
      (repeat (repeat 0 100) 80) 25 = Ok features /\
    len features = 30.
Proof.
  destruct (process_audio_file_row_count Z
              (fun batch => Ok (map (fun _ => [0]) batch)) (fun _ => [0])
              (repeat (repeat 0 100) 80)) as (v & features & Hv & _ & Hf & Hl).
  - intro batch. reflexivity.
  - intros w. discriminate.
  - vm_compute. split; [discriminate | reflexivity].
  - exists features. split; [exact Hf|].
    assert (v = 28) as -> by (vm_compute in Hv; now injection Hv).
    exact Hl.
Defined.

(* ------------------------------------------------------------------ *)
(** ** The face crop, the paste and the parsing mask *)

Section CropFacts.

Lemma landmark_error (landmarks : list (list Z)) (i j : nat) (e : exn) :
  FaceRegion.landmark landmarks i j = Raise e -> e = IndexError.
Proof.
  unfold FaceRegion.landmark.
  destruct (nth_error landmarks i) as [p|]; [destruct (nth_error p j)|]; congruence.
Qed.

Lemma landmark_value (P : Z -> Prop) (landmarks : list (list Z)) (i j : nat) (v : Z) :
  Forall (Forall P) landmarks -> FaceRegion.landmark landmarks i j = Ok v -> P v.
Proof.
  intro HF. unfold FaceRegion.landmark.
  destruct (nth_error landmarks i) as [p|] eqn:Ei; [|discriminate].
  destruct (nth_error p j) as [x|] eqn:Ej; [|discriminate].
  intro H. injection H as <-.
  apply nth_error_In in Ei, Ej. rewrite Forall_forall in HF.
  specialize (HF p Ei). rewrite Forall_forall in HF. auto.
Qed.

Lemma wrap32_small (z : Z) :
  -2147483648 <= z < 2147483648 -> FaceRegion.wrap32 z = z.
Proof.
  intro H. unfold FaceRegion.wrap32.
  change (2 ^ 31) with 2147483648. change (2 ^ 32) with 4294967296.
  rewrite Z.mod_small by lia. lia.
Qed.

Lemma get_crop_region_short (landmarks : list (list Z)) :
  (length landmarks < 53)%nat ->
  FaceRegion.get_crop_region landmarks = Raise IndexError.
Proof.
  intro Hl. unfold FaceRegion.get_crop_region.
  destruct (FaceRegion.landmark landmarks 1 0) as [xmin|e] eqn:E1; cbn [bind].
  - unfold FaceRegion.landmark at 1.
    replace (nth_error landmarks 52) with (@None (list Z))
      by (symmetry; apply nth_error_None; lia).
    reflexivity.
  - now rewrite (landmark_error _ _ _ _ E1).
Qed.

Lemma slice_len {Y} (l : list Y) (lo hi : Z) :
  len (slice l lo hi) = Z.max 0 (slice_bound (len l) hi - slice_bound (len l) lo).
Proof. unfold len at 1. rewrite slice_length_any. lia. Qed.

Lemma slice_nth_error {Y} (l : list Y) (lo hi : Z) (i : nat) :
  Z.of_nat i < slice_bound (len l) hi - slice_bound (len l) lo ->
  nth_error (slice l lo hi) i
  = nth_error l (Z.to_nat (slice_bound (len l) lo) + i).
Proof.
  intro H. unfold slice. rewrite nth_error_firstn, nth_error_skipn.
  destruct (Nat.ltb_spec i
              (Z.to_nat (slice_bound (len l) hi - slice_bound (len l) lo)));
    [reflexivity | lia].
Qed.

Lemma row_exists {Y} (a : list Y) (y : nat) :
  Z.of_nat y < len a -> exists r, nth_error a y = Some r.
Proof.
  intro H. destruct (nth_error a y) as [r|] eqn:E; [now exists r|].
  apply nth_error_None in E. unfold len in H. lia.
Qed.

Context {X : Type}.

Lemma row_length (a : list (list X)) (H W : Z) (y : nat) (r : list X) :
  Array2.has_shape a H W -> nth_error a y = Some r -> len r = W.
Proof.
  intros [_ HW] Hr. apply nth_error_In in Hr.
  rewrite Forall_forall in HW. now apply HW.
Qed.

(** The shape of [a[y0:y1, x0:x1]] when it has a row. *)
Lemma crop_shape (a : list (list X)) (H W y0 y1 x0 x1 : Z) :
  Array2.has_shape a H W ->
  let h := Z.max 0 (slice_bound H y1 - slice_bound H y0) in
  let w := Z.max 0 (slice_bound W x1 - slice_bound W x0) in
  len (FaceRegion.crop a y0 y1 x0 x1) = h /\
  (0 < h -> Array2.ncols (FaceRegion.crop a y0 y1 x0 x1) = w) /\
  (0 < h -> Array2.has_shape (FaceRegion.crop a y0 y1 x0 x1) h w).
Proof.
  intros Ha h w. pose proof Ha as [HH HW].
  assert (len (FaceRegion.crop a y0 y1 x0 x1) = h) as Hlen.
  { unfold FaceRegion.crop.
    transitivity (len (slice a y0 y1)); [unfold len; now rewrite length_map|].
    rewrite slice_len, HH. reflexivity. }
  assert (Forall (fun row => len row = w) (FaceRegion.crop a y0 y1 x0 x1)) as Hrows.
  { unfold FaceRegion.crop. apply Forall_map, Forall_forall. intros r Hr.
    rewrite slice_len.
    assert (In r a) as Hin.
    { unfold slice in Hr. apply (In_nth_error) in Hr. destruct Hr as [k Hk].
      rewrite nth_error_firstn in Hk.
      destruct (k <? _)%nat; [|discriminate].
      rewrite nth_error_skipn in Hk. now apply nth_error_In in Hk. }
    rewrite Forall_forall in HW. rewrite (HW r Hin). reflexivity. }
  split; [exact Hlen|]. split; intro Hpos.
  - unfold Array2.ncols.
    destruct (FaceRegion.crop a y0 y1 x0 x1) as [|r0 rest];
      [unfold len in Hlen; cbn in Hlen; lia|].
    cbn [hd]. now inversion Hrows.
  - split; assumption.
Qed.

Lemma crop_pixel (a : list (list X)) (H W y0 y1 x0 x1 : Z) (i j : nat) :
  Array2.has_shape a H W ->
  Z.of_nat i < slice_bound H y1 - slice_bound H y0 ->
  Z.of_nat j < slice_bound W x1 - slice_bound W x0 ->
  Image.pixel_at (FaceRegion.crop a y0 y1 x0 x1) i j
  = Image.pixel_at a (Z.to_nat (slice_bound H y0) + i) (Z.to_nat (slice_bound W x0) + j).
Proof.
  intros Ha Hi Hj. pose proof Ha as [HH HW].
  unfold Image.pixel_at, FaceRegion.crop.
  rewrite nth_error_map, slice_nth_error by (rewrite HH; exact Hi).
  rewrite HH.
  destruct (nth_error a (Z.to_nat (slice_bound H y0) + i)) as [r|] eqn:Er;
    [|reflexivity].
  cbn [option_map]. pose proof (row_length a H W _ r Ha Er) as Hr.
  rewrite slice_nth_error by (rewrite Hr; exact Hj).
  now rewrite Hr.
Qed.

Lemma broadcast_in_shape (v : list (list X)) (h w : Z) (i j : nat) :
  Array2.has_shape v h w -> Z.of_nat i < h -> Z.of_nat j < w ->
  exists q, Image.broadcast_at v i j = Some q /\ Image.pixel_at v i j = Some q.
Proof.
  intros Hv Hi Hj. pose proof Hv as [Hh Hw].
  unfold Image.broadcast_at, Image.pixel_at.
  assert ((if len v =? 1 then 0%nat else i) = i) as ->
    by (destruct (Z.eqb_spec (len v) 1); lia).
  destruct (row_exists v i ltac:(lia)) as [r Hr]. rewrite Hr.
  pose proof (row_length v h w i r Hv Hr) as Hlen.
  assert ((if len r =? 1 then 0%nat else j) = j) as ->
    by (destruct (Z.eqb_spec (len r) 1); lia).
  destruct (row_exists r j ltac:(lia)) as [q Hq]. exists q. now rewrite Hq.
Qed.

(** A slice assignment of an array that has the shape of the region. *)
Lemma set_region_shape (a v : list (list X)) (y0 y1 x0 x1 : Z) :
  len v = Z.max 0 (slice_bound (len a) y1 - slice_bound (len a) y0) ->
  Array2.ncols v
  = Z.max 0 (slice_bound (Array2.ncols a) x1 - slice_bound (Array2.ncols a) x0) ->
  exists out, Image.set_region a y0 y1 x0 x1 v = Ok out.
Proof.
  intros Hv Hw. unfold Image.set_region, Image.region.
  rewrite Hv, Hw, !Z.eqb_refl. cbn [orb andb]. eexists. reflexivity.
Qed.

(** Inside the region a slice assignment stores the pixels of the value. *)
Lemma set_region_inside (a v out : list (list X)) (H W y0 y1 x0 x1 : Z) :
  Array2.has_shape a H W ->
  Array2.has_shape v (slice_bound H y1 - slice_bound H y0)
                     (slice_bound W x1 - slice_bound W x0) ->
  Image.set_region a y0 y1 x0 x1 v = Ok out ->
  forall y x, Image.in_region (Image.region a y0 y1 x0 x1) y x = true ->
    exists p,
      Image.pixel_at out y x = Some p /\
      Image.pixel_at v (y - Z.to_nat (slice_bound H y0))
                       (x - Z.to_nat (slice_bound W x0)) = Some p.
Proof.
  intros Ha Hv Hset y x Hin. pose proof Ha as [HH HW].
  assert (0 <= H) as HH0 by (rewrite <- HH; unfold len; lia).
  unfold Image.region in Hin. rewrite HH in Hin.
  pose proof Hin as Hin'. unfold Image.in_region in Hin'.
  apply andb_prop in Hin'. destruct Hin' as [Hin' H4].
  apply andb_prop in Hin'. destruct Hin' as [Hin' H3].
  apply andb_prop in Hin'. destruct Hin' as [H1 H2].
  apply Z.leb_le in H1, H3. apply Z.ltb_lt in H2, H4.
  pose proof (slice_bound_range H y1 HH0) as Hey.
  pose proof (slice_bound_range H y0 HH0) as Hsy.
  assert (Array2.ncols a = W) as HWa by (apply (has_shape_ncols a H W Ha); lia).
  rewrite HWa in Hin, H3, H4.
  assert (0 <= W) as HW0 by (rewrite <- HWa; unfold Array2.ncols, len; lia).
  pose proof (slice_bound_range W x1 HW0) as Hex.
  pose proof (slice_bound_range W x0 HW0) as Hsx.
  unfold Image.set_region, Image.region in Hset. rewrite HH, HWa in Hset.
  destruct (_ && _) in Hset; [|discriminate]. injection Hset as <-.
  destruct (row_exists a y ltac:(lia)) as [r Hr].
  pose proof (row_length a H W y r Ha Hr) as Hlen.
  destruct (row_exists r x ltac:(lia)) as [p Hp].
  destruct (broadcast_in_shape v _ _ (y - Z.to_nat (slice_bound H y0))
              (x - Z.to_nat (slice_bound W x0)) Hv ltac:(lia) ltac:(lia))
    as (q & Hq & Hq').
  exists q. split; [|exact Hq'].
  unfold Image.pixel_at. rewrite mapi_nth_error, Hr. cbn [option_map].
  rewrite mapi_nth_error, Hp. cbn [option_map].
  unfold Image.in_region in Hin. now rewrite Hin, Hq.
Qed.

Lemma masked_row_length (mask : list bool) :
  forall resized original : list X,
    length (FaceRegion.masked_row mask resized original) = length resized.
Proof.
  induction mask as [|k mask IH]; intros [|p r] [|q o]; cbn; try reflexivity.
  now rewrite IH.
Qed.

Lemma masked_row_nth_error (mask : list bool) :
  forall (resized original : list X) (j : nat),
    nth_error (FaceRegion.masked_row mask resized original) j
    = match nth_error mask j, nth_error resized j, nth_error original j with
      | Some keep, Some p, Some q => Some (if keep then q else p)
      | _, p, _ => p
      end.
Proof.
  induction mask as [|k mask IH]; intros [|p r] [|q o] [|j];
    cbn [FaceRegion.masked_row nth_error]; rewrite ?IH, ?nth_error_nil;
    try reflexivity;
    repeat match goal with
           | |- context [match nth_error ?l ?n with _ => _ end] =>
               destruct (nth_error l n)
           end; reflexivity.
Qed.

Lemma masked_rows_length (mask : list (list bool)) :
  forall resized original : list (list X),
    length (FaceRegion.masked_rows mask resized original) = length resized.
Proof.
  induction mask as [|k mask IH]; intros [|p r] [|q o]; cbn; try reflexivity.
  now rewrite IH.
Qed.

Lemma masked_rows_nth_error (mask : list (list bool)) :
  forall (resized original : list (list X)) (i : nat),
    nth_error (FaceRegion.masked_rows mask resized original) i
    = match nth_error mask i, nth_error resized i, nth_error original i with
      | Some m, Some r, Some o => Some (FaceRegion.masked_row m r o)
      | _, r, _ => r
      end.
Proof.
  induction mask as [|k mask IH]; intros [|p r] [|q o] [|i];
    cbn [FaceRegion.masked_rows nth_error]; rewrite ?IH, ?nth_error_nil;
    try reflexivity;
    repeat match goal with
           | |- context [match nth_error ?l ?n with _ => _ end] =>
               destruct (nth_error l n)
           end; reflexivity.
Qed.

Lemma masked_rows_shape (mask : list (list bool)) (resized original : list (list X))
  (h w : Z) :
  Array2.has_shape resized h w ->
  Array2.has_shape (FaceRegion.masked_rows mask resized original) h w.
Proof.
  intros [Hh Hw]. split; [unfold len; now rewrite masked_rows_length|].
  apply Forall_forall. intros row Hrow.
  apply In_nth_error in Hrow. destruct Hrow as [i Hi].
  rewrite masked_rows_nth_error in Hi. rewrite Forall_forall in Hw.
  destruct (nth_error mask i) as [m|];
    destruct (nth_error resized i) as [r|] eqn:Er; try discriminate;
    apply nth_error_In, Hw in Er.
  - destruct (nth_error original i) as [o|]; injection Hi as <-; [|exact Er].
    unfold len. rewrite masked_row_length. exact Er.
  - injection Hi as <-. exact Er.
Qed.

End CropFacts.

Section PixelFacts.

Context {X : Type}.

Lemma pixel_exists (a : list (list X)) (H W : Z) (y x : nat) :
  Array2.has_shape a H W -> Z.of_nat y < H -> Z.of_nat x < W ->
  exists p, Image.pixel_at a y x = Some p.
Proof.
  intros Ha Hy Hx. pose proof Ha as [HH _]. unfold Image.pixel_at.
  destruct (row_exists a y ltac:(lia)) as [r Hr]. rewrite Hr.
  pose proof (row_length a H W y r Ha Hr).
  apply row_exists. lia.
Qed.

Lemma masked_pixel (mask : list (list bool)) (resized original : list (list X))
  (i j : nat) :
  Image.pixel_at (FaceRegion.masked_rows mask resized original) i j
  = match Image.pixel_at mask i j, Image.pixel_at resized i j,
          Image.pixel_at original i j with
    | Some keep, Some p, Some q => Some (if keep then q else p)
    | _, p, _ => p
    end.
Proof.
  unfold Image.pixel_at. rewrite masked_rows_nth_error.
  destruct (nth_error mask i) as [m|]; destruct (nth_error resized i) as [r|];
    destruct (nth_error original i) as [o|];
    try apply masked_row_nth_error; try reflexivity;
    repeat match goal with
           | |- context [match nth_error ?l ?n with _ => _ end] =>
               destruct (nth_error l n)
           end; reflexivity.
Qed.

Lemma shape_of (a : list (list X)) (h w : Z) :
  Array2.has_shape a h w -> 0 < h -> FaceRegion.shape a = (h, w).
Proof.
  intros Ha Hh. unfold FaceRegion.shape.
  rewrite (has_shape_ncols a h w Ha Hh). now destruct Ha as [-> _].
Qed.

End PixelFacts.

Lemma pixel_at_map {X Y} (f : X -> Y) (a : list (list X)) (i j : nat) :
  Image.pixel_at (map (map f) a) i j = option_map f (Image.pixel_at a i j).
Proof.
  unfold Image.pixel_at. rewrite nth_error_map.
  destruct (nth_error a i) as [r|]; [apply nth_error_map | reflexivity].
Qed.

Lemma repeat_shape {X} (x : X) (h w : nat) :
  Array2.has_shape (repeat (repeat x w) h) (Z.of_nat h) (Z.of_nat w).
Proof.
  split; [unfold len; now rewrite repeat_length|].
  apply Forall_forall. intros r Hr. apply repeat_spec in Hr. subst r.
  unfold len. now rewrite repeat_length.
Qed.

(** The 328x328 canvas takes a region of 320x320. *)
Lemma canvas_of_region (pixel : Type) (black : pixel)
  (generated_region : Image.image pixel) :
  Array2.has_shape generated_region 320 320 ->
  exists canvas,
    Image.set_region (repeat (repeat black 328) 328) 4 324 4 324 generated_region
    = Ok canvas.
Proof.
  intro Hg. pose proof (repeat_shape black 328 328) as Hc.
  pose proof Hc as [Hlen _]. pose proof Hg as [Hglen _].
  apply set_region_fits; try lia.
  - rewrite (has_shape_ncols _ _ _ Hc); lia.
  - rewrite (has_shape_ncols _ _ _ Hg); lia.
Qed.

(** [get_crop_region] reads the landmarks 1, 31 and 52: with fewer than 53
    landmarks it raises [IndexError]; with 53 or more, each coordinate inside
    [-2^29, 2^29), the rectangle starts at landmark 1 (x) and landmark 52 (y),
    ends at the x of landmark 31 and is as high as it is wide. *)
Theorem get_crop_region_square (landmarks : list (list Z)) :
  ((length landmarks < 53)%nat ->
   FaceRegion.get_crop_region landmarks = Raise IndexError) /\
  (Forall (Forall (fun v => -536870912 <= v < 536870912)) landmarks ->
   forall xmin ymin xmax ymax,
     FaceRegion.get_crop_region landmarks = Ok (xmin, ymin, xmax, ymax) ->
     FaceRegion.landmark landmarks 1 0 = Ok xmin /\
     FaceRegion.landmark landmarks 52 1 = Ok ymin /\
     FaceRegion.landmark landmarks 31 0 = Ok xmax /\
     ymax - ymin = xmax - xmin).
Proof.
  split; [apply get_crop_region_short|].
  intros HF xmin ymin xmax ymax. unfold FaceRegion.get_crop_region.
  destruct (FaceRegion.landmark landmarks 1 0) as [a|] eqn:Ea; [|discriminate].
  destruct (FaceRegion.landmark landmarks 52 1) as [b|] eqn:Eb; [|discriminate].
  destruct (FaceRegion.landmark landmarks 31 0) as [c|] eqn:Ec; [|discriminate].
  cbn [bind]. intro H. injection H as <- <- <- <-.
  pose proof (landmark_value _ _ _ _ _ HF Ea).
  pose proof (landmark_value _ _ _ _ _ HF Eb).
  pose proof (landmark_value _ _ _ _ _ HF Ec). cbv beta in *.
  rewrite (wrap32_small (c - a)) by lia.
  rewrite wrap32_small by lia.
  repeat split. lia.
Qed.

(** 53 landmarks [(3 k, 2 k + 10)]: the rectangle from (3, 114) to
    (93, 204). *)
Lemma get_crop_region_square_witness :
  let landmarks := map (fun k => [3 * Z.of_nat k; 2 * Z.of_nat k + 10]) (seq 0 53) in
  FaceRegion.get_crop_region landmarks = Ok (3, 114, 93, 204) /\
  204 - 114 = 93 - 3.
Proof.
  intro landmarks. split; [reflexivity|].
  apply (proj2 (get_crop_region_square landmarks)) with (xmin := 3) (ymin := 114)
    (xmax := 93) (ymax := 204); [|reflexivity].
  unfold landmarks. apply Forall_map, Forall_forall. intros k Hk.
  apply in_seq in Hk. repeat constructor; lia.
Defined.

Section FrameFacts.

Variable pixel : Type.
Variable black : pixel.
Variable cv2_resize : Image.image pixel -> Z -> Z -> res (Image.image pixel).
Variable kept : pixel -> bool.

(** [cv2.resize] returns an image of the size it was asked for, and that size
    is positive. *)
Hypothesis resize_shape : forall a w h r,
  cv2_resize a w h = Ok r -> 0 < w /\ 0 < h /\ Array2.has_shape r h w.

Variable full_frame : Image.image pixel.
Variables H W : Z.
Hypothesis frame_shape : Array2.has_shape full_frame H W.
Variables xmin ymin xmax ymax h w : Z.
Hypothesis crop_size :
  FaceRegion.shape (FaceRegion.crop full_frame ymin ymax xmin xmax) = (h, w).
Variables canvas resized : Image.image pixel.
Hypothesis resized_canvas : cv2_resize canvas w h = Ok resized.

Lemma crop_size_region :
  0 < h /\ 0 < w /\ h = slice_bound H ymax - slice_bound H ymin /\
  w = slice_bound W xmax - slice_bound W xmin /\ 0 < H /\
  Array2.ncols full_frame = W /\ Array2.has_shape resized h w.
Proof.
  destruct (resize_shape _ _ _ _ resized_canvas) as (Hw & Hh & Hshape).
  pose proof (crop_shape full_frame H W ymin ymax xmin xmax frame_shape) as (Hl & Hn & _).
  cbv zeta in Hl, Hn. unfold FaceRegion.shape in crop_size.
  injection crop_size as Hlen Hcols. rewrite Hl in Hlen.
  specialize (Hn ltac:(lia)). rewrite Hn in Hcols.
  pose proof frame_shape as [HH _].
  assert (0 <= H) as HH0 by (rewrite <- HH; unfold len; lia).
  pose proof (slice_bound_range H ymax HH0). pose proof (slice_bound_range H ymin HH0).
  assert (0 < H) by lia.
  assert (Array2.ncols full_frame = W)
    by (apply (has_shape_ncols full_frame H W frame_shape); lia).
  repeat split; try lia; try assumption; apply Hshape.
Qed.

(** A value of the shape of the crop can be pasted, and is then what the
    frame holds inside the rectangle. *)
Lemma paste_of_crop_shape (v : Image.image pixel) :
  Array2.has_shape v h w ->
  exists out,
    Image.set_region full_frame ymin ymax xmin xmax v = Ok out /\
    Image.unchanged_outside full_frame out ymin ymax xmin xmax /\
    forall y x,
      Image.in_region (Image.region full_frame ymin ymax xmin xmax) y x = true ->
      exists p,
        Image.pixel_at out y x = Some p /\
        Image.pixel_at v (y - Z.to_nat (slice_bound H ymin))
                         (x - Z.to_nat (slice_bound W xmin)) = Some p.
Proof.
  intro Hv.
  destruct crop_size_region as (Hh & Hw & Eh & Ew & HH & HWa & _).
  pose proof frame_shape as [HHl _].
  destruct (set_region_shape full_frame v ymin ymax xmin xmax) as [out Hout].
  - rewrite HHl. destruct Hv as [-> _]. lia.
  - rewrite HWa, (has_shape_ncols v h w Hv Hh). lia.
  - exists out. split; [exact Hout|]. split; [now apply set_region_outside in Hout|].
    apply (set_region_inside full_frame v out H W); try assumption.
    now rewrite <- Eh, <- Ew.
Qed.

End FrameFacts.

(** [generate_frame] without a parsing image, for any landmarks (also
    negative ones, or ones outside the image): once [cv2.resize] and the
    network have returned, the paste cannot fail, because the rectangle that
    is written is the slice that was cropped.  The frame that comes back has
    the shape of the template, is the template outside the rectangle, and
    holds the resized canvas inside. *)
Theorem generate_frame_pastes_resized_canvas
  (pixel : Type) (black : pixel)
  (cv2_resize : Image.image pixel -> Z -> Z -> res (Image.image pixel))
  (kept : pixel -> bool) (A : Type)
  (unet : Image.image pixel -> list (list (list (list A))) -> res (Image.image pixel))
  (template_image : Image.image pixel) (landmarks : list (list Z))
  (audio_features : list (list (list (list A))))
  (H W xmin ymin xmax ymax : Z) (crop_328 generated_region : Image.image pixel) :
  (forall a w h r, cv2_resize a w h = Ok r -> 0 < w /\ 0 < h /\ Array2.has_shape r h w) ->
  (forall a f r, unet a f = Ok r -> Array2.has_shape r 320 320) ->
  Array2.has_shape template_image H W ->
  FaceRegion.get_crop_region landmarks = Ok (xmin, ymin, xmax, ymax) ->
  cv2_resize (FaceRegion.crop template_image ymin ymax xmin xmax) 328 328 = Ok crop_328 ->
  unet (FaceRegion.crop crop_328 4 324 4 324) audio_features = Ok generated_region ->
  exists canvas,
    Image.set_region (repeat (repeat black 328) 328) 4 324 4 324 generated_region
    = Ok canvas /\
    forall resized,
      (let '(h, w) :=
         FaceRegion.shape (FaceRegion.crop template_image ymin ymax xmin xmax) in
       cv2_resize canvas w h = Ok resized) ->
      exists out,
        FrameGenerator.generate_frame black cv2_resize kept unet
          template_image landmarks audio_features None = Ok out /\
        Image.unchanged_outside template_image out ymin ymax xmin xmax /\
        forall y x,
          Image.in_region (Image.region template_image ymin ymax xmin xmax) y x = true ->
          exists p,
            Image.pixel_at out y x = Some p /\
            Image.pixel_at resized (y - Z.to_nat (slice_bound H ymin))
                                   (x - Z.to_nat (slice_bound W xmin)) = Some p.
Proof.
  intros Hres Hunet Ht Hreg H328 Hg.
  pose proof (Hunet _ _ _ Hg) as Hgs. pose proof Hgs as [Hg1 _].
  destruct (canvas_of_region pixel black generated_region Hgs) as [canvas Hc].
  exists canvas. split; [exact Hc|]. intro resized.
  destruct (FaceRegion.shape (FaceRegion.crop template_image ymin ymax xmin xmax))
    as [h w] eqn:Hs.
  intro Hr.
  assert (FrameGenerator.generate_frame black cv2_resize kept unet
            template_image landmarks audio_features None
          = ImageProcessor.paste_generated_region black cv2_resize
              template_image generated_region (xmin, ymin, xmax, ymax) (h, w)) as ->.
  { unfold FrameGenerator.generate_frame, FaceRegion.crop_face_region.
    rewrite Hreg. cbn [bind]. rewrite Hs, H328. cbn [bind]. now rewrite Hg. }
  unfold ImageProcessor.paste_generated_region. rewrite Hc. cbn [bind].
  rewrite Hr. cbn [bind].
  destruct (crop_size_region pixel cv2_resize Hres template_image H W Ht
              xmin ymin xmax ymax h w Hs canvas resized Hr)
    as (_ & _ & _ & _ & _ & _ & Hshape).
  exact (paste_of_crop_shape pixel cv2_resize Hres template_image H W Ht
           xmin ymin xmax ymax h w Hs canvas resized Hr resized Hshape).
Qed.

(** A 3x4 template, landmarks that give the rectangle of the rows 1..2 and
    the columns 1..2, a network that paints 5 and a resize that paints 9. *)
Lemma generate_frame_pastes_resized_canvas_witness :
  let resize := fun (_ : Image.image Z) (w h : Z) =>
                  if (0 <? w) && (0 <? h)
                  then Ok (repeat (repeat 9 (Z.to_nat w)) (Z.to_nat h))
                  else Raise (External 1) in
  let unet := fun (_ : Image.image Z) (_ : list (list (list (list Z)))) =>
                Ok (repeat (repeat 5 320) 320) in
  let frame := [[10; 11; 12; 13]; [20; 21; 22; 23]; [30; 31; 32; 33]] in
  let landmarks := map (fun k => [(Z.of_nat k + 14) / 15; 1]) (seq 0 53) in
  FrameGenerator.generate_frame 0 resize (fun _ => false) unet frame landmarks [] None
  = Ok [[10; 11; 12; 13]; [20; 9; 9; 23]; [30; 9; 9; 33]] /\
  exists out,
    FrameGenerator.generate_frame 0 resize (fun _ => false) unet frame landmarks [] None
    = Ok out /\
    Image.unchanged_outside frame out 1 3 1 3.
Proof.
  intros resize unet frame landmarks.
  split; [vm_compute; reflexivity|].
  destruct (generate_frame_pastes_resized_canvas Z 0 resize (fun _ => false) Z unet
              frame landmarks [] 3 4 1 1 3 3
              (repeat (repeat 9 328) 328) (repeat (repeat 5 320) 320))
    as (canvas & _ & Hall).
  - intros a w h r. unfold resize.
    destruct (Z.ltb_spec 0 w); [|discriminate].
    destruct (Z.ltb_spec 0 h); [|discriminate].
    cbn [andb]. intro E. injection E as <-.
    split; [assumption|]. split; [assumption|].
    pose proof (repeat_shape 9 (Z.to_nat h) (Z.to_nat w)) as Hs.
    now rewrite !Z2Nat.id in Hs by lia.
  - intros a f r E. injection E as <-. apply (repeat_shape 5 320 320).
  - split; [reflexivity | repeat constructor].
  - reflexivity.
  - reflexivity.
  - reflexivity.
  - destruct (Hall (repeat (repeat 9 2) 2)) as (out & Hout & Hunch & _);
      [reflexivity|].
    exists out. split; assumption.
Defined.

Lemma shape_map {X Y} (f : X -> Y) (a : list (list X)) :
  FaceRegion.shape (map (map f) a) = FaceRegion.shape a.
Proof.
  unfold FaceRegion.shape, Array2.ncols, len. rewrite length_map.
  destruct a as [|r a]; [reflexivity|]. cbn [map hd]. now rewrite length_map.
Qed.

(** A mask without entries selects nothing. *)
Lemma masked_rows_of_empty_rows {X} (mask : list (list bool)) :
  forall resized original : list (list X),
    Forall (fun m => m = []) mask ->
    FaceRegion.masked_rows mask resized original = resized.
Proof.
  induction mask as [|m mask IH]; intros resized original Hm; [reflexivity|].
  inversion Hm as [|? ? Hm0 Hm']; subst.
  destruct resized as [|r resized]; [reflexivity|].
  destruct original as [|o original]; [reflexivity|].
  cbn [FaceRegion.masked_rows FaceRegion.masked_row]. now rewrite IH.
Qed.

Lemma cropped_shape_of {X} (a : list (list X)) (H W y0 y1 x0 x1 : Z) :
  Array2.has_shape a H W -> 0 < H ->
  FaceRegion.cropped_shape a y0 y1 x0 x1
  = (Z.max 0 (slice_bound H y1 - slice_bound H y0),
     Z.max 0 (slice_bound W x1 - slice_bound W x0)).
Proof.
  intros Ha HH. unfold FaceRegion.cropped_shape.
  now rewrite (shape_of a H W Ha HH).
Qed.

(** A crop with an axis of length 0 has no pixel. *)
Lemma empty_crop_rows {X} (a : list (list X)) (H W y0 y1 x0 x1 : Z) :
  Array2.has_shape a H W -> 0 < H ->
  fst (FaceRegion.cropped_shape a y0 y1 x0 x1) = 0 \/
  snd (FaceRegion.cropped_shape a y0 y1 x0 x1) = 0 ->
  Forall (fun r => r = []) (FaceRegion.crop a y0 y1 x0 x1).
Proof.
  intros Ha HH Hz. rewrite (cropped_shape_of a H W y0 y1 x0 x1 Ha HH) in Hz.
  cbn [fst snd] in Hz.
  pose proof (crop_shape a H W y0 y1 x0 x1 Ha) as (Hl & _ & Hs). cbv zeta in Hl, Hs.
  destruct Hz as [Hz|Hz].
  - rewrite Hz in Hl. destruct (FaceRegion.crop a y0 y1 x0 x1); [constructor|].
    unfold len in Hl. cbn [length] in Hl. lia.
  - destruct (Z.eq_dec (Z.max 0 (slice_bound H y1 - slice_bound H y0)) 0) as [E|E].
    + rewrite E in Hl. destruct (FaceRegion.crop a y0 y1 x0 x1); [constructor|].
      unfold len in Hl. cbn [length] in Hl. lia.
    + destruct (Hs ltac:(lia)) as [_ Hrows]. rewrite Hz in Hrows.
      eapply Forall_impl; [|exact Hrows]. cbn beta. intros r Hr.
      destruct r; [reflexivity|]. unfold len in Hr. cbn [length] in Hr. lia.
Qed.

(** [process_frame_with_parsing] with a parsing image of the size of the
    frame, once the canvas and [cv2.resize] are there: it returns a frame
    that is the full frame outside the rectangle, and inside the rectangle
    it is the full frame wherever the parsing pixel is [0, 0, 255] or
    [255, 255, 255], and the resized canvas elsewhere.  With a parsing image
    of another size, the call raises [IndexError] when the crop of the parsing
    image does not fit the crop of the frame (an axis of another length that
    is not 0); when it fits and has an axis of length 0, nothing is kept and
    the call returns what it returns without a parsing image. *)
Theorem parsing_mask_keeps_original
  (pixel : Type) (black : pixel)
  (cv2_resize : Image.image pixel -> Z -> Z -> res (Image.image pixel))
  (kept : pixel -> bool)
  (full_frame generated_region parsing_image canvas resized : Image.image pixel)
  (H W PH PW xmin ymin xmax ymax h w : Z) :
  (forall a w h r, cv2_resize a w h = Ok r -> 0 < w /\ 0 < h /\ Array2.has_shape r h w) ->
  Array2.has_shape full_frame H W ->
  FaceRegion.shape (FaceRegion.crop full_frame ymin ymax xmin xmax) = (h, w) ->
  Image.set_region (repeat (repeat black 328) 328) 4 324 4 324 generated_region
  = Ok canvas ->
  cv2_resize canvas w h = Ok resized ->
  (Array2.has_shape parsing_image H W ->
   exists out,
     FaceRegion.process_frame_with_parsing black cv2_resize kept full_frame
       generated_region (xmin, ymin, xmax, ymax) (h, w) (Some parsing_image) = Ok out /\
     Image.unchanged_outside full_frame out ymin ymax xmin xmax /\
     forall y x,
       Image.in_region (Image.region full_frame ymin ymax xmin xmax) y x = true ->
       exists c p,
         Image.pixel_at parsing_image y x = Some c /\
         Image.pixel_at out y x = Some p /\
         (if kept c then Image.pixel_at full_frame y x
          else Image.pixel_at resized (y - Z.to_nat (slice_bound H ymin))
                                      (x - Z.to_nat (slice_bound W xmin))) = Some p) /\
  (Array2.has_shape parsing_image PH PW -> 0 < PH ->
   let m := (Z.max 0 (slice_bound PH ymax - slice_bound PH ymin),
             Z.max 0 (slice_bound PW xmax - slice_bound PW xmin)) in
   FaceRegion.cropped_shape parsing_image ymin ymax xmin xmax = m /\
   (FaceRegion.mask_fits m (h, w) = false ->
    FaceRegion.process_frame_with_parsing black cv2_resize kept full_frame
      generated_region (xmin, ymin, xmax, ymax) (h, w) (Some parsing_image)
    = Raise IndexError) /\
   (FaceRegion.mask_fits m (h, w) = true -> fst m = 0 \/ snd m = 0 ->
    exists out,
      FaceRegion.process_frame_with_parsing black cv2_resize kept full_frame
        generated_region (xmin, ymin, xmax, ymax) (h, w) (Some parsing_image) = Ok out /\
      FaceRegion.process_frame_with_parsing black cv2_resize kept full_frame
        generated_region (xmin, ymin, xmax, ymax) (h, w) None = Ok out /\
      Image.set_region full_frame ymin ymax xmin xmax resized = Ok out)).
Proof.
  intros Hres Hf Hs Hc Hr.
  destruct (crop_size_region pixel cv2_resize Hres full_frame H W Hf
              xmin ymin xmax ymax h w Hs canvas resized Hr)
    as (Hh & Hw & Eh & Ew & HH & HWa & Hshape).
  set (original := FaceRegion.crop full_frame ymin ymax xmin xmax) in *.
  set (mask := map (map kept) (FaceRegion.crop parsing_image ymin ymax xmin xmax)).
  assert (FaceRegion.cropped_shape full_frame ymin ymax xmin xmax = (h, w)) as Hfc.
  { rewrite (cropped_shape_of full_frame H W ymin ymax xmin xmax Hf HH).
    f_equal; lia. }
  assert (FaceRegion.process_frame_with_parsing black cv2_resize kept full_frame
            generated_region (xmin, ymin, xmax, ymax) (h, w) (Some parsing_image)
          = (resized' <- FaceRegion.assign_masked resized original mask
                           (FaceRegion.cropped_shape parsing_image ymin ymax xmin xmax)
                           (h, w) ;;
             Image.set_region full_frame ymin ymax xmin xmax resized')) as ->.
  { unfold FaceRegion.process_frame_with_parsing. rewrite Hc. cbn [bind].
    rewrite Hr, Hfc. reflexivity. }
  assert (FaceRegion.process_frame_with_parsing black cv2_resize kept full_frame
            generated_region (xmin, ymin, xmax, ymax) (h, w) None
          = Image.set_region full_frame ymin ymax xmin xmax resized) as Hnone.
  { unfold FaceRegion.process_frame_with_parsing. rewrite Hc. cbn [bind].
    rewrite Hr. reflexivity. }
  rewrite Hnone.
  split.
  - intro Hp.
    pose proof (crop_shape parsing_image H W ymin ymax xmin xmax Hp) as (_ & _ & Hps).
    pose proof (crop_shape full_frame H W ymin ymax xmin xmax Hf) as (_ & _ & Hfs).
    cbv zeta in Hps, Hfs.
    rewrite !Z.max_r in Hps, Hfs by lia. rewrite <- Eh, <- Ew in Hps, Hfs.
    specialize (Hps Hh). specialize (Hfs Hh). fold original in Hfs.
    assert (Array2.has_shape mask h w) as Hmask by (apply has_shape_map; exact Hps).
    assert (FaceRegion.assign_masked resized original mask
              (FaceRegion.cropped_shape parsing_image ymin ymax xmin xmax) (h, w)
            = Ok (FaceRegion.masked_rows mask resized original)) as ->.
    { unfold FaceRegion.assign_masked.
      rewrite (cropped_shape_of parsing_image H W ymin ymax xmin xmax Hp HH),
        (shape_of resized h w Hshape Hh).
      rewrite !Z.max_r by lia. rewrite <- Eh, <- Ew.
      unfold FaceRegion.mask_fits. cbn [fst snd].
      now rewrite !Z.eqb_refl, !orb_true_r. }
    cbn [bind].
    pose proof (masked_rows_shape mask resized original h w Hshape) as Hms.
    destruct (paste_of_crop_shape pixel cv2_resize Hres full_frame H W Hf
                xmin ymin xmax ymax h w Hs canvas resized Hr _ Hms)
      as (out & Hout & Hunch & Hinside).
    exists out. split; [exact Hout|]. split; [exact Hunch|].
    intros y x Hin. destruct (Hinside y x Hin) as (p & Hp1 & Hp2).
    pose proof Hf as [HHl _].
    assert (0 <= H) as HH0 by lia.
    assert (0 <= W) as HW0 by (rewrite <- HWa; unfold Array2.ncols, len; lia).
    pose proof (slice_bound_range H ymin HH0) as Bsy.
    pose proof (slice_bound_range H ymax HH0) as Bey.
    pose proof (slice_bound_range W xmin HW0) as Bsx.
    pose proof (slice_bound_range W xmax HW0) as Bex.
    unfold Image.region, Image.in_region in Hin. rewrite HHl, HWa in Hin.
    apply andb_prop in Hin. destruct Hin as [Hin H4].
    apply andb_prop in Hin. destruct Hin as [Hin H3].
    apply andb_prop in Hin. destruct Hin as [H1 H2].
    apply Z.leb_le in H1, H3. apply Z.ltb_lt in H2, H4.
    set (i := (y - Z.to_nat (slice_bound H ymin))%nat) in *.
    set (j := (x - Z.to_nat (slice_bound W xmin))%nat) in *.
    assert ((Z.to_nat (slice_bound H ymin) + i)%nat = y) as Ey by (unfold i; lia).
    assert ((Z.to_nat (slice_bound W xmin) + j)%nat = x) as Ex by (unfold j; lia).
    assert (Z.of_nat i < slice_bound H ymax - slice_bound H ymin) as Hi
      by (unfold i; lia).
    assert (Z.of_nat j < slice_bound W xmax - slice_bound W xmin) as Hj
      by (unfold j; lia).
    destruct (pixel_exists parsing_image H W y x Hp ltac:(lia) ltac:(lia)) as [c Hc'].
    destruct (pixel_exists full_frame H W y x Hf ltac:(lia) ltac:(lia)) as [q Hq].
    destruct (pixel_exists resized h w i j Hshape ltac:(lia) ltac:(lia)) as [pr Hpr].
    rewrite masked_pixel in Hp2. unfold mask, original in Hp2.
    rewrite pixel_at_map in Hp2.
    rewrite (crop_pixel parsing_image H W ymin ymax xmin xmax i j Hp Hi Hj) in Hp2.
    rewrite (crop_pixel full_frame H W ymin ymax xmin xmax i j Hf Hi Hj) in Hp2.
    rewrite Ey, Ex, Hc', Hq, Hpr in Hp2. cbn [option_map] in Hp2.
    exists c, p. split; [exact Hc'|]. split; [exact Hp1|].
    rewrite Hq, Hpr. now destruct (kept c).
  - intros Hp HPH m.
    pose proof (cropped_shape_of parsing_image PH PW ymin ymax xmin xmax Hp HPH) as Hm.
    fold m in Hm. split; [exact Hm|].
    unfold FaceRegion.assign_masked. rewrite Hm, (shape_of resized h w Hshape Hh).
    split.
    + intros ->. reflexivity.
    + intros -> Hz. cbn [negb].
      assert (FaceRegion.masked_rows mask resized original = resized) as ->.
      { apply masked_rows_of_empty_rows. unfold mask. apply Forall_map.
        eapply Forall_impl;
          [|apply (empty_crop_rows parsing_image PH PW ymin ymax xmin xmax Hp HPH);
            rewrite Hm; exact Hz].
        cbn beta. intros r ->. reflexivity. }
      cbn [bind].
      destruct (paste_of_crop_shape pixel cv2_resize Hres full_frame H W Hf
                  xmin ymin xmax ymax h w Hs canvas resized Hr _ Hshape)
        as (out & Hout & _).
      exists out. now rewrite Hout.
Qed.

(** The 3x4 frame with the rectangle of the rows 1..2 and columns 1..2; the
    parsing image keeps the pixel of row 1, column 2.  A parsing image of two
    rows gives a mask of one row, which does not fit; a parsing image of one
    row gives a mask without rows, and the plain paste. *)
Lemma parsing_mask_keeps_original_witness :
  let resize := fun (_ : Image.image Z) (w h : Z) =>
                  if (0 <? w) && (0 <? h)
                  then Ok (repeat (repeat 9 (Z.to_nat w)) (Z.to_nat h))
                  else Raise (External 1) in
  let frame := [[10; 11; 12; 13]; [20; 21; 22; 23]; [30; 31; 32; 33]] in
  let parsing := [[0; 0; 0; 0]; [0; 0; 255; 0]; [0; 0; 0; 0]] in
  let region := repeat (repeat 5 320) 320 in
  FaceRegion.process_frame_with_parsing 0 resize (fun c => c =? 255) frame region
    (1, 1, 3, 3) (2, 2) (Some parsing)
  = Ok [[10; 11; 12; 13]; [20; 9; 22; 23]; [30; 9; 9; 33]] /\
  (exists out,
     FaceRegion.process_frame_with_parsing 0 resize (fun c => c =? 255) frame region
       (1, 1, 3, 3) (2, 2) (Some parsing) = Ok out /\
     Image.unchanged_outside frame out 1 3 1 3) /\
  FaceRegion.process_frame_with_parsing 0 resize (fun c => c =? 255) frame region
    (1, 1, 3, 3) (2, 2) (Some [[0; 0; 0; 0]; [0; 0; 255; 0]])
  = Raise IndexError /\
  exists out,
    FaceRegion.process_frame_with_parsing 0 resize (fun c => c =? 255) frame region
      (1, 1, 3, 3) (2, 2) (Some [[255; 255; 255; 255]]) = Ok out /\
    FaceRegion.process_frame_with_parsing 0 resize (fun c => c =? 255) frame region
      (1, 1, 3, 3) (2, 2) None = Ok out.
Proof.
  intros resize frame parsing region.
  split; [vm_compute; reflexivity|].
  destruct (canvas_of_region Z 0 region (repeat_shape 5 320 320)) as [canvas Hc].
  assert (forall a w h r, resize a w h = Ok r ->
            0 < w /\ 0 < h /\ Array2.has_shape r h w) as Hres.
  { intros a w h r. unfold resize.
    destruct (Z.ltb_spec 0 w); [|discriminate].
    destruct (Z.ltb_spec 0 h); [|discriminate].
    cbn [andb]. intro E. injection E as <-.
    split; [assumption|]. split; [assumption|].
    pose proof (repeat_shape 9 (Z.to_nat h) (Z.to_nat w)) as Hs.
    now rewrite !Z2Nat.id in Hs by lia. }
  assert (Array2.has_shape frame 3 4) as Hf
    by (split; [reflexivity | repeat constructor]).
  assert (Array2.has_shape parsing 3 4) as Hp
    by (split; [reflexivity | repeat constructor]).
  assert (Array2.has_shape [[0; 0; 0; 0]; [0; 0; 255; 0]] 2 4) as Hp2
    by (split; [reflexivity | repeat constructor]).
  assert (Array2.has_shape [[255; 255; 255; 255]] 1 4) as Hp1
    by (split; [reflexivity | repeat constructor]).
  split; [|split].
  - destruct (proj1 (parsing_mask_keeps_original Z 0 resize (fun c => c =? 255)
                       frame region parsing canvas (repeat (repeat 9 2) 2)
                       3 4 3 4 1 1 3 3 2 2 Hres Hf eq_refl Hc eq_refl) Hp)
      as (out & Hout & Hunch & _).
    exists out. split; assumption.
  - destruct (proj2 (parsing_mask_keeps_original Z 0 resize (fun c => c =? 255)
                       frame region [[0; 0; 0; 0]; [0; 0; 255; 0]] canvas
                       (repeat (repeat 9 2) 2)
                       3 4 2 4 1 1 3 3 2 2 Hres Hf eq_refl Hc eq_refl) Hp2 eq_refl)
      as (_ & Hraise & _).
    apply Hraise. reflexivity.
  - destruct (proj2 (parsing_mask_keeps_original Z 0 resize (fun c => c =? 255)
                       frame region [[255; 255; 255; 255]] canvas
                       (repeat (repeat 9 2) 2)
                       3 4 1 4 1 1 3 3 2 2 Hres Hf eq_refl Hc eq_refl) Hp1 eq_refl)
      as (_ & _ & Hfit).
    destruct (Hfit eq_refl (or_introl eq_refl)) as (out & Hsome & Hnone & _).
    exists out. split; assumption.
Defined.

(* ------------------------------------------------------------------ *)
(** ** The template sequence of the frame generator *)

Section SequenceFacts.

Variable pixel : Type.
Variable black : pixel.
Variable cv2_resize : Image.image pixel -> Z -> Z -> res (Image.image pixel).
Variable kept : pixel -> bool.
Variable A : Type.
Variable zero : A.
Variable unet :
  Image.image pixel -> list (list (list (list A))) -> res (Image.image pixel).
Variable mode : AudioEncoderWrapper.mode.
Variable width : nat.
Variable load_image : Z -> res (Image.image pixel).
Variable load_landmarks : Z -> res (list (list Z)).
Variable load_parsing : Z -> option (Image.image pixel).

Let template_frame :=
  FrameGenerator.template_frame black cv2_resize kept zero unet mode width
    load_image load_landmarks load_parsing.
Let frames_loop :=
  FrameGenerator.frames_loop black cv2_resize kept zero unet mode width
    load_image load_landmarks load_parsing.

(** The loop makes frame [i] from the template that the walk reaches. *)
Lemma frames_loop_indices (len_img start_frame : Z) (audio_features : list (list A)) :
  forall (frames : list Z) (img_idx step_stride : Z),
    frames_loop len_img start_frame audio_features frames img_idx step_stride
    = Generator.mapM
        (fun p => template_frame audio_features (snd p + start_frame) (fst p))
        (combine frames
           (HeadMotion.indices len_img (length frames) img_idx step_stride)).
Proof.
  induction frames as [|i rest IH]; intros img_idx step_stride; [reflexivity|].
  unfold frames_loop in *.
  cbn [FrameGenerator.frames_loop length HeadMotion.indices].
  destruct (HeadMotion.step len_img img_idx step_stride) as [i' s'].
  cbn [combine Generator.mapM fst snd]. now rewrite IH.
Qed.

Lemma combine_map_seq {U V} (f : nat -> U) (g : nat -> V) (l : list nat) :
  combine (map f l) (map g l) = map (fun k => (f k, g k)) l.
Proof. induction l as [|k l IH]; [reflexivity|]. cbn. now rewrite IH. Qed.

Lemma mapM_map {U V T} (f : V -> res T) (g : U -> V) (l : list U) :
  Generator.mapM f (map g l) = Generator.mapM (fun x => f (g x)) l.
Proof.
  induction l as [|x l IH]; [reflexivity|]. cbn [map Generator.mapM]. now rewrite IH.
Qed.

Lemma sequence_ping_pong (n_jpg : Z) (audio_features : list (list A)) (start_frame : Z) :
  2 <= n_jpg ->
  FrameGenerator.generate_frames_from_template_sequence black cv2_resize kept zero
    unet mode width load_image load_landmarks load_parsing
    n_jpg audio_features start_frame
  = Generator.mapM
      (fun i => template_frame audio_features
                  (HeadMotion.pingpong n_jpg (i + 1) + start_frame) i)
      (Generator.range 0 (len audio_features)).
Proof.
  intro HN. unfold FrameGenerator.generate_frames_from_template_sequence.
  fold frames_loop. rewrite frames_loop_indices.
  unfold Generator.range. rewrite length_map, length_seq.
  rewrite (indices_pingpong n_jpg HN _ 0 0 0 (Z.le_refl 0) (cursor_at_start n_jpg HN)).
  rewrite combine_map_seq, !mapM_map. apply mapM_ext.
  intros k _. cbn [fst snd].
  now replace (0 + 1 + Z.of_nat k) with (0 + Z.of_nat k + 1) by lia.
Qed.

Lemma sequence_first_template (n_jpg : Z) (audio_features : list (list A))
  (start_frame : Z) (e : exn) :
  audio_features <> [] ->
  load_image (1 + start_frame) = Raise e ->
  FrameGenerator.generate_frames_from_template_sequence black cv2_resize kept zero
    unet mode width load_image load_landmarks load_parsing
    n_jpg audio_features start_frame
  = Raise e.
Proof.
  intros Hne Hload. unfold FrameGenerator.generate_frames_from_template_sequence.
  unfold Generator.range.
  destruct audio_features as [|a0 rest]; [contradiction|].
  replace (Z.to_nat (len (a0 :: rest) - 0)) with (S (length rest))
    by (unfold len; cbn [length]; lia).
  cbn [seq map FrameGenerator.frames_loop].
  assert (HeadMotion.step (n_jpg - 1) 0 0 = (1, 1)) as ->.
  { unfold HeadMotion.step. destruct (0 >? n_jpg - 1 - 1); reflexivity. }
  unfold FrameGenerator.template_frame at 1. rewrite Hload. reflexivity.
Qed.

End SequenceFacts.

(** [generate_frames_from_template_sequence] over a directory of at least
    two .jpg files: frame [i] is made from the template files of number
    [start_frame + pingpong n_jpg (i + 1)], the ping-pong walk entered at its
    second position, and every such number lies between [start_frame] and
    [start_frame + n_jpg - 1]. *)
Theorem template_sequence_ping_pong
  (pixel : Type) (black : pixel)
  (cv2_resize : Image.image pixel -> Z -> Z -> res (Image.image pixel))
  (kept : pixel -> bool) (A : Type) (zero : A)
  (unet : Image.image pixel -> list (list (list (list A))) -> res (Image.image pixel))
  (mode : AudioEncoderWrapper.mode) (width : nat)
  (load_image : Z -> res (Image.image pixel))
  (load_landmarks : Z -> res (list (list Z)))
  (load_parsing : Z -> option (Image.image pixel))
  (n_jpg : Z) (audio_features : list (list A)) (start_frame : Z) :
  2 <= n_jpg ->
  FrameGenerator.generate_frames_from_template_sequence black cv2_resize kept zero
    unet mode width load_image load_landmarks load_parsing
    n_jpg audio_features start_frame
  = Generator.mapM
      (fun i =>
         FrameGenerator.template_frame black cv2_resize kept zero unet mode width
           load_image load_landmarks load_parsing audio_features
           (HeadMotion.pingpong n_jpg (i + 1) + start_frame) i)
      (Generator.range 0 (len audio_features)) /\
  forall i, start_frame <= HeadMotion.pingpong n_jpg (i + 1) + start_frame
            <= start_frame + n_jpg - 1.
Proof.
  intro HN. split; [now apply sequence_ping_pong|].
  intro i. pose proof (pingpong_range n_jpg HN (i + 1)). lia.
Qed.

(** Three templates, two frames. *)
Lemma template_sequence_ping_pong_witness :
  let load_image := fun n : Z => Ok [[n; n]; [n; n]] in
  let load_landmarks := fun _ : Z => Ok (@nil (list Z)) in
  let resize := fun (a : Image.image Z) (_ _ : Z) => Ok a in
  let unet := fun (a : Image.image Z) (_ : list (list (list (list Z)))) => Ok a in
  FrameGenerator.generate_frames_from_template_sequence 0 resize (fun _ => false) 0
    unet AudioEncoderWrapper.ave 1 load_image load_landmarks (fun _ => None)
    3 [[1]; [2]] 0
  = Generator.mapM
      (fun i =>
         FrameGenerator.template_frame 0 resize (fun _ => false) 0 unet
           AudioEncoderWrapper.ave 1 load_image load_landmarks (fun _ => None)
           [[1]; [2]] (HeadMotion.pingpong 3 (i + 1) + 0) i)
      (Generator.range 0 (len [[1]; [2]])).
Proof.
  intros load_image load_landmarks resize unet.
  apply (template_sequence_ping_pong Z 0 resize (fun _ => false) Z 0 unet
           AudioEncoderWrapper.ave 1 load_image load_landmarks (fun _ => None)
           3 [[1]; [2]] 0).
  lia.
Defined.

(** Whatever the number of .jpg files, the first frame of
    [generate_frames_from_template_sequence] is made from the template of
    number [start_frame + 1], never from [start_frame]: when that image cannot
    be loaded, as in a directory that holds one image only, the call raises
    the error of [load_image] and no frame is generated. *)
Theorem template_sequence_first_template
  (pixel : Type) (black : pixel)
  (cv2_resize : Image.image pixel -> Z -> Z -> res (Image.image pixel))
  (kept : pixel -> bool) (A : Type) (zero : A)
  (unet : Image.image pixel -> list (list (list (list A))) -> res (Image.image pixel))
  (mode : AudioEncoderWrapper.mode) (width : nat)
  (load_image : Z -> res (Image.image pixel))
  (load_landmarks : Z -> res (list (list Z)))
  (load_parsing : Z -> option (Image.image pixel))
  (n_jpg : Z) (audio_features : list (list A)) (start_frame : Z) (e : exn) :
  audio_features <> [] ->
  load_image (1 + start_frame) = Raise e ->
  FrameGenerator.generate_frames_from_template_sequence black cv2_resize kept zero
    unet mode width load_image load_landmarks load_parsing
    n_jpg audio_features start_frame
  = Raise e.
Proof. apply sequence_first_template. Qed.

(** A directory with 0.jpg only, one frame of audio. *)
Lemma template_sequence_first_template_witness :
  let load_image := fun n : Z => if n =? 0 then Ok [[7; 7]; [7; 7]]
                                 else Raise (External 2) in
  let load_landmarks := fun _ : Z => Ok (@nil (list Z)) in
  let resize := fun (a : Image.image Z) (_ _ : Z) => Ok a in
  let unet := fun (a : Image.image Z) (_ : list (list (list (list Z)))) => Ok a in
  FrameGenerator.generate_frames_from_template_sequence 0 resize (fun _ => false) 0
    unet AudioEncoderWrapper.ave 1 load_image load_landmarks (fun _ => None)
    1 [[1]] 0
  = Raise (External 2).
Proof.
  intros load_image load_landmarks resize unet.
  apply (template_sequence_first_template Z 0 resize (fun _ => false) Z 0 unet
           AudioEncoderWrapper.ave 1 load_image load_landmarks (fun _ => None)
           1 [[1]] 0 (External 2)).
  - discriminate.
  - reflexivity.
Defined.
